(** * Motion [jpegutils.cpp]: EXIF marker encoder and YUV420 plane adapter

    A shallow embedding of the EXIF/TIFF marker synthesis
    ([put_uint16] ... [jpgutl_exif], [put_jpeg_exif]), of the decoder's
    scanline demultiplexer ([jpgutl_decode_jpeg]) and of the encoder's row
    grouping ([jpgutl_put_yuv420p]), followed by the properties of the
    design document that can be settled on them.

    Conventions.
    - A [uint] is a [Z] reduced modulo [2^32] after every arithmetic step;
      a [u_char]/[JOCTET] is a [Z] reduced modulo [256].
    - A heap block is a [list Z] of bytes; a pointer into it is the [nat]
      index of the byte.  A store outside the block is undefined behaviour
      in C and is [None] here.
    - A C string is the list of its characters before the terminating NUL;
      the bytes found at the pointer are the characters followed by [0]. *)

From Stdlib Require Import ZArith Lia List String Ascii DecimalString Sorted.
From stdpp Require Import base list gmap.

Local Open Scope Z_scope.

Ltac Zify.zify_post_hook ::= Z.to_euclidean_division_equations.

(** ** Machine integers and bytes *)

Definition uint (v : Z) : Z := v mod 2 ^ 32.
Definition u_char (v : Z) : Z := v mod 256.

Abbreviation block := (list Z).
Abbreviation cstring := (list Z).

Definition strlen (s : cstring) : Z := Z.of_nat (length s).

(** The [n] bytes read through a [const char *] that points to [s]. *)
Definition c_bytes (s : cstring) (n : Z) : list Z := take (Z.to_nat n) (s ++ [0]).

Definition ascii_bytes (s : string) : list Z :=
  map (fun c => Z.of_N (N_of_ascii c)) (list_ascii_of_string s).

(** ** Stores into a block *)

(** [memcpy(m + dst, src, length src)]; also used for [memset]. *)
Definition memcpy (dst : nat) (src : list Z) (m : block) : option block :=
  if decide (dst + length src <= length m)%nat
  then Some (take dst m ++ src ++ drop (dst + length src) m)
  else None.

(** [m[p] = v] *)
Definition store (p : nat) (v : Z) (m : block) : option block :=
  if decide (p < length m)%nat then Some (<[p := v]> m) else None.

Definition put_uint16 (p : nat) (value : Z) (m : block) : option block :=
  m1 ← store p (u_char (Z.shiftr (Z.land value 0xFF00) 8)) m;
  store (p + 1) (u_char (Z.land value 0x00FF)) m1.

Definition put_sint16 (p : nat) (value : Z) (m : block) : option block :=
  m1 ← store p (u_char (Z.shiftr (Z.land value 0xFF00) 8)) m;
  store (p + 1) (u_char (Z.land value 0x00FF)) m1.

Definition put_uint32 (p : nat) (value : Z) (m : block) : option block :=
  m1 ← store p (u_char (Z.shiftr (Z.land value 0xFF000000) 24)) m;
  m2 ← store (p + 1) (u_char (Z.shiftr (Z.land value 0x00FF0000) 16)) m1;
  m3 ← store (p + 2) (u_char (Z.shiftr (Z.land value 0x0000FF00) 8)) m2;
  store (p + 3) (u_char (Z.land value 0x000000FF)) m3.

(** ** Constants *)

Definition TIFF_TAG_IMAGE_DESCRIPTION := 0x010E.
Definition TIFF_TAG_DATETIME := 0x0132.
Definition TIFF_TAG_EXIF_IFD := 0x8769.
Definition TIFF_TAG_TZ_OFFSET := 0x882A.
Definition EXIF_TAG_EXIF_VERSION := 0x9000.
Definition EXIF_TAG_ORIGINAL_DATETIME := 0x9003.
Definition EXIF_TAG_SUBJECT_AREA := 0x9214.
Definition EXIF_TAG_ORIGINAL_DATETIME_SS := 0x9291.

Definition TIFF_TYPE_ASCII := 2.
Definition TIFF_TYPE_USHORT := 3.

Definition exif_marker_start : list Z :=
  [69; 120; 105; 102; 0; 0;  77; 77; 0; 42;  0; 0; 0; 8].

Definition exif_version_tag : list Z :=
  [0x90; 0x00;  0x00; 0x07;  0x00; 0x00; 0x00; 0x04;  0x30; 0x32; 0x32; 0x30].

Definition exif_subifd_tag : list Z :=
  [0x87; 0x69;  0x00; 0x04;  0x00; 0x00; 0x00; 0x01].

Definition exif_tzoffset_tag : list Z :=
  [0x88; 0x2A;  0x00; 0x08;  0x00; 0x00; 0x00; 0x01;  0; 0; 0; 0].

(** ** The write cursor *)

(** [struct tiff_writing]; [marker] is the block that [base] and [buf]
    point into. *)
Record tiff_writing := Tiff_writing {
  marker : block;
  base : nat;
  buf : nat;
  data_offset : Z
}.

Definition writer := tiff_writing -> option tiff_writing.

Definition seqw (f g : writer) : writer := fun into => into' ← f into; g into'.
Infix ">>" := seqw (at level 65, right associativity).

Definition skip : writer := Some.

(** Run a block operation on the marker. *)
Definition on_marker (f : block -> option block) : writer := fun into =>
  m ← f (marker into);
  Some (Tiff_writing m (base into) (buf into) (data_offset into)).

(** [into->buf += n] *)
Definition advance (n : nat) : writer := fun into =>
  Some (Tiff_writing (marker into) (base into) (buf into + n) (data_offset into)).

Definition set_data_offset (v : Z) : writer := fun into =>
  Some (Tiff_writing (marker into) (base into) (buf into) v).

(** The alignment loop of [put_direntry]:
    [while ((offset & 0x03) != 0) { into->base[offset] = 0; offset++; }].
    Three iterations always suffice ([align_loop_fuel]). *)
Fixpoint align_loop (fuel : nat) (base : nat) (offset : Z) (m : block)
  : option (Z * block) :=
  if Z.land offset 0x03 =? 0 then Some (offset, m)
  else match fuel with
       | O => None
       | S fuel' =>
           m' ← store (base + Z.to_nat offset) 0 m;
           align_loop fuel' base (uint (offset + 1)) m'
       end.

Definition put_direntry (data : cstring) (length : Z) : writer := fun into =>
  if length <=? 4 then
    (on_marker (memcpy (buf into) (replicate 4 0)) >>
     on_marker (memcpy (buf into) (c_bytes data length))) into
  else
    r ← align_loop 3 (base into) (data_offset into) (marker into);
    let offset := fst r in
    m2 ← put_uint32 (buf into) offset (snd r);
    m3 ← memcpy (base into + Z.to_nat offset) (c_bytes data length) m2;
    Some (Tiff_writing m3 (base into) (buf into) (uint (offset + length))).

Definition put_stringentry (tag : Z) (str : cstring) (with_nul : bool) : writer :=
  fun into =>
  let stringlength := uint (uint (strlen str) + (if with_nul then 1 else 0)) in
  (on_marker (put_uint16 (buf into) tag) >>
   on_marker (put_uint16 (buf into + 2) TIFF_TYPE_ASCII) >>
   on_marker (put_uint32 (buf into + 4) stringlength) >>
   advance 8 >>
   put_direntry str stringlength >>
   advance 4) into.

(** The four members of [ctx_coord] that the encoder reads. *)
Record ctx_coord := Ctx_coord {
  coord_x : Z;
  coord_y : Z;
  coord_width : Z;
  coord_height : Z
}.

Definition put_subjectarea (box : ctx_coord) : writer := fun into =>
  let ool := (base into + Z.to_nat (data_offset into))%nat in
  (on_marker (put_uint16 (buf into) EXIF_TAG_SUBJECT_AREA) >>
   on_marker (put_uint16 (buf into + 2) TIFF_TYPE_USHORT) >>
   on_marker (put_uint32 (buf into + 4) 4) >>
   on_marker (put_uint32 (buf into + 8) (data_offset into)) >>
   advance 12 >>
   on_marker (put_uint16 ool (uint (coord_x box))) >>
   on_marker (put_uint16 (ool + 2) (uint (coord_y box))) >>
   on_marker (put_uint16 (ool + 4) (uint (coord_width box))) >>
   on_marker (put_uint16 (ool + 6) (uint (coord_height box))) >>
   set_data_offset (uint (data_offset into + 8))) into.

(** ** The metadata record *)

Record timespec := Timespec { tv_sec : Z; tv_nsec : Z }.

(** The members of [struct tm] that the encoder reads. *)
Record tm := Tm {
  tm_sec : Z;
  tm_min : Z;
  tm_hour : Z;
  tm_mday : Z;
  tm_mon : Z;
  tm_year : Z;
  tm_gmtoff : Z
}.

(** Of [cls_camera] the encoder reads [cam->cfg->picture_exif] only. *)
Record cls_camera := Cls_camera { picture_exif : cstring }.

(** [struct ctx_exif_info].  Its member [writing] is the state threaded
    through the [writer]s. *)
Record ctx_exif_info := Ctx_exif_info {
  cam : cls_camera;
  ts_in1 : option timespec;
  box : option ctx_coord;
  timestamp_tm : tm;
  description : option cstring;
  datetime : option cstring;
  subtime : option cstring;
  ifd0_tagcount : Z;
  ifd1_tagcount : Z;
  datasize : Z;
  ifds_size : Z
}.

(** What the encoder takes from its environment: the clock, the C library
    and the helpers of [util.cpp]. *)
Record world := World {
  clock_realtime : timespec;
  localtime_r : Z -> tm;
  mystrftime : cls_camera -> Z -> cstring -> cstring;
  heap : nat -> Z
}.

Definition PATH_MAX := 4096.

(** [mymalloc(n)]: a block of [n] bytes with the contents the heap gives. *)
Definition mymalloc (w : world) (n : Z) : block :=
  map (heap w) (seq 0 (Z.to_nat n)).

(** ** [snprintf] *)

Definition digits (n : N) : list Z :=
  ascii_bytes (NilZero.string_of_uint (N.to_uint n)).

(** The conversion ["%0<w>d"]. *)
Definition fmt_0d (w : nat) (v : Z) : list Z :=
  if v <? 0 then
    let ds := digits (Z.to_N (- v)) in
    45 :: replicate (w - 1 - length ds) 48 ++ ds
  else
    let ds := digits (Z.to_N v) in
    replicate (w - length ds) 48 ++ ds.

(** [snprintf(_, size, ...)] keeps at most [size - 1] characters. *)
Definition snprintf (size : nat) (formatted : list Z) : cstring :=
  take (size - 1) formatted.

Definition jpgutl_exif_date (w : world) (exif_info : ctx_exif_info) : ctx_exif_info :=
  let ts1 := match ts_in1 exif_info with
             | Some ts => Timespec (tv_sec ts) (tv_nsec ts)
             | None => clock_realtime w
             end in
  let t := localtime_r w (tv_sec ts1) in
  let tmpbuf := snprintf 45
    (fmt_0d 4 (tm_year t + 1900) ++ [58] ++ fmt_0d 2 (tm_mon t + 1) ++ [58] ++
     fmt_0d 2 (tm_mday t) ++ [32] ++ fmt_0d 2 (tm_hour t) ++ [58] ++
     fmt_0d 2 (tm_min t) ++ [58] ++ fmt_0d 2 (tm_sec t)) in
  let datetime := snprintf 22 (take 21 tmpbuf) in
  let description :=
    if decide (picture_exif (cam exif_info) = [])
    then None
    else Some (mystrftime w (cam exif_info) (PATH_MAX - 1)
                 (picture_exif (cam exif_info))) in
  Ctx_exif_info (cam exif_info) (ts_in1 exif_info) (box exif_info) t
    description (Some datetime) None
    (ifd0_tagcount exif_info) (ifd1_tagcount exif_info)
    (datasize exif_info) (ifds_size exif_info).

Definition jpgutl_exif_tags (exif_info : ctx_exif_info) : ctx_exif_info :=
  let c0 := ifd0_tagcount exif_info in
  let c1 := ifd1_tagcount exif_info in
  let ds := datasize exif_info in
  let '(c0, ds) :=
    match description exif_info with
    | Some d => (uint (c0 + 1), uint (ds + uint (5 + uint (strlen d))))
    | None => (c0, ds)
    end in
  let '(c0, c1, ds) :=
    match datetime exif_info with
    | Some d =>
        (uint (uint (c0 + 1) + 1), uint (c1 + 1),
         uint (ds + uint (2 * uint (5 + uint (strlen d)))))
    | None => (c0, c1, ds)
    end in
  let '(c1, ds) :=
    match subtime exif_info with
    | Some s => (uint (c1 + 1), uint (ds + uint (5 + uint (strlen s))))
    | None => (c1, ds)
    end in
  let '(c1, ds) :=
    match box exif_info with
    | Some _ => (uint (c1 + 1), uint (ds + 2 * 4))
    | None => (c1, ds)
    end in
  let '(c0, c1) :=
    if c1 >? 0 then (uint (c0 + 1), uint (c1 + 1)) else (c0, c1) in
  let size :=
    uint ((if c1 >? 0 then uint (uint (12 * c1) + 6) else 0) +
          (if c0 >? 0 then uint (uint (12 * c0) + 6) else 0)) in
  Ctx_exif_info (cam exif_info) (ts_in1 exif_info) (box exif_info)
    (timestamp_tm exif_info) (description exif_info) (datetime exif_info)
    (subtime exif_info) c0 c1 ds size.

Definition when {A} (o : option A) (f : A -> writer) : writer :=
  match o with Some a => f a | None => skip end.

Definition jpgutl_exif_writeifd0 (exif_info : ctx_exif_info) : writer :=
  (fun into => on_marker (put_uint16 (buf into) (uint (ifd0_tagcount exif_info))) into) >>
  advance 2 >>
  when (description exif_info) (fun d =>
    put_stringentry TIFF_TAG_IMAGE_DESCRIPTION d true) >>
  when (datetime exif_info) (fun d =>
    put_stringentry TIFF_TAG_DATETIME d true) >>
  (if ifd1_tagcount exif_info >? 0 then
     let ifd1_offset := uint (8 + 6 + uint (12 * uint (ifd0_tagcount exif_info))) in
     (fun into =>
        (on_marker (memcpy (buf into) exif_subifd_tag) >>
         on_marker (put_uint32 (buf into + 8) ifd1_offset)) into) >>
     advance 12
   else skip) >>
  when (datetime exif_info) (fun _ =>
    (fun into =>
       (on_marker (memcpy (buf into) exif_tzoffset_tag) >>
        on_marker (put_sint16 (buf into + 8)
                     (Z.quot (tm_gmtoff (timestamp_tm exif_info)) 3600))) into) >>
    advance 12) >>
  (fun into => on_marker (put_uint32 (buf into) 0) into) >>
  advance 4.

Definition jpgutl_exif_writeifd1 (exif_info : ctx_exif_info) : writer :=
  if ifd1_tagcount exif_info >? 0 then
    (fun into =>
       (on_marker (put_uint16 (buf into) (uint (ifd1_tagcount exif_info))) >>
        on_marker (memcpy (buf into + 2) exif_version_tag)) into) >>
    advance 14 >>
    when (datetime exif_info) (fun d =>
      put_stringentry EXIF_TAG_ORIGINAL_DATETIME d true) >>
    when (box exif_info) put_subjectarea >>
    when (subtime exif_info) (fun s =>
      put_stringentry EXIF_TAG_ORIGINAL_DATETIME_SS s false) >>
    (fun into => on_marker (put_uint32 (buf into) 0) into) >>
    advance 4
  else skip.

(** The body of [jpgutl_exif] from the call of [jpgutl_exif_tags] on.  The
    result is the returned length and the block stored in [*exif] (nothing
    is stored on the zero-length path). *)
Definition jpgutl_exif_from (w : world) (exif_info : ctx_exif_info)
  : option (Z * option block) :=
  let exif_info := jpgutl_exif_tags exif_info in
  if ifds_size exif_info =? 0 then Some (0, None)
  else
    let buffer_size := uint (uint (14 + ifds_size exif_info) + datasize exif_info) in
    m ← memcpy 0 exif_marker_start (mymalloc w buffer_size);
    into ← (jpgutl_exif_writeifd0 exif_info >> jpgutl_exif_writeifd1 exif_info)
             (Tiff_writing m 6 14 (uint (8 + ifds_size exif_info)));
    Some (uint (data_offset into + 6), Some (marker into)).

(** The first lines of [jpgutl_exif].  [fresh] is the [ctx_exif_info]
    found in the block that [mymalloc] returned, after the [memset]. *)
Definition exif_info_init (fresh : ctx_exif_info)
    (cam : cls_camera) (ts_in1 : option timespec) (box : option ctx_coord)
  : ctx_exif_info :=
  Ctx_exif_info cam ts_in1 box (timestamp_tm fresh) (description fresh)
    (datetime fresh) (subtime fresh) (ifd0_tagcount fresh)
    (ifd1_tagcount fresh) (datasize fresh) (ifds_size fresh).

Definition jpgutl_exif (w : world) (fresh : ctx_exif_info)
    (cam : cls_camera) (ts_in1 : option timespec) (box : option ctx_coord)
  : option (Z * option block) :=
  jpgutl_exif_from w (jpgutl_exif_date w (exif_info_init fresh cam ts_in1 box)).

(** [JPEG_APP0] of [jpeglib.h]. *)
Definition JPEG_APP0 := 0xE0.

(** The body of [put_jpeg_exif] after the call of [jpgutl_exif]: the
    markers handed to [jpeg_write_marker], each with its code and bytes. *)
Definition write_app1 (exif : option block) (exif_len : Z)
  : option (list (Z * list Z)) :=
  if exif_len >? 0 then
    m ← exif;
    Some [(JPEG_APP0 + 1, take (Z.to_nat exif_len) m)]
  else Some [].

Definition put_jpeg_exif (w : world) (fresh : ctx_exif_info)
    (cam : cls_camera) (ts1 : option timespec) (box : option ctx_coord)
  : option (list (Z * list Z)) :=
  r ← jpgutl_exif w fresh cam ts1 box;
  write_app1 (snd r) (fst r).

(** * The marker as two append-only streams *)

(** Big-endian bytes, as [put_uint16] and [put_uint32] store them. *)
Definition be16 (v : Z) : list Z :=
  [u_char (Z.shiftr (Z.land v 0xFF00) 8); u_char (Z.land v 0x00FF)].

Definition be32 (v : Z) : list Z :=
  [u_char (Z.shiftr (Z.land v 0xFF000000) 24);
   u_char (Z.shiftr (Z.land v 0x00FF0000) 16);
   u_char (Z.shiftr (Z.land v 0x0000FF00) 8);
   u_char (Z.land v 0x000000FF)].

Definition img : Type := list Z * list Z.

Definition image (mid tail : list Z) (i : img) : block :=
  i.1 ++ drop (length i.1) mid ++ i.2 ++ drop (length i.2) tail.

Definition img_bytes (bs : list Z) (i : img) : img := (i.1 ++ bs, i.2).
Definition img_ool (bs : list Z) (i : img) : img := (i.1, i.2 ++ bs).

Arguments image : simpl never.
Arguments be16 : simpl never.
Arguments be32 : simpl never.
Arguments uint : simpl never.

(** ** The serializer on the two streams *)

Definition str_data (s : cstring) (with_nul : bool) : list Z :=
  s ++ (if with_nul then [0] else []).

(** A string entry: eight bytes of tag, type and count, then the value
    itself when it fits in four bytes, else the offset of its aligned
    out-of-line copy. *)
Definition img_stringentry (E : nat) (tag : Z) (s : cstring) (with_nul : bool)
    (i : img) : img :=
  let data := str_data s with_nul in
  let n := Z.of_nat (length data) in
  let head := be16 tag ++ be16 TIFF_TYPE_ASCII ++ be32 n in
  if n <=? 4 then
    (i.1 ++ head ++ data ++ replicate (4 - length data) 0, i.2)
  else
    let off := Z.of_nat (E + length i.2) - 6 in
    let pad := (- off) mod 4 in
    (i.1 ++ head ++ be32 (off + pad), i.2 ++ replicate (Z.to_nat pad) 0 ++ data).

Definition img_subjectarea (E : nat) (box : ctx_coord) (i : img) : img :=
  let off := Z.of_nat (E + length i.2) - 6 in
  (i.1 ++ be16 EXIF_TAG_SUBJECT_AREA ++ be16 TIFF_TYPE_USHORT ++ be32 4 ++ be32 off,
   i.2 ++ be16 (uint (coord_x box)) ++ be16 (uint (coord_y box)) ++
          be16 (uint (coord_width box)) ++ be16 (uint (coord_height box))).

Definition img_when {A} (o : option A) (f : A -> img -> img) (i : img) : img :=
  match o with Some a => f a i | None => i end.

(** The time zone entry: the template with its value overwritten. *)
Definition tz_entry (v : Z) : list Z :=
  take 8 exif_tzoffset_tag ++ be16 v ++ drop 10 exif_tzoffset_tag.

Definition img_ifd0 (E : nat) (e : ctx_exif_info) (i : img) : img :=
  let i := img_bytes (be16 (uint (ifd0_tagcount e))) i in
  let i := img_when (description e)
             (fun d => img_stringentry E TIFF_TAG_IMAGE_DESCRIPTION d true) i in
  let i := img_when (datetime e)
             (fun d => img_stringentry E TIFF_TAG_DATETIME d true) i in
  let i := if ifd1_tagcount e >? 0
           then img_bytes
                  (be32 (uint (8 + 6 + uint (12 * uint (ifd0_tagcount e)))))
                  (img_bytes exif_subifd_tag i)
           else i in
  let i := img_when (datetime e)
             (fun _ => img_bytes
                (tz_entry (Z.quot (tm_gmtoff (timestamp_tm e)) 3600))) i in
  img_bytes (be32 0) i.

Definition img_ifd1 (E : nat) (e : ctx_exif_info) (i : img) : img :=
  if ifd1_tagcount e >? 0 then
    let i := img_bytes exif_version_tag
               (img_bytes (be16 (uint (ifd1_tagcount e))) i) in
    let i := img_when (datetime e)
               (fun d => img_stringentry E EXIF_TAG_ORIGINAL_DATETIME d true) i in
    let i := img_when (box e) (img_subjectarea E) i in
    let i := img_when (subtime e)
               (fun s => img_stringentry E EXIF_TAG_ORIGINAL_DATETIME_SS s false) i in
    img_bytes (be32 0) i
  else i.

(** Bytes of directory that an IFD takes, and the out-of-line room that a
    string may need (three bytes of padding at most). *)
Definition opt_n {A} (o : option A) : nat :=
  match o with Some _ => 1 | None => 0 end.

Definition dir0_len (e : ctx_exif_info) : nat :=
  6 + 12 * (opt_n (description e) + 2 * opt_n (datetime e) +
            (if ifd1_tagcount e >? 0 then 1 else 0)).

Definition dir1_len (e : ctx_exif_info) : nat :=
  if ifd1_tagcount e >? 0
  then 18 + 12 * (opt_n (datetime e) + opt_n (box e) + opt_n (subtime e))
  else 0.

Definition str_room (o : option cstring) (with_nul : bool) : nat :=
  match o with Some s => 3 + length (str_data s with_nul) | None => 0 end.

Definition ool0_room (e : ctx_exif_info) : nat :=
  str_room (description e) true + str_room (datetime e) true.

Definition ool1_room (e : ctx_exif_info) : nat :=
  if ifd1_tagcount e >? 0
  then str_room (datetime e) true + 8 * opt_n (box e) + str_room (subtime e) false
  else 0.

(** ** The inventory in closed form *)

Definition tag_count1 (e : ctx_exif_info) : Z :=
  let n := Z.of_nat (opt_n (datetime e) + opt_n (subtime e) + opt_n (box e)) in
  if n >? 0 then n + 1 else 0.

Definition tag_count0 (e : ctx_exif_info) : Z :=
  Z.of_nat (opt_n (description e) + 2 * opt_n (datetime e)) +
  (if tag_count1 e >? 0 then 1 else 0).

Definition booked (o : option cstring) : Z :=
  match o with Some s => 5 + strlen s | None => 0 end.

Definition inventory_datasize (e : ctx_exif_info) : Z :=
  booked (description e) + 2 * booked (datetime e) + booked (subtime e) +
  8 * Z.of_nat (opt_n (box e)).

Definition inventory_ifds_size (e : ctx_exif_info) : Z :=
  (if tag_count1 e >? 0 then 12 * tag_count1 e + 6 else 0) +
  (if tag_count0 e >? 0 then 12 * tag_count0 e + 6 else 0).

(** [buffer_size] of [jpgutl_exif]. *)
Definition buffer_size (e : ctx_exif_info) : Z :=
  let e' := jpgutl_exif_tags e in
  uint (uint (14 + ifds_size e') + datasize e').

Definition counters_zeroed (e : ctx_exif_info) : Prop :=
  ifd0_tagcount e = 0 /\ ifd1_tagcount e = 0 /\ datasize e = 0 /\ ifds_size e = 0.

(** The inventory stays within a [uint]. *)
Definition inventory_fits (e : ctx_exif_info) : Prop :=
  14 + inventory_ifds_size e + inventory_datasize e < 2 ^ 32.

Definition any_field (e : ctx_exif_info) : Prop :=
  description e <> None \/ datetime e <> None \/ subtime e <> None \/ box e <> None.

(** The marker as the two streams give it. *)
Definition exif_img (e : ctx_exif_info) : img :=
  let e' := jpgutl_exif_tags e in
  let E := Z.to_nat (14 + ifds_size e') in
  img_ifd1 E e' (img_ifd0 E e' (exif_marker_start, [])).

(** The record that the inventory pass leaves, counters in closed form. *)
Definition inventoried (e : ctx_exif_info) : ctx_exif_info :=
  Ctx_exif_info (cam e) (ts_in1 e) (box e) (timestamp_tm e) (description e)
    (datetime e) (subtime e) (tag_count0 e) (tag_count1 e)
    (inventory_datasize e) (inventory_ifds_size e).

(** * Reading a marker back

    A TIFF reader for the blocks that [jpgutl_exif] returns: big-endian
    integers, the entries of an IFD, and the value an entry points to. *)

Definition rd8 (m : block) (p : nat) : Z := nth p m 0.
Definition rd16 (m : block) (p : nat) : Z := rd8 m p * 256 + rd8 m (p + 1).
Definition rd32 (m : block) (p : nat) : Z := rd16 m p * 65536 + rd16 m (p + 2).

Record ifd_entry := Ifd_entry {
  entry_tag : Z;
  entry_type : Z;
  entry_count : Z;
  entry_value : Z
}.

Definition read_entry (m : block) (p : nat) : ifd_entry :=
  Ifd_entry (rd16 m p) (rd16 m (p + 2)) (rd32 m (p + 4)) (rd32 m (p + 8)).

Definition read_ifd (m : block) (p : nat) : list ifd_entry :=
  map (fun k => read_entry m (p + 2 + 12 * k)) (seq 0 (Z.to_nat (rd16 m p))).

Definition ifd_tags (m : block) (p : nat) : list Z :=
  map entry_tag (read_ifd m p).

Definition find_entry (tag : Z) (es : list ifd_entry) : option ifd_entry :=
  find (fun e => entry_tag e =? tag) es.

(** Offsets inside the marker count from the TIFF header, six bytes in. *)
Definition tiff_base : nat := 6.

Definition ifd0_pos (m : block) : nat :=
  tiff_base + Z.to_nat (rd32 m (tiff_base + 4)).

Definition ifd1_pos (m : block) : option nat :=
  e ← find_entry TIFF_TAG_EXIF_IFD (read_ifd m (ifd0_pos m));
  Some (tiff_base + Z.to_nat (entry_value e))%nat.

(** The bytes of a value stored out of line. *)
Definition entry_payload (m : block) (e : ifd_entry) : list Z :=
  take (Z.to_nat (entry_count e)) (drop (tiff_base + Z.to_nat (entry_value e)) m).

(** Year, month, day, hour, minute and second of a broken-down time. *)
Definition tm_components (t : tm) : Z * Z * Z * Z * Z * Z :=
  (tm_year t + 1900, tm_mon t + 1, tm_mday t, tm_hour t, tm_min t, tm_sec t).

(** * Sample inputs *)

(** 2024-03-07 13:05:09, UTC. *)
Definition sample_tm : tm := Tm 9 5 13 7 2 124 0.

(** A world whose clock and [localtime_r] give [sample_tm], whose
    [mystrftime] copies a format without conversions, and whose heap hands
    out blocks filled with [0xAA]. *)
Definition sample_world : world :=
  World (Timespec 1709816709 0) (fun _ => sample_tm) (fun _ _ fmt => fmt)
    (fun _ => 0xAA).

(** A freshly allocated [ctx_exif_info] whose counters are zero. *)
Definition zeroed_info : ctx_exif_info :=
  Ctx_exif_info (Cls_camera []) None None (Tm 0 0 0 0 0 0 0) None None None 0 0 0 0.

Definition sample_box : ctx_coord := Ctx_coord 10 20 4 6.

(** The record as [jpgutl_exif_date] leaves it for [sample_world], no
    description configured and no region. *)
Definition sample_info : ctx_exif_info :=
  jpgutl_exif_date sample_world zeroed_info.

(** A record with a region only. *)
Definition box_only_info : ctx_exif_info :=
  Ctx_exif_info (Cls_camera []) None (Some sample_box) sample_tm None None None
    0 0 0 0.

(** The marker that [jpgutl_exif_from] returns for [sample_info]. *)
Definition sample_marker : block :=
  Eval vm_compute in
    match jpgutl_exif_from sample_world sample_info with
    | Some (_, Some m) => m
    | _ => []
    end.

(** A world whose [localtime_r] gives 10000-01-01 00:00:00, the first
    year that [jpgutl_exif_date] prints with five digits. *)
Definition y10k_world : world :=
  World (Timespec 253402300800 0) (fun _ => Tm 0 0 0 1 0 8100 0)
    (fun _ _ fmt => fmt) (fun _ => 0xAA).

Definition y10k_marker : block :=
  Eval vm_compute in
    match jpgutl_exif y10k_world zeroed_info (Cls_camera [])
            (Some (Timespec 253402300800 0)) (Some sample_box) with
    | Some (_, Some m) => m
    | _ => []
    end.

(** A record with the description "hello" and a region, and no datetime. *)
Definition hello_box_info : ctx_exif_info :=
  Ctx_exif_info (Cls_camera []) None (Some sample_box) sample_tm
    (Some [104; 101; 108; 108; 111]) None None 0 0 0 0.

Definition hello_box_marker : block :=
  Eval vm_compute in
    match jpgutl_exif_from sample_world hello_box_info with
    | Some (_, Some m) => m
    | _ => []
    end.

(** The entry with a given tag in the Exif IFD of a marker. *)
Definition exif_ifd_entry (m : block) (tag : Z) : option ifd_entry :=
  p ← ifd1_pos m; find_entry tag (read_ifd m p).

(** * The decoder: [jpgutl_decode_jpeg]

    The codec is a collaborator: every call into it emits messages through
    [jpgutl_emit_message] and then either returns or leaves through
    [jpgutl_error_exit].  A [codec] says what each call of one decode does.
    The image is written through the bare pointer [img_out]; the model
    keeps the bytes stored at each offset from it. *)

Record jpeg_message := Jpeg_message { msg_code : Z; msg_level : Z }.

(** The result of a call: [None] when it ends in [error_exit]. *)
Record codec_call (A : Type) := Codec_call {
  call_msgs : list jpeg_message;
  call_result : option A
}.
Arguments Codec_call {A} _ _.
Arguments call_msgs {A} _.
Arguments call_result {A} _.

Record codec := Codec {
  read_header : codec_call unit;
  (** [output_width], [output_height] *)
  start_decompress : codec_call (Z * Z);
  (** the [k]-th call of [jpeg_read_scanlines]: the samples of the line *)
  read_scanlines : nat -> codec_call (list Z);
  finish_decompress : codec_call unit
}.

Section Decode.

(** [JWRN_EXTRANEOUS_DATA] of [jerror.h]. *)
Variable JWRN_EXTRANEOUS_DATA : Z.

(** The test of [jpgutl_emit_message]. *)
Definition counted (msg : jpeg_message) : bool :=
  negb (msg_code msg =? JWRN_EXTRANEOUS_DATA) && (msg_level msg <? 0).

Definition jpgutl_emit_message (warning_seen : Z) (msg : jpeg_message) : Z :=
  if counted msg then warning_seen + 1 else warning_seen.

Definition emit_all (warning_seen : Z) (msgs : list jpeg_message) : Z :=
  fold_left jpgutl_emit_message msgs warning_seen.

(** The pointers of the demultiplexer, as offsets from [img_out]. *)
Record planes := Planes {
  mem : gmap nat Z;
  img_y : nat;
  img_cb : nat;
  img_cr : nat;
  offset_y : Z
}.

(** [for (i = 0; i < (dinfo.output_width * 3); i += 3)]; [None] when the
    fuel runs out. *)
Fixpoint demux_line (fuel : nat) (i : Z) (output_width : Z) (wline : list Z)
    (p : planes) : option planes :=
  if i <? uint (output_width * 3) then
    match fuel with
    | O => None
    | S fuel' =>
        let col := Z.to_nat (i / 3) in
        let img1 := <[(img_y p + col)%nat := nth (Z.to_nat i) wline 0]> (mem p) in
        let img2 :=
          if Z.land i 1 =? 0 then img1
          else
            <[(img_cr p + col / 2)%nat := nth (Z.to_nat (uint (i + 2))) wline 0]>
              (<[(img_cb p + col / 2)%nat := nth (Z.to_nat (uint (i + 1))) wline 0]>
                 img1) in
        demux_line fuel' (uint (i + 3)) output_width wline
          (Planes img2 (img_y p) (img_cb p) (img_cr p) (offset_y p))
    end
  else Some p.

(** What the loop over the scanlines ends in. *)
Inductive rows_end :=
| Rows_fatal (img_out : gmap nat Z)
| Rows_done (warning_seen : Z) (p : planes).

(** [while (dinfo.output_scanline < dinfo.output_height)], for the [rows]
    lines that are left, [k] being [dinfo.output_scanline]. *)
Fixpoint read_rows (c : codec) (output_width : Z) (rows k : nat)
    (warning_seen : Z) (p : planes) : option rows_end :=
  match rows with
  | O => Some (Rows_done warning_seen p)
  | S rows' =>
      let call := read_scanlines c k in
      let warning_seen := emit_all warning_seen (call_msgs call) in
      match call_result call with
      | None => Some (Rows_fatal (mem p))
      | Some wline =>
          p1 ← demux_line (Z.to_nat (uint (output_width * 3))) 0 output_width wline p;
          let y := (img_y p1 + Z.to_nat output_width)%nat in
          let p2 :=
            if Z.land (offset_y p1) 1 =? 0
            then Planes (mem p1) y (img_cb p1) (img_cr p1)
                   (u_char (offset_y p1 + 1))
            else Planes (mem p1) y
                   (img_cb p1 + Z.to_nat (output_width / 2))
                   (img_cr p1 + Z.to_nat (output_width / 2))
                   (u_char (offset_y p1 + 1)) in
          read_rows c output_width rows' (S k) warning_seen p2
      end
  end.

(** [jpgutl_decode_jpeg]: the return value and the bytes behind [img_out]. *)
Definition jpgutl_decode_jpeg (c : codec) (width height : Z)
    (img_out : gmap nat Z) : option (Z * gmap nat Z) :=
  let warning_seen := 0 in
  let warning_seen := emit_all warning_seen (call_msgs (read_header c)) in
  match call_result (read_header c) with
  | None => Some (-1, img_out)
  | Some _ =>
      let warning_seen := emit_all warning_seen (call_msgs (start_decompress c)) in
      match call_result (start_decompress c) with
      | None => Some (-1, img_out)
      | Some (output_width, output_height) =>
          if (output_width =? 0) || (output_height =? 0) then Some (-1, img_out)
          else if negb (output_width =? width) || negb (output_height =? height)
          then Some (-1, img_out)
          else
            let img_cb := Z.to_nat (uint (output_width * output_height)) in
            let img_cr := (img_cb + Z.to_nat (uint (output_width * output_height) / 4))%nat in
            r ← read_rows c output_width (Z.to_nat output_height) 0 warning_seen
                  (Planes img_out 0 img_cb img_cr 0);
            match r with
            | Rows_fatal img' => Some (-1, img')
            | Rows_done warning_seen p =>
                let warning_seen :=
                  emit_all warning_seen (call_msgs (finish_decompress c)) in
                match call_result (finish_decompress c) with
                | None => Some (-1, mem p)
                | Some _ => if warning_seen >? 2 then Some (-1, mem p) else Some (0, mem p)
                end
            end
      end
  end.

(** The messages of a decode that runs to its end. *)
Definition decode_msgs (c : codec) (output_height : Z) : list jpeg_message :=
  call_msgs (read_header c) ++ call_msgs (start_decompress c) ++
  concat (map (fun k => call_msgs (read_scanlines c k))
            (seq 0 (Z.to_nat output_height))) ++
  call_msgs (finish_decompress c).

Definition warnings (msgs : list jpeg_message) : Z :=
  Z.of_nat (length (filter (fun m => counted m = true) msgs)).

End Decode.

(** A codec that decodes a 2x2 image and warns of corrupt data [n] times
    while it reads the header; message code 1 is not the code passed for
    [JWRN_EXTRANEOUS_DATA] below. *)
Definition warning_codec (n : nat) : codec :=
  Codec (Codec_call (replicate n (Jpeg_message 1 (-1))) (Some tt))
    (Codec_call [] (Some (2, 2)))
    (fun _ => Codec_call [] (Some [16; 128; 129; 17; 130; 131]))
    (Codec_call [] (Some tt)).

(** * The encoder's row grouping: [jpgutl_put_yuv420p]

    The loop that fills the row pointers [y], [cb] and [cr] handed to
    [jpeg_write_raw_data].  A row pointer is null, or [input_image] plus an
    offset, or what an array that was never assigned happens to hold. *)

Inductive JSAMPROW :=
| Row_null
| Row_at (offset : Z)
| Row_indeterminate.

(** [JSAMPROW y[16], cb[16], cr[16]] *)
Record row_arrays := Row_arrays {
  y : list JSAMPROW;
  cb : list JSAMPROW;
  cr : list JSAMPROW
}.

Definition unassigned_arrays : row_arrays :=
  Row_arrays (replicate 16 Row_indeterminate) (replicate 16 Row_indeterminate)
    (replicate 16 Row_indeterminate).

(** The body of [for (i = 0; i < 16; i++)]; [int] arithmetic, with the
    division and remainder of C. *)
Definition group_row (width height j : Z) (a : row_arrays) (i : Z) : row_arrays :=
  if width * (i + j) <? width * height then
    let y1 := <[Z.to_nat i := Row_at (width * (i + j))]> (y a) in
    if Z.rem i 2 =? 0 then
      Row_arrays y1
        (<[Z.to_nat (Z.quot i 2) :=
             Row_at (width * height + Z.quot width 2 * Z.quot (i + j) 2)]> (cb a))
        (<[Z.to_nat (Z.quot i 2) :=
             Row_at (width * height + Z.quot (width * height) 4
                     + Z.quot width 2 * Z.quot (i + j) 2)]> (cr a))
    else Row_arrays y1 (cb a) (cr a)
  else
    Row_arrays (<[Z.to_nat i := Row_null]> (y a))
      (<[Z.to_nat i := Row_null]> (cb a))
      (<[Z.to_nat i := Row_null]> (cr a)).

(** [for (j = 0; j < height; j += 16)]: the arrays at each call of
    [jpeg_write_raw_data].  The arrays live across the groups. *)
Fixpoint row_groups (fuel : nat) (width height j : Z) (a : row_arrays)
  : list row_arrays :=
  match fuel with
  | O => []
  | S fuel' =>
      if j <? height then
        let a' := fold_left (group_row width height j)
                    (map Z.of_nat (seq 0 16)) a in
        a' :: row_groups fuel' width height (j + 16) a'
      else []
  end.

(** One unit of fuel for each line is more than the loop needs. *)
Definition jpgutl_put_yuv420p_rows (width height : Z) : list row_arrays :=
  row_groups (Z.to_nat height) width height 0 unassigned_arrays.

(** The luma rows of a group that lie past the image, and the chroma rows
    that go with them. *)
Definition padding_luma (height j : Z) : list nat :=
  filter (fun i => height <= Z.of_nat i + j) (seq 0 16).

Definition padding_chroma (height j : Z) : list nat :=
  filter (fun i => height <= 2 * Z.of_nat i + j) (seq 0 8).

(** * The layout of [struct ctx_exif_info]

    What [memset(exif_info, 0, sizeof(sizeof(ctx_exif_info)))] clears
    depends on the sizes of the platform; an [abi] gives them. *)

Record abi := Abi {
  sizeof_pointer : nat;
  sizeof_size_t : nat;
  sizeof_uint : nat;
  sizeof_tm : nat;
  alignof_tm : nat
}.

(** x86-64 Linux. *)
Definition lp64 : abi := Abi 8 8 4 56 8.

Record ctype := Ctype { c_size : nat; c_align : nat }.

Definition align_up (off al : nat) : nat := ((off + al - 1) / al * al)%nat.

(** The offsets of the members of a struct, from [off] on. *)
Fixpoint layout (off : nat) (ms : list ctype) : list nat :=
  match ms with
  | [] => []
  | m :: ms' =>
      let o := align_up off (c_align m) in
      o :: layout (o + c_size m) ms'
  end.

Fixpoint layout_end (off : nat) (ms : list ctype) : nat :=
  match ms with
  | [] => off
  | m :: ms' => layout_end (align_up off (c_align m) + c_size m) ms'
  end.

Definition struct_type (ms : list ctype) : ctype :=
  let al := foldr (fun m => Nat.max (c_align m)) 1%nat ms in
  Ctype (align_up (layout_end 0 ms) al) al.

Definition t_pointer (a : abi) : ctype := Ctype (sizeof_pointer a) (sizeof_pointer a).
Definition t_uint (a : abi) : ctype := Ctype (sizeof_uint a) (sizeof_uint a).
Definition t_tm (a : abi) : ctype := Ctype (sizeof_tm a) (alignof_tm a).

(** [struct tiff_writing { JOCTET *base; JOCTET *buf; uint data_offset; }] *)
Definition t_tiff_writing (a : abi) : ctype :=
  struct_type [t_pointer a; t_pointer a; t_uint a].

Inductive exif_member :=
| M_cam | M_ts_in1 | M_box | M_timestamp_tm | M_description | M_datetime
| M_subtime | M_ifd0_tagcount | M_ifd1_tagcount | M_datasize | M_ifds_size
| M_writing.

Definition member_index (m : exif_member) : nat :=
  match m with
  | M_cam => 0 | M_ts_in1 => 1 | M_box => 2 | M_timestamp_tm => 3
  | M_description => 4 | M_datetime => 5 | M_subtime => 6
  | M_ifd0_tagcount => 7 | M_ifd1_tagcount => 8 | M_datasize => 9
  | M_ifds_size => 10 | M_writing => 11
  end.

(** The members of [struct ctx_exif_info], in the order of the source. *)
Definition ctx_exif_info_members (a : abi) : list ctype :=
  [t_pointer a; t_pointer a; t_pointer a; t_tm a;
   t_pointer a; t_pointer a; t_pointer a;
   t_uint a; t_uint a; t_uint a; t_uint a;
   t_tiff_writing a].

Definition offsetof (a : abi) (m : exif_member) : nat :=
  nth (member_index m) (layout 0 (ctx_exif_info_members a)) 0%nat.

Definition sizeof_ctx_exif_info (a : abi) : nat :=
  c_size (struct_type (ctx_exif_info_members a)).

Definition counter_members : list exif_member :=
  [M_ifd0_tagcount; M_ifd1_tagcount; M_datasize; M_ifds_size].

(** The bytes of a [uint] member in the block of the struct. *)
Definition member_bytes (a : abi) (m : exif_member) (b : block) : list Z :=
  take (sizeof_uint a) (drop (offsetof a m) b).

(** [memset(exif_info, 0, sizeof(sizeof(ctx_exif_info)))]: the operand of
    the outer [sizeof] has type [size_t]. *)
Definition jpgutl_exif_memset (a : abi) (b : block) : option block :=
  memcpy 0 (replicate (sizeof_size_t a) 0) b.

Definition abi_ok (a : abi) : Prop :=
  (0 < sizeof_pointer a /\ 0 < sizeof_uint a /\ 0 < alignof_tm a /\
   sizeof_size_t a <= sizeof_pointer a)%nat.

(** * The planes that a decode leaves

    The stores of the demultiplexer, pixel by pixel and line by line, as
    folds over the columns and the lines. *)

(** What the body of the loop over the samples stores for the pixel [c]
    of a line, [y], [cb] and [cr] being the three pointers. *)
Definition demux_col (wline : list Z) (y cb cr : nat) (m : gmap nat Z) (c : nat)
  : gmap nat Z :=
  let m1 := <[(y + c)%nat := nth (3 * c) wline 0]> m in
  if Nat.even c then m1
  else <[(cr + c / 2)%nat := nth (3 * c + 2) wline 0]>
         (<[(cb + c / 2)%nat := nth (3 * c + 1) wline 0]> m1).

Definition demux_cols (wline : list Z) (y cb cr : nat) (cols : list nat)
    (m : gmap nat Z) : gmap nat Z :=
  fold_left (demux_col wline y cb cr) cols m.

(** The line [r] of an image [w] pixels wide: luma to the row [r], chroma
    to the row [r / 2] of the planes at [cb] and [cr]. *)
Definition demux_row (lines : nat -> list Z) (w cb cr : nat) (m : gmap nat Z)
    (r : nat) : gmap nat Z :=
  demux_cols (lines r) (r * w) (cb + r / 2 * (w / 2)) (cr + r / 2 * (w / 2))
    (seq 0 w) m.

Definition demux_rows (lines : nat -> list Z) (w cb cr : nat) (rows : list nat)
    (m : gmap nat Z) : gmap nat Z :=
  fold_left (demux_row lines w cb cr) rows m.

(** The samples of the [k]-th line that the codec delivers. *)
Definition scanline (c : codec) (k : nat) : list Z :=
  default [] (call_result (read_scanlines c k)).

(** The bytes behind [img_out] when the loop over the scanlines ends. *)
Definition rows_mem (r : rows_end) : gmap nat Z :=
  match r with
  | Rows_fatal img' => img'
  | Rows_done _ p => mem p
  end.

(** A codec that decodes a 4x2 image without any message. *)
Definition gradient_codec : codec :=
  Codec (Codec_call [] (Some tt)) (Codec_call [] (Some (4, 2)))
    (fun k => Codec_call []
       (Some (map (fun i => Z.of_nat (100 * k + i)) (seq 0 12))))
    (Codec_call [] (Some tt)).

(** The bytes that decoding [gradient_codec] leaves behind an empty
    [img_out]. *)
Definition gradient_planes : gmap nat Z :=
  match jpgutl_decode_jpeg 119 gradient_codec 4 2 ∅ with
  | Some (_, img') => img'
  | None => ∅
  end.

(** A codec whose every call warns [n] times of extraneous data, the one
    message that [jpgutl_emit_message] does not count (code 119 is passed
    for [JWRN_EXTRANEOUS_DATA] below). *)
Definition extraneous_codec (n : nat) : codec :=
  Codec (Codec_call (replicate n (Jpeg_message 119 (-1))) (Some tt))
    (Codec_call (replicate n (Jpeg_message 119 (-1))) (Some (2, 2)))
    (fun _ => Codec_call (replicate n (Jpeg_message 119 (-1)))
                (Some [16; 128; 129; 17; 130; 131]))
    (Codec_call (replicate n (Jpeg_message 119 (-1))) (Some tt)).

(** A cursor into a block of forty bytes, the entry at 14 and the data
    offset at 17, not a multiple of four. *)
Definition sample_writing : tiff_writing :=
  Tiff_writing (replicate 40 0xAA) 6 14 17.

(** A camera configured with the description "hi". *)
Definition hi_camera : cls_camera := Cls_camera [104; 105].

(** The marker that [jpgutl_exif] returns for [hi_camera], no timestamp
    passed, and the region [sample_box]. *)
Definition boxed_marker : block :=
  Eval vm_compute in
    match jpgutl_exif sample_world zeroed_info hi_camera None (Some sample_box) with
    | Some (_, Some m) => m
    | _ => []
    end.

(** * The row groups of an image of full groups *)


(** * Decimal fields *)

(** The ASCII digits of [v] in a field of two and of four places. *)
Definition dec2 (v : Z) : list Z := [48 + v / 10; 48 + v mod 10].

Definition dec4 (v : Z) : list Z :=
  [48 + v / 1000; 48 + v / 100 mod 10; 48 + v / 10 mod 10; 48 + v mod 10].

(** The characters of ["YYYY:MM:DD HH:MM:SS"] for a broken-down time. *)
Definition exif_datetime (t : tm) : cstring :=
  dec4 (tm_year t + 1900) ++ [58] ++ dec2 (tm_mon t + 1) ++ [58] ++
  dec2 (tm_mday t) ++ [32] ++ dec2 (tm_hour t) ++ [58] ++
  dec2 (tm_min t) ++ [58] ++ dec2 (tm_sec t).

(** A value as [put_uint16] stores it. *)
Definition uint16 (v : Z) : Z := v mod 2 ^ 16.

(** * The source manager

    [jpgutl_buffer_src] hands the whole JPEG buffer to the library; the
    library then consumes bytes by moving [next_input_byte] on and
    counting [bytes_in_buffer] down, and calls [skip_input_data] and
    [fill_input_buffer].  A pointer is an object and an offset into it:
    the JPEG buffer of the caller, or the two bytes of [EOI_data]. *)

Definition EOI_data : list Z := [0xFF; 0xD9].

Inductive input_ptr :=
| In_buffer (offset : Z)
| In_EOI_data (offset : Z).

Definition ptr_add (p : input_ptr) (n : Z) : input_ptr :=
  match p with
  | In_buffer o => In_buffer (o + n)
  | In_EOI_data o => In_EOI_data (o + n)
  end.

(** The two members of [struct jpeg_source_mgr] that change. *)
Record jpeg_source_mgr := Jpeg_source_mgr {
  next_input_byte : input_ptr;
  bytes_in_buffer : Z
}.

Section Managers.

(** The widths in bits of [long] and of [size_t]. *)
Variables long_bits size_t_bits : Z.

(** The casts [(long) v] and [(size_t) v]. *)
Definition to_long (v : Z) : Z :=
  let r := v mod 2 ^ long_bits in
  if r <? 2 ^ (long_bits - 1) then r else r - 2 ^ long_bits.

Definition to_size_t (v : Z) : Z := v mod 2 ^ size_t_bits.

Definition jpgutl_buffer_src (buffer_len : Z) : jpeg_source_mgr :=
  Jpeg_source_mgr (In_buffer 0) (to_size_t buffer_len).

Definition jpgutl_fill_input_buffer (src : jpeg_source_mgr)
  : jpeg_source_mgr * bool :=
  (Jpeg_source_mgr (In_EOI_data 0) 2, true).

Definition jpgutl_skip_data (src : jpeg_source_mgr) (num_bytes : Z)
  : jpeg_source_mgr :=
  if num_bytes >? 0 then
    let num_bytes :=
      if num_bytes >? to_long (bytes_in_buffer src)
      then to_long (bytes_in_buffer src)
      else num_bytes in
    Jpeg_source_mgr
      (ptr_add (next_input_byte src) (to_size_t num_bytes))
      (to_size_t (bytes_in_buffer src - to_size_t num_bytes))
  else src.

(** What the library does with a source: it reads [n] bytes that are
    there, skips [n] bytes, or asks for more when none is left. *)
Inductive src_step :=
| Src_read (n : Z)
| Src_skip (num_bytes : Z)
| Src_fill.

Definition src_run (src : jpeg_source_mgr) (s : src_step) : jpeg_source_mgr :=
  match s with
  | Src_read n =>
      if (0 <=? n) && (n <=? bytes_in_buffer src)
      then Jpeg_source_mgr (ptr_add (next_input_byte src) n)
             (bytes_in_buffer src - n)
      else src
  | Src_skip num_bytes => jpgutl_skip_data src num_bytes
  | Src_fill => fst (jpgutl_fill_input_buffer src)
  end.

(** The bytes of the object that [next_input_byte] points into. *)
Definition src_room (buffer_len : Z) (p : input_ptr) : Z :=
  match p with
  | In_buffer _ => buffer_len
  | In_EOI_data _ => Z.of_nat (length EOI_data)
  end.

Definition ptr_offset (p : input_ptr) : Z :=
  match p with In_buffer o => o | In_EOI_data o => o end.

(** * The destination manager *)

(** [mem_destination_mgr]: [next_output_byte] as an offset from [buf]. *)
Record mem_destination_mgr := Mem_destination_mgr {
  next_output_byte : Z;
  free_in_buffer : Z;
  bufsize : Z;
  jpegsize : Z
}.

Definition _jpeg_mem_dest (dest : mem_destination_mgr) (size : Z)
  : mem_destination_mgr :=
  Mem_destination_mgr (next_output_byte dest) (free_in_buffer dest) size 0.

Definition init_destination (dest : mem_destination_mgr) : mem_destination_mgr :=
  Mem_destination_mgr 0 (bufsize dest) (bufsize dest) 0.

(** The [ERREXIT] after the [return] is never reached. *)
Definition empty_output_buffer (dest : mem_destination_mgr)
  : mem_destination_mgr * bool :=
  (Mem_destination_mgr 0 (bufsize dest) (bufsize dest) (jpegsize dest), false).

Definition term_destination (dest : mem_destination_mgr) : mem_destination_mgr :=
  Mem_destination_mgr (next_output_byte dest) (free_in_buffer dest)
    (bufsize dest) (to_size_t (bufsize dest - free_in_buffer dest)).

(** What the library does with a destination: it writes [n] bytes into
    the room that is left, or has the buffer emptied. *)
Inductive dest_step :=
| Dest_write (n : Z)
| Dest_empty.

Definition dest_run (dest : mem_destination_mgr) (s : dest_step)
  : mem_destination_mgr :=
  match s with
  | Dest_write n =>
      if (0 <=? n) && (n <=? free_in_buffer dest)
      then Mem_destination_mgr (next_output_byte dest + n)
             (free_in_buffer dest - n) (bufsize dest) (jpegsize dest)
      else dest
  | Dest_empty => fst (empty_output_buffer dest)
  end.

(** The bytes written since the buffer was last emptied. *)
Fixpoint written_since_empty (steps : list dest_step) (room acc : Z) : Z :=
  match steps with
  | [] => acc
  | Dest_write n :: steps =>
      if (0 <=? n) && (n <=? room - acc)
      then written_since_empty steps room (acc + n)
      else written_since_empty steps room acc
  | Dest_empty :: steps => written_since_empty steps room 0
  end.

End Managers.

(** * The standard Huffman tables

    [add_huff_table] installs a table in a slot of the decompressor;
    [std_huff_tables] installs the four tables of section K.3 of the JPEG
    standard, and [guarantee_huff_tables] does so when no slot holds a
    table. *)

(** [JHUFF_TBL]: [bits[17]] and [huffval[256]]. *)
Record JHUFF_TBL := Jhuff_tbl {
  bits : list Z;
  huffval : list Z
}.

Definition bits_dc_luminance : list Z :=
  [0; 0; 1; 5; 1; 1; 1; 1; 1; 1; 0; 0; 0; 0; 0; 0; 0].

Definition val_dc_luminance : list Z :=
  [0; 1; 2; 3; 4; 5; 6; 7; 8; 9; 10; 11].

Definition bits_dc_chrominance : list Z :=
  [0; 0; 3; 1; 1; 1; 1; 1; 1; 1; 1; 1; 0; 0; 0; 0; 0].

Definition val_dc_chrominance : list Z :=
  [0; 1; 2; 3; 4; 5; 6; 7; 8; 9; 10; 11].

Definition bits_ac_luminance : list Z :=
  [0; 0; 2; 1; 3; 3; 2; 4; 3; 5; 5; 4; 4; 0; 0; 1; 0x7d].

Definition val_ac_luminance : list Z :=
  [0x01; 0x02; 0x03; 0x00; 0x04; 0x11; 0x05; 0x12; 0x21; 0x31; 0x41; 0x06;
   0x13; 0x51; 0x61; 0x07; 0x22; 0x71; 0x14; 0x32; 0x81; 0x91; 0xa1; 0x08;
   0x23; 0x42; 0xb1; 0xc1; 0x15; 0x52; 0xd1; 0xf0; 0x24; 0x33; 0x62; 0x72;
   0x82; 0x09; 0x0a; 0x16; 0x17; 0x18; 0x19; 0x1a; 0x25; 0x26; 0x27; 0x28;
   0x29; 0x2a; 0x34; 0x35; 0x36; 0x37; 0x38; 0x39; 0x3a; 0x43; 0x44; 0x45;
   0x46; 0x47; 0x48; 0x49; 0x4a; 0x53; 0x54; 0x55; 0x56; 0x57; 0x58; 0x59;
   0x5a; 0x63; 0x64; 0x65; 0x66; 0x67; 0x68; 0x69; 0x6a; 0x73; 0x74; 0x75;
   0x76; 0x77; 0x78; 0x79; 0x7a; 0x83; 0x84; 0x85; 0x86; 0x87; 0x88; 0x89;
   0x8a; 0x92; 0x93; 0x94; 0x95; 0x96; 0x97; 0x98; 0x99; 0x9a; 0xa2; 0xa3;
   0xa4; 0xa5; 0xa6; 0xa7; 0xa8; 0xa9; 0xaa; 0xb2; 0xb3; 0xb4; 0xb5; 0xb6;
   0xb7; 0xb8; 0xb9; 0xba; 0xc2; 0xc3; 0xc4; 0xc5; 0xc6; 0xc7; 0xc8; 0xc9;
   0xca; 0xd2; 0xd3; 0xd4; 0xd5; 0xd6; 0xd7; 0xd8; 0xd9; 0xda; 0xe1; 0xe2;
   0xe3; 0xe4; 0xe5; 0xe6; 0xe7; 0xe8; 0xe9; 0xea; 0xf1; 0xf2; 0xf3; 0xf4;
   0xf5; 0xf6; 0xf7; 0xf8; 0xf9; 0xfa].

Definition bits_ac_chrominance : list Z :=
  [0; 0; 2; 1; 2; 4; 4; 3; 4; 7; 5; 4; 4; 0; 1; 2; 0x77].

Definition val_ac_chrominance : list Z :=
  [0x00; 0x01; 0x02; 0x03; 0x11; 0x04; 0x05; 0x21; 0x31; 0x06; 0x12; 0x41;
   0x51; 0x07; 0x61; 0x71; 0x13; 0x22; 0x32; 0x81; 0x08; 0x14; 0x42; 0x91;
   0xa1; 0xb1; 0xc1; 0x09; 0x23; 0x33; 0x52; 0xf0; 0x15; 0x62; 0x72; 0xd1;
   0x0a; 0x16; 0x24; 0x34; 0xe1; 0x25; 0xf1; 0x17; 0x18; 0x19; 0x1a; 0x26;
   0x27; 0x28; 0x29; 0x2a; 0x35; 0x36; 0x37; 0x38; 0x39; 0x3a; 0x43; 0x44;
   0x45; 0x46; 0x47; 0x48; 0x49; 0x4a; 0x53; 0x54; 0x55; 0x56; 0x57; 0x58;
   0x59; 0x5a; 0x63; 0x64; 0x65; 0x66; 0x67; 0x68; 0x69; 0x6a; 0x73; 0x74;
   0x75; 0x76; 0x77; 0x78; 0x79; 0x7a; 0x82; 0x83; 0x84; 0x85; 0x86; 0x87;
   0x88; 0x89; 0x8a; 0x92; 0x93; 0x94; 0x95; 0x96; 0x97; 0x98; 0x99; 0x9a;
   0xa2; 0xa3; 0xa4; 0xa5; 0xa6; 0xa7; 0xa8; 0xa9; 0xaa; 0xb2; 0xb3; 0xb4;
   0xb5; 0xb6; 0xb7; 0xb8; 0xb9; 0xba; 0xc2; 0xc3; 0xc4; 0xc5; 0xc6; 0xc7;
   0xc8; 0xc9; 0xca; 0xd2; 0xd3; 0xd4; 0xd5; 0xd6; 0xd7; 0xd8; 0xd9; 0xda;
   0xe2; 0xe3; 0xe4; 0xe5; 0xe6; 0xe7; 0xe8; 0xe9; 0xea; 0xf2; 0xf3; 0xf4;
   0xf5; 0xf6; 0xf7; 0xf8; 0xf9; 0xfa].

(** [nsymbols]: the sum of [bits[1]] to [bits[16]]. *)
Definition nsymbols (bits : list Z) : Z :=
  fold_left Z.add (take 16 (drop 1 bits)) 0.

(** [add_huff_table].  [fresh] is the table that [jpeg_alloc_huff_table]
    returns for an empty slot.  The result is the table left in the slot
    and whether the error was logged; a copy that leaves [huffval] or
    reads past [val] is [None]. *)
Definition add_huff_table (fresh : JHUFF_TBL) (slot : option JHUFF_TBL)
    (bits_in val : list Z) : option (JHUFF_TBL * bool) :=
  let tbl := match slot with Some t => t | None => fresh end in
  b ← memcpy 0 (take 17 bits_in) (bits tbl);
  let n := nsymbols bits_in in
  let logged := (n <? 1) || (n >? 256) in
  if decide (Z.to_nat (uint n) <= length val)%nat then
    h ← memcpy 0 (take (Z.to_nat (uint n)) val) (huffval tbl);
    Some (Jhuff_tbl b h, logged)
  else None.

(** The four slots that the decoder uses: [dc_huff_tbl_ptrs[0..1]] and
    [ac_huff_tbl_ptrs[0..1]]. *)
Record huff_slots := Huff_slots {
  dc0 : option JHUFF_TBL;
  dc1 : option JHUFF_TBL;
  ac0 : option JHUFF_TBL;
  ac1 : option JHUFF_TBL
}.

(** [std_huff_tables]: the slots afterwards, and the errors logged. *)
Definition std_huff_tables (fresh : JHUFF_TBL) (s : huff_slots)
  : option (huff_slots * list bool) :=
  r1 ← add_huff_table fresh (dc0 s) bits_dc_luminance val_dc_luminance;
  r2 ← add_huff_table fresh (ac0 s) bits_ac_luminance val_ac_luminance;
  r3 ← add_huff_table fresh (dc1 s) bits_dc_chrominance val_dc_chrominance;
  r4 ← add_huff_table fresh (ac1 s) bits_ac_chrominance val_ac_chrominance;
  Some (Huff_slots (Some r1.1) (Some r3.1) (Some r2.1) (Some r4.1),
        [r1.2; r2.2; r3.2; r4.2]).

Definition guarantee_huff_tables (fresh : JHUFF_TBL) (s : huff_slots)
  : option (huff_slots * list bool) :=
  match dc0 s, dc1 s, ac0 s, ac1 s with
  | None, None, None, None => std_huff_tables fresh s
  | _, _, _, _ => Some (s, [])
  end.

(** * A codec that hands back what it is given

    A stand-in for compression followed by decompression: the line [r]
    that it delivers holds, for each pixel, the luma sample found through
    the row pointer [y[r mod 16]] of the group [r / 16] and the chroma
    samples found through [cb] and [cr] at half the row and half the
    column, read from the frame [input] that the pointers point into. *)



Lemma uint_small v : 0 <= v < 2 ^ 32 -> uint v = v.
Proof. unfold uint. lia. Qed.

Lemma store_memcpy p v m : store p v m = memcpy p [v] m.
Proof.
  unfold store, memcpy. cbn [length].
  repeat case_decide; try lia. all: try done.
  f_equal. rewrite insert_take_drop by done. f_equal. f_equal. f_equal. lia.
Qed.

Lemma length_memcpy p bs m m' : memcpy p bs m = Some m' -> length m' = length m.
Proof.
  unfold memcpy. case_decide; [|done]. intros [= <-].
  rewrite !length_app, length_take, length_drop. lia.
Qed.

Lemma memcpy_app p a b m :
  (m1 ← memcpy p a m; memcpy (p + length a) b m1) = memcpy p (a ++ b) m.
Proof.
  destruct (memcpy p a m) as [m1|] eqn:Ha; cbn.
  - pose proof (length_memcpy _ _ _ _ Ha) as Hl.
    unfold memcpy in *. rewrite length_app, Hl.
    case_decide; [|done]. injection Ha as <-.
    repeat case_decide; try lia; [|done]. f_equal.
    rewrite (app_assoc (take p m)).
    rewrite take_app_length' by (rewrite length_app, length_take; lia).
    rewrite drop_app_ge by (rewrite length_app, length_take; lia).
    rewrite drop_drop. rewrite <- !app_assoc. do 3 f_equal.
    rewrite length_app, length_take. f_equal. lia.
  - unfold memcpy in *. rewrite length_app. repeat case_decide; try done; lia.
Qed.

Lemma put_uint16_memcpy p v m : put_uint16 p v m = memcpy p (be16 v) m.
Proof.
  etransitivity; [|exact (memcpy_app p [_] [_] m)].
  unfold put_uint16. rewrite store_memcpy.
  destruct (memcpy p _ m); cbn; [apply store_memcpy | done].
Qed.

Lemma put_sint16_memcpy p v m : put_sint16 p v m = memcpy p (be16 v) m.
Proof. apply put_uint16_memcpy. Qed.

Lemma put_uint32_memcpy p v m : put_uint32 p v m = memcpy p (be32 v) m.
Proof.
  etransitivity; [|exact (memcpy_app p [_] [_; _; _] m)].
  unfold put_uint32. rewrite store_memcpy.
  destruct (memcpy p _ m) as [m1|]; [|done]. cbn [mbind option_bind length].
  etransitivity; [|exact (memcpy_app (p + 1) [_] [_; _] m1)].
  rewrite store_memcpy.
  destruct (memcpy (p + 1) _ m1) as [m2|]; [|done]. cbn [mbind option_bind length].
  etransitivity; [|exact (memcpy_app (p + 1 + 1) [_] [_] m2)].
  rewrite !store_memcpy.
  replace (p + 1 + 1)%nat with (p + 2)%nat by lia.
  destruct (memcpy (p + 2) _ m2) as [m3|]; [|done]. cbn [mbind option_bind length].
  replace (p + 2 + 1)%nat with (p + 3)%nat by lia. apply store_memcpy.
Qed.

(** ** The two streams of a marker

While a marker is serialized, the bytes before [buf] (the directory
    stream) and the bytes between the end of the directories and
    [base + data_offset] (the out-of-line stream) only grow.  [image]
    overlays both streams on the fresh block [mid ++ tail], [mid] being the
    part reserved for header and directories. *)

Lemma length_be16 v : length (be16 v) = 2%nat.
Proof. done. Qed.

Lemma length_be32 v : length (be32 v) = 4%nat.
Proof. done. Qed.

Lemma memcpy_mid (A B C bs : list Z) p :
  p = length A -> length bs = length B ->
  memcpy p bs (A ++ B ++ C) = Some (A ++ bs ++ C).
Proof.
  intros -> Hl. unfold memcpy. rewrite !length_app.
  case_decide; [|lia]. f_equal.
  rewrite take_app_length. do 2 f_equal.
  rewrite drop_app_ge by lia. rewrite drop_app_ge by lia.
  replace (_ - _ - _)%nat with 0%nat by lia. done.
Qed.

Lemma memcpy_dir mid tail i bs p :
  p = length i.1 -> (length i.1 + length bs <= length mid)%nat ->
  memcpy p bs (image mid tail i) = Some (image mid tail (img_bytes bs i)).
Proof.
  destruct i as [d o]. intros -> Hl. unfold image, img_bytes. cbn [fst snd] in *.
  rewrite <- (take_drop (length bs) (drop (length d) mid)).
  rewrite <- !app_assoc, memcpy_mid; [|done|rewrite length_take, length_drop; lia].
  rewrite drop_drop, length_app. done.
Qed.

Lemma memcpy_dir_over mid tail i d1 old d2 bs p :
  i.1 = d1 ++ old ++ d2 -> p = length d1 -> length bs = length old ->
  memcpy p bs (image mid tail i)
  = Some (image mid tail (d1 ++ bs ++ d2, i.2)).
Proof.
  destruct i as [d o]. cbn [fst snd].
  intros -> -> Hl. unfold image. cbn [fst snd].
  rewrite <- !app_assoc, memcpy_mid by done.
  rewrite !length_app, Hl. done.
Qed.

Lemma memcpy_ool mid tail i bs q :
  q = (length mid + length i.2)%nat -> (length i.1 <= length mid)%nat ->
  (length i.2 + length bs <= length tail)%nat ->
  memcpy q bs (image mid tail i) = Some (image mid tail (img_ool bs i)).
Proof.
  destruct i as [d o]. intros -> Hd Hl. unfold image, img_ool. cbn [fst snd] in *.
  rewrite <- (take_drop (length bs) (drop (length o) tail)).
  rewrite !app_assoc. rewrite <- (app_assoc _ (take _ _)).
  rewrite memcpy_mid;
    [|rewrite !length_app, length_drop; lia|rewrite length_take, length_drop; lia].
  rewrite drop_drop, length_app, <- !app_assoc. done.
Qed.

Lemma memcpy_nil p m : (p <= length m)%nat -> memcpy p [] m = Some m.
Proof.
  intros. unfold memcpy. cbn [length app]. case_decide; [|lia].
  rewrite Nat.add_0_r, take_drop. done.
Qed.

Lemma memcpy_bound p bs m m' :
  memcpy p bs m = Some m' -> (p + length bs <= length m)%nat.
Proof. unfold memcpy. case_decide; done. Qed.

Lemma land_3 v : Z.land v 0x03 = v mod 4.
Proof. exact (Z.land_ones v 2 ltac:(lia)). Qed.

(** The alignment loop pads with [(- offset) mod 4] zero bytes. *)
Lemma align_loop_spec fuel b offset m :
  0 <= offset -> offset + (- offset) mod 4 < 2 ^ 32 ->
  (- offset) mod 4 <= Z.of_nat fuel ->
  (b + Z.to_nat offset <= length m)%nat ->
  align_loop fuel b offset m =
  (m' ← memcpy (b + Z.to_nat offset) (replicate (Z.to_nat ((- offset) mod 4)) 0) m;
   Some (offset + (- offset) mod 4, m')).
Proof.
  revert offset m. induction fuel as [|fuel IH]; intros offset m H0 H1 Hf Hb;
    cbn [align_loop]; rewrite land_3; destruct (Z.eqb_spec (offset mod 4) 0) as [He|He].
  - replace ((- offset) mod 4) with 0 by lia.
    rewrite memcpy_nil by done. cbn. rewrite Z.add_0_r. done.
  - lia.
  - replace ((- offset) mod 4) with 0 by lia.
    rewrite memcpy_nil by done. cbn. rewrite Z.add_0_r. done.
  - replace (Z.to_nat ((- offset) mod 4))
      with (S (Z.to_nat ((- (offset + 1)) mod 4))) by lia.
    cbn [replicate].
    etransitivity;
      [|apply (f_equal (fun o => o ≫= _)); exact (memcpy_app _ [0] _ m)].
    rewrite store_memcpy.
    destruct (memcpy (b + Z.to_nat offset) [0] m) as [m1|] eqn:Hm1; [|done].
    cbn [mbind option_bind].
    pose proof (memcpy_bound _ _ _ _ Hm1) as Hb1. cbn [length] in Hb1.
    apply length_memcpy in Hm1.
    rewrite uint_small by lia. rewrite IH by lia.
    replace (b + Z.to_nat (offset + 1))%nat
      with (b + Z.to_nat offset + length [0])%nat by (cbn [length]; lia).
    destruct (memcpy _ _ m1); [|done]. cbn. do 2 f_equal. lia.
Qed.

Lemma length_str_data s b :
  length (str_data s b) = (length s + (if b then 1 else 0))%nat.
Proof. unfold str_data. rewrite length_app. by destruct b. Qed.

Lemma c_bytes_data s (b : bool) :
  c_bytes s (Z.of_nat (length (str_data s b))) = str_data s b.
Proof.
  unfold c_bytes, str_data. rewrite Nat2Z.id, length_app.
  destruct b; cbn [length].
  - by rewrite take_ge by (rewrite length_app; cbn; lia).
  - by rewrite Nat.add_0_r, take_app_length, app_nil_r.
Qed.

Lemma img_bytes_dir bs i : length (img_bytes bs i).1 = (length i.1 + length bs)%nat.
Proof. unfold img_bytes. cbn [fst]. by rewrite length_app. Qed.

Lemma img_bytes_ool bs i : (img_bytes bs i).2 = i.2.
Proof. done. Qed.

Lemma img_ool_dir bs i : (img_ool bs i).1 = i.1.
Proof. done. Qed.

Lemma img_ool_ool bs i : length (img_ool bs i).2 = (length i.2 + length bs)%nat.
Proof. unfold img_ool. cbn [snd]. by rewrite length_app. Qed.

Create Rewrite HintDb len.
#[local] Hint Rewrite @length_app length_be16 length_be32 @length_replicate
  @length_drop @length_take length_str_data
  img_bytes_dir img_bytes_ool img_ool_dir img_ool_ool : len.

Ltac len :=
  cbn [fst snd] in *; autorewrite with len in *; cbn [length fst snd] in *; lia.

Lemma on_marker_Some f into m' :
  f (marker into) = Some m' ->
  on_marker f into = Some (Tiff_writing m' (base into) (buf into) (data_offset into)).
Proof. unfold on_marker. by intros ->. Qed.

Lemma seqw_Some (f g : writer) into into' :
  f into = Some into' -> (f >> g) into = g into'.
Proof. unfold seqw. by intros ->. Qed.

Ltac marker_write lem :=
  apply on_marker_Some; cbn [marker buf base data_offset];
  rewrite ?put_uint16_memcpy, ?put_sint16_memcpy, ?put_uint32_memcpy;
  apply lem; len.

Ltac wnext tac :=
  erewrite seqw_Some by tac; cbn [marker buf base data_offset].

Ltac wdir := wnext ltac:(marker_write memcpy_dir).
Ltac wadvance := wnext ltac:(reflexivity).

Ltac img_eq :=
  unfold img_bytes, img_ool; cbn [fst snd]; rewrite <- ?app_assoc; reflexivity.

Lemma put_direntry_inline mid tail i b off s with_nul :
  Z.of_nat (length (str_data s with_nul)) <= 4 ->
  b = length i.1 -> (length i.1 + 4 <= length mid)%nat ->
  put_direntry s (Z.of_nat (length (str_data s with_nul)))
    (Tiff_writing (image mid tail i) 6 b off)
  = Some (Tiff_writing
            (image mid tail
               (img_bytes (str_data s with_nul ++
                           replicate (4 - length (str_data s with_nul)) 0) i))
            6 b off).
Proof.
  intros Hn -> Hd. unfold put_direntry.
  destruct (Z.leb_spec (Z.of_nat (length (str_data s with_nul))) 4); [|lia].
  cbn [buf]. wdir. rewrite c_bytes_data.
  apply on_marker_Some. cbn [marker].
  erewrite (memcpy_dir_over _ _ _ i.1 (replicate (length (str_data s with_nul)) 0)
           (replicate (4 - length (str_data s with_nul)) 0));
    [img_eq| |done|len].
  unfold img_bytes. cbn [fst]. rewrite <- replicate_add. do 2 f_equal. lia.
Qed.

Lemma put_direntry_ool mid tail i b off s with_nul :
  4 < Z.of_nat (length (str_data s with_nul)) ->
  b = length i.1 -> off = Z.of_nat (length mid + length i.2) - 6 ->
  (6 <= length mid)%nat -> (length i.1 + 4 <= length mid)%nat ->
  (length i.2 + 3 + length (str_data s with_nul) <= length tail)%nat ->
  Z.of_nat (length mid + length tail) < 2 ^ 32 ->
  let pad := (- off) mod 4 in
  put_direntry s (Z.of_nat (length (str_data s with_nul)))
    (Tiff_writing (image mid tail i) 6 b off)
  = Some (Tiff_writing
            (image mid tail
               (img_ool (replicate (Z.to_nat pad) 0 ++ str_data s with_nul)
                  (img_bytes (be32 (off + pad)) i)))
            6 b (off + pad + Z.of_nat (length (str_data s with_nul)))).
Proof.
  intros Hn -> -> HE Hd Ho HN pad. unfold put_direntry.
  destruct (Z.leb_spec (Z.of_nat (length (str_data s with_nul))) 4); [lia|].
  cbn [base data_offset marker buf].
  rewrite align_loop_spec; [|lia|lia|lia|unfold image; len].
  erewrite memcpy_ool; [| lia | len | len ].
  cbn [mbind option_bind fst snd].
  rewrite put_uint32_memcpy.
  erewrite memcpy_dir; [| len | len].
  cbn [mbind option_bind]. rewrite c_bytes_data.
  erewrite memcpy_ool; [| len | len | len].
  cbn [mbind option_bind].
  f_equal. f_equal.
  - f_equal. img_eq.
  - rewrite uint_small by len. len.
Qed.

Lemma put_stringentry_img mid tail i b off tag s with_nul :
  b = length i.1 -> off = Z.of_nat (length mid + length i.2) - 6 ->
  (6 <= length mid)%nat ->
  (length i.1 + 12 <= length mid)%nat ->
  (length i.2 + 3 + length (str_data s with_nul) <= length tail)%nat ->
  Z.of_nat (length mid + length tail) < 2 ^ 32 ->
  put_stringentry tag s with_nul (Tiff_writing (image mid tail i) 6 b off)
  = Some (Tiff_writing
            (image mid tail (img_stringentry (length mid) tag s with_nul i))
            6 (b + 12)
            (Z.of_nat (length mid +
               length (img_stringentry (length mid) tag s with_nul i).2) - 6)).
Proof.
  intros -> -> HE Hd Ho HN.
  unfold put_stringentry, img_stringentry. cbn [buf].
  replace (uint (uint (strlen s) + (if with_nul then 1 else 0)))
    with (Z.of_nat (length (str_data s with_nul))).
  2:{ unfold strlen, uint. rewrite length_str_data in *. destruct with_nul; lia. }
  wdir. wdir. wdir. wadvance.
  destruct (Z.leb_spec (Z.of_nat (length (str_data s with_nul))) 4) as [Hn|Hn].
  - wnext ltac:(apply put_direntry_inline; len).
    unfold advance. cbn [marker buf base data_offset].
    f_equal. f_equal; [|lia]. f_equal. img_eq.
  - wnext ltac:(apply put_direntry_ool; len).
    unfold advance. cbn [marker buf base data_offset].
    f_equal. f_equal; [f_equal; img_eq|lia|len].
Qed.

Lemma img_stringentry_dir E tag s with_nul i :
  length (img_stringentry E tag s with_nul i).1 = (length i.1 + 12)%nat.
Proof.
  unfold img_stringentry.
  destruct (Z.leb_spec (Z.of_nat (length (str_data s with_nul))) 4);
    cbn [fst]; len.
Qed.

Lemma img_stringentry_ool E tag s with_nul i :
  (length i.2 <= length (img_stringentry E tag s with_nul i).2
   <= length i.2 + 3 + length (str_data s with_nul))%nat.
Proof.
  unfold img_stringentry.
  destruct (Z.leb_spec (Z.of_nat (length (str_data s with_nul))) 4);
    cbn [snd]; len.
Qed.

(** A string of one character or more takes strictly less out-of-line room
    than the five bytes more than its length that the inventory books. *)
Lemma img_stringentry_slack E tag s with_nul i :
  (length (img_stringentry E tag s with_nul i).2 < length i.2 + 5 + length s)%nat.
Proof.
  unfold img_stringentry.
  destruct (Z.leb_spec (Z.of_nat (length (str_data s with_nul))) 4);
    cbn [snd]; autorewrite with len; destruct with_nul; lia.
Qed.

Lemma put_subjectarea_img mid tail i b off box :
  b = length i.1 -> off = Z.of_nat (length mid + length i.2) - 6 ->
  (6 <= length mid)%nat ->
  (length i.1 + 12 <= length mid)%nat ->
  (length i.2 + 8 <= length tail)%nat ->
  Z.of_nat (length mid + length tail) < 2 ^ 32 ->
  put_subjectarea box (Tiff_writing (image mid tail i) 6 b off)
  = Some (Tiff_writing (image mid tail (img_subjectarea (length mid) box i))
            6 (b + 12)
            (Z.of_nat (length mid + length (img_subjectarea (length mid) box i).2) - 6)).
Proof.
  intros -> -> HE Hd Ho HN.
  unfold put_subjectarea, img_subjectarea. cbn [buf base data_offset].
  wdir. wdir. wdir. wdir. wadvance.
  do 4 wnext ltac:(marker_write memcpy_ool).
  unfold set_data_offset. cbn [marker buf base data_offset].
  f_equal. f_equal; [f_equal; img_eq|].
  rewrite uint_small by len. len.
Qed.

Lemma img_subjectarea_dir E box i :
  length (img_subjectarea E box i).1 = (length i.1 + 12)%nat.
Proof. unfold img_subjectarea. cbn [fst]. len. Qed.

Lemma img_subjectarea_ool E box i :
  length (img_subjectarea E box i).2 = (length i.2 + 8)%nat.
Proof. unfold img_subjectarea. cbn [snd]. len. Qed.

Lemma length_exif_marker_start : length exif_marker_start = 14%nat.
Proof. done. Qed.
Lemma length_exif_version_tag : length exif_version_tag = 12%nat.
Proof. done. Qed.
Lemma length_exif_subifd_tag : length exif_subifd_tag = 8%nat.
Proof. done. Qed.
Lemma length_exif_tzoffset_tag : length exif_tzoffset_tag = 12%nat.
Proof. done. Qed.
Lemma length_tz_entry v : length (tz_entry v) = 12%nat.
Proof. done. Qed.

#[local] Hint Rewrite img_stringentry_dir img_subjectarea_dir img_subjectarea_ool
  length_exif_marker_start length_exif_version_tag length_exif_subifd_tag
  length_exif_tzoffset_tag length_tz_entry : len.

Ltac ool_facts :=
  repeat match goal with
  | |- context [img_stringentry ?E ?t ?s ?n ?i] =>
      lazymatch goal with
      | _ : (length i.2 <= length (img_stringentry E t s n i).2 <= _)%nat |- _ => fail
      | _ => pose proof (img_stringentry_ool E t s n i)
      end
  end.

Ltac wstr :=
  wnext ltac:(apply put_stringentry_img; ool_facts; len).
Ltac wbox :=
  wnext ltac:(apply put_subjectarea_img; ool_facts; len).

Lemma tz_entry_write mid tail i b off v :
  b = length i.1 -> (length i.1 + 12 <= length mid)%nat ->
  (on_marker (memcpy b exif_tzoffset_tag) >> on_marker (put_sint16 (b + 8) v))
    (Tiff_writing (image mid tail i) 6 b off)
  = Some (Tiff_writing (image mid tail (img_bytes (tz_entry v) i)) 6 b off).
Proof.
  intros -> Hd. wdir.
  apply on_marker_Some. cbn [marker]. rewrite put_sint16_memcpy.
  erewrite (memcpy_dir_over _ _ _ (i.1 ++ take 8 exif_tzoffset_tag) [0; 0] [0; 0]);
    [img_eq | unfold img_bytes; cbn [fst]; by rewrite <- app_assoc | len | done].
Qed.

Lemma seqw_assoc (f g h : writer) into :
  ((f >> g) >> h) into = (f >> g >> h) into.
Proof. unfold seqw. by destruct (f into). Qed.

Lemma tiff_writing_eq m m' b b' o o' :
  m = m' -> b = b' -> o = o' ->
  Some (Tiff_writing m 6 b o) = Some (Tiff_writing m' 6 b' o').
Proof. by intros -> -> ->. Qed.

Ltac wauto :=
  lazymatch goal with
  | |- (skip >> _) _ = _ => wadvance
  | |- (advance _ >> _) _ = _ => wadvance
  | |- ((_ >> _) >> _) _ = _ => rewrite seqw_assoc
  | |- (put_stringentry _ _ _ >> _) _ = _ => wstr
  | |- (put_subjectarea _ >> _) _ = _ => wbox
  | |- ((fun into => _) >> _) _ = _ =>
      first
        [ wnext ltac:(cbn beta; cbn [buf]; apply tz_entry_write; len)
        | wnext ltac:(cbn beta; cbn [buf];
                      erewrite seqw_Some by marker_write memcpy_dir;
                      marker_write memcpy_dir)
        | wnext ltac:(cbn beta; cbn [buf]; marker_write memcpy_dir) ]
  end.

Ltac wdone :=
  unfold advance, skip; cbn [marker buf base data_offset];
  apply tiff_writing_eq; [f_equal; img_eq | ool_facts; len | ool_facts; len].

Lemma jpgutl_exif_writeifd0_img mid tail i b off e :
  b = length i.1 -> off = Z.of_nat (length mid + length i.2) - 6 ->
  (6 <= length mid)%nat ->
  (length i.1 + dir0_len e <= length mid)%nat ->
  (length i.2 + ool0_room e <= length tail)%nat ->
  Z.of_nat (length mid + length tail) < 2 ^ 32 ->
  jpgutl_exif_writeifd0 e (Tiff_writing (image mid tail i) 6 b off)
  = Some (Tiff_writing (image mid tail (img_ifd0 (length mid) e i)) 6
            (b + dir0_len e)
            (Z.of_nat (length mid + length (img_ifd0 (length mid) e i).2) - 6)).
Proof.
  intros -> -> HE Hd Ho HN.
  unfold jpgutl_exif_writeifd0, img_ifd0, dir0_len, ool0_room in *.
  destruct (description e) as [ds|], (datetime e) as [dt|],
    (ifd1_tagcount e >? 0);
    cbn [when img_when opt_n str_room] in *.
  all: repeat wauto.
  all: wdone.
Qed.

Lemma jpgutl_exif_writeifd1_img mid tail i b off e :
  b = length i.1 -> off = Z.of_nat (length mid + length i.2) - 6 ->
  (6 <= length mid)%nat ->
  (length i.1 + dir1_len e <= length mid)%nat ->
  (length i.2 + ool1_room e <= length tail)%nat ->
  Z.of_nat (length mid + length tail) < 2 ^ 32 ->
  jpgutl_exif_writeifd1 e (Tiff_writing (image mid tail i) 6 b off)
  = Some (Tiff_writing (image mid tail (img_ifd1 (length mid) e i)) 6
            (b + dir1_len e)
            (Z.of_nat (length mid + length (img_ifd1 (length mid) e i).2) - 6)).
Proof.
  intros -> -> HE Hd Ho HN.
  unfold jpgutl_exif_writeifd1, img_ifd1, dir1_len, ool1_room in *.
  destruct (ifd1_tagcount e >? 0); [|wdone].
  destruct (datetime e) as [dt|], (box e) as [bx|], (subtime e) as [st|];
    cbn [when img_when opt_n str_room] in *.
  all: repeat wauto.
  all: wdone.
Qed.

Lemma img_ifd0_dir E e i :
  length (img_ifd0 E e i).1 = (length i.1 + dir0_len e)%nat.
Proof.
  unfold img_ifd0, dir0_len.
  destruct (description e), (datetime e), (ifd1_tagcount e >? 0);
    cbn [img_when opt_n]; len.
Qed.

Lemma img_ifd1_dir E e i :
  length (img_ifd1 E e i).1 = (length i.1 + dir1_len e)%nat.
Proof.
  unfold img_ifd1, dir1_len. destruct (ifd1_tagcount e >? 0); [|lia].
  destruct (datetime e), (box e), (subtime e); cbn [img_when opt_n]; len.
Qed.

Lemma img_ifd0_ool E e i :
  (length i.2 <= length (img_ifd0 E e i).2 <= length i.2 + ool0_room e)%nat.
Proof.
  unfold img_ifd0, ool0_room.
  destruct (description e), (datetime e), (ifd1_tagcount e >? 0);
    cbn [img_when str_room]; ool_facts; len.
Qed.

Lemma img_ifd1_ool E e i :
  (length i.2 <= length (img_ifd1 E e i).2 <= length i.2 + ool1_room e)%nat.
Proof.
  unfold img_ifd1, ool1_room. destruct (ifd1_tagcount e >? 0); [|lia].
  destruct (datetime e), (box e), (subtime e);
    cbn [img_when str_room opt_n]; ool_facts; len.
Qed.

Lemma jpgutl_exif_tags_fields e :
  description (jpgutl_exif_tags e) = description e /\
  datetime (jpgutl_exif_tags e) = datetime e /\
  subtime (jpgutl_exif_tags e) = subtime e /\
  box (jpgutl_exif_tags e) = box e /\
  timestamp_tm (jpgutl_exif_tags e) = timestamp_tm e.
Proof.
  unfold jpgutl_exif_tags.
  destruct (description e), (datetime e), (subtime e), (box e);
    repeat case_match; done.
Qed.

Lemma jpgutl_exif_tags_spec e :
  counters_zeroed e -> inventory_fits e ->
  ifd0_tagcount (jpgutl_exif_tags e) = tag_count0 e /\
  ifd1_tagcount (jpgutl_exif_tags e) = tag_count1 e /\
  datasize (jpgutl_exif_tags e) = inventory_datasize e /\
  ifds_size (jpgutl_exif_tags e) = inventory_ifds_size e.
Proof.
  intros (H0 & H1 & H2 & _) Hfit.
  unfold inventory_fits, inventory_ifds_size, inventory_datasize, jpgutl_exif_tags,
    tag_count0, tag_count1, booked, strlen in *.
  rewrite H0, H1, H2. clear H0 H1 H2.
  destruct (description e) as [ds|], (datetime e) as [dt|],
    (subtime e) as [st|], (box e) as [bx|];
    cbn [opt_n Nat.add Nat.mul Z.of_nat Pos.of_succ_nat Pos.succ] in *.
  all: unfold uint; rewrite ?Z.mod_small by (simpl in *; lia).
  all: simpl in *; repeat split; lia.
Qed.

Lemma inventory_sizes e :
  counters_zeroed e -> inventory_fits e -> any_field e ->
  let e' := jpgutl_exif_tags e in
  Z.of_nat (dir0_len e' + dir1_len e') = inventory_ifds_size e /\
  Z.of_nat (ool0_room e' + ool1_room e') <= inventory_datasize e /\
  0 < inventory_ifds_size e.
Proof.
  intros Hz Hfit Hany e'. revert Hany.
  destruct (jpgutl_exif_tags_spec e Hz Hfit) as (_ & H1 & _ & _).
  destruct (jpgutl_exif_tags_fields e) as (Hd & Ht & Hs & Hb & _).
  unfold dir0_len, dir1_len, ool0_room, ool1_room, str_room.
  fold e' in H1, Hd, Ht, Hs, Hb. rewrite H1, Hd, Ht, Hs, Hb.
  unfold inventory_ifds_size, inventory_datasize, tag_count0, tag_count1,
    booked, strlen, any_field.
  destruct (description e) as [ds|], (datetime e) as [dt|],
    (subtime e) as [st|], (box e) as [bx|];
    rewrite ?length_str_data; simpl; intros Hany; repeat split; try lia.
  all: by destruct Hany as [?|[?|[?|?]]].
Qed.

Lemma length_mymalloc w n : length (mymalloc w n) = Z.to_nat n.
Proof. unfold mymalloc. by rewrite length_map, length_seq. Qed.

Lemma exif_img_dir e :
  counters_zeroed e -> inventory_fits e -> any_field e ->
  length (exif_img e).1 = Z.to_nat (14 + inventory_ifds_size e).
Proof.
  intros Hz Hfit Hany. unfold exif_img.
  destruct (inventory_sizes e Hz Hfit Hany) as (Hs & _ & _).
  rewrite img_ifd1_dir, img_ifd0_dir. cbn [fst length exif_marker_start]. lia.
Qed.

Lemma exif_img_ool e :
  counters_zeroed e -> inventory_fits e -> any_field e ->
  Z.of_nat (length (exif_img e).2) <= inventory_datasize e.
Proof.
  intros Hz Hfit Hany. unfold exif_img.
  destruct (inventory_sizes e Hz Hfit Hany) as (_ & Hs & _).
  set (E := Z.to_nat _). set (e' := jpgutl_exif_tags e) in *.
  pose proof (img_ifd1_ool E e' (img_ifd0 E e' (exif_marker_start, []))).
  pose proof (img_ifd0_ool E e' (exif_marker_start, [])).
  cbn [snd length] in *. lia.
Qed.

(** The cursor-based serializer writes what the two streams hold: the
    directories, then the out-of-line data, and nothing else. *)
Theorem jpgutl_exif_from_img w e :
  counters_zeroed e -> inventory_fits e -> any_field e ->
  jpgutl_exif_from w e
  = Some (Z.of_nat (length (exif_img e).1 + length (exif_img e).2),
          Some ((exif_img e).1 ++ (exif_img e).2 ++
                drop (length (exif_img e).1 + length (exif_img e).2)
                  (mymalloc w (buffer_size e)))).
Proof.
  intros Hz Hfit Hany.
  pose proof (exif_img_dir e Hz Hfit Hany) as Hdir.
  pose proof (exif_img_ool e Hz Hfit Hany) as Hool.
  destruct (inventory_sizes e Hz Hfit Hany) as (Hsz & Hroom & Hpos).
  destruct (jpgutl_exif_tags_spec e Hz Hfit) as (_ & _ & Hds & Hifds).
  unfold jpgutl_exif_from, buffer_size, exif_img in *.
  set (e' := jpgutl_exif_tags e) in *. cbv zeta. rewrite Hifds, Hds in *.
  destruct (Z.eqb_spec (inventory_ifds_size e) 0) as [?|_]; [lia|].
  unfold inventory_fits in Hfit.
  rewrite !uint_small by (rewrite ?uint_small; lia).
  set (N := 14 + inventory_ifds_size e + inventory_datasize e) in *.
  set (E := Z.to_nat (14 + inventory_ifds_size e)) in *.
  set (m0 := mymalloc w N).
  assert (Hm0 : length m0 = Z.to_nat N) by apply length_mymalloc.
  assert (Hmid : length (take E m0) = E) by (rewrite length_take; lia).
  assert (Htail : length (drop E m0) = (Z.to_nat N - E)%nat)
    by (rewrite length_drop; lia).
  assert (Hstart : memcpy 0 exif_marker_start m0
                   = Some (image (take E m0) (drop E m0) (exif_marker_start, []))).
  { unfold memcpy, image. cbn [fst snd]. rewrite length_exif_marker_start.
    case_decide; [|lia]. cbn [length Nat.add]. rewrite take_0, drop_0.
    cbn [app].
    replace (drop 14 m0) with (drop 14 (take E m0) ++ drop E m0); [done|].
    rewrite <- (take_drop E m0) at 3. rewrite drop_app_le by lia. done. }
  rewrite Hstart. cbn [mbind option_bind]. clear Hstart.
  assert (HEv : Z.of_nat E = 14 + inventory_ifds_size e) by lia.
  assert (Hm : m0 = take E m0 ++ drop E m0) by (by rewrite take_drop).
  revert Hm. generalize dependent (drop E m0). generalize dependent (take E m0).
  intros mid Hmid tail Htail Hm.
  clearbody E. subst E.
  pose proof (img_ifd0_dir (length mid) e' (exif_marker_start, [])) as Hd0.
  pose proof (img_ifd0_ool (length mid) e' (exif_marker_start, [])) as Ho0.
  cbn [fst snd length exif_marker_start] in Hd0, Ho0.
  erewrite seqw_Some
    by (apply jpgutl_exif_writeifd0_img; cbn [fst snd length exif_marker_start]; lia).
  erewrite jpgutl_exif_writeifd1_img; [|lia|lia|lia|lia|lia|lia].
  cbn [mbind option_bind data_offset marker].
  set (i := img_ifd1 (length mid) e' (img_ifd0 (length mid) e' (exif_marker_start, []))) in *.
  f_equal. f_equal.
  - rewrite uint_small by lia. lia.
  - f_equal. unfold image.
    rewrite (drop_ge mid) by lia. cbn [app]. do 2 f_equal.
    rewrite Hm, drop_app_ge by lia. f_equal. lia.
Qed.

(** * Properties of the marker *)

Lemma jpgutl_exif_tags_eq e :
  counters_zeroed e -> inventory_fits e -> jpgutl_exif_tags e = inventoried e.
Proof.
  intros Hz Hfit.
  destruct (jpgutl_exif_tags_spec e Hz Hfit) as (H0 & H1 & H2 & H3).
  unfold inventoried. rewrite <- H0, <- H1, <- H2, <- H3.
  unfold jpgutl_exif_tags.
  destruct (description e), (datetime e), (subtime e), (box e);
    repeat case_match; simplify_eq; done.
Qed.

Lemma img_stringentry_shape E tag s with_nul i :
  exists a b c d o',
    (length o' <= 3 + length (str_data s with_nul))%nat /\
    img_stringentry E tag s with_nul i
    = (i.1 ++ be16 tag ++ be16 TIFF_TYPE_ASCII ++
       be32 (Z.of_nat (length (str_data s with_nul))) ++ [a; b; c; d],
       i.2 ++ o').
Proof.
  unfold img_stringentry.
  destruct (Z.leb_spec (Z.of_nat (length (str_data s with_nul))) 4) as [Hn|Hn].
  - destruct (str_data s with_nul) as [|a [|b [|c [|d [|]]]]]; cbn [length] in Hn;
      try lia; cbn [length replicate Nat.sub app].
    + exists 0, 0, 0, 0, []. rewrite app_nil_r. split; [cbn; lia|done].
    + exists a, 0, 0, 0, []. rewrite app_nil_r. split; [cbn; lia|done].
    + exists a, b, 0, 0, []. rewrite app_nil_r. split; [cbn; lia|done].
    + exists a, b, c, 0, []. rewrite app_nil_r. split; [cbn; lia|done].
    + exists a, b, c, d, []. rewrite app_nil_r. split; [cbn; lia|done].
  - cbv zeta. unfold be32 at 2. do 5 eexists. split; [|reflexivity].
    rewrite length_app, length_replicate. lia.
Qed.

Ltac stringentry_shapes :=
  repeat match goal with
  | |- context [img_stringentry ?E ?t ?s ?n ?i] =>
      lazymatch i with
      | context [img_stringentry] => fail
      | _ =>
          let a := fresh "a" in let b := fresh "b" in let c := fresh "c" in
          let d := fresh "d" in let o := fresh "o" in let H := fresh "H" in
          destruct (img_stringentry_shape E t s n i) as (a & b & c & d & o & _ & H);
          rewrite H; clear H
      end
  end.

Ltac eval_counts :=
  repeat match goal with
  | |- context [tag_count1 ?r >? 0] =>
      let v := eval vm_compute in (tag_count1 r >? 0) in
      change (tag_count1 r >? 0) with v
  end.

Ltac slack_facts :=
  repeat match goal with
  | |- context [img_stringentry ?E ?t ?s ?n ?i] =>
      lazymatch goal with
      | _ : (length (img_stringentry E t s n i).2 < _)%nat |- _ => fail
      | _ => pose proof (img_stringentry_slack E t s n i);
             pose proof (img_stringentry_ool E t s n i)
      end
  end.

(** Without any field the inventory is empty and no marker is built. *)
Lemma jpgutl_exif_from_nothing w e :
  counters_zeroed e ->
  description e = None -> datetime e = None -> subtime e = None -> box e = None ->
  jpgutl_exif_from w e = Some (0, None).
Proof.
  intros (H0 & H1 & H2 & H3) Hd Ht Hs Hb.
  destruct e as [cm ts bx tmv ds dt st c0 c1 dsz isz].
  cbn [description datetime subtime box ifd0_tagcount ifd1_tagcount datasize
       ifds_size] in *. subst. reflexivity.
Qed.

Lemma any_field_dec e :
  any_field e \/
  (description e = None /\ datetime e = None /\ subtime e = None /\ box e = None).
Proof.
  unfold any_field.
  destruct (description e), (datetime e), (subtime e), (box e); auto 10.
Qed.

(** A marker that [jpgutl_exif_from] returns is the image of the two
    streams, followed by what is left of the allocated block. *)
Lemma jpgutl_exif_from_inv w e len m :
  counters_zeroed e -> inventory_fits e ->
  jpgutl_exif_from w e = Some (len, Some m) ->
  any_field e /\
  len = Z.of_nat (length (exif_img e).1 + length (exif_img e).2) /\
  m = (exif_img e).1 ++ (exif_img e).2 ++
      drop (length (exif_img e).1 + length (exif_img e).2)
        (mymalloc w (buffer_size e)).
Proof.
  intros Hz Hfit Hrun.
  destruct (any_field_dec e) as [Hany|(Hd & Ht & Hs & Hb)].
  - rewrite (jpgutl_exif_from_img w e Hz Hfit Hany) in Hrun.
    by injection Hrun as <- <-.
  - by rewrite (jpgutl_exif_from_nothing w e Hz Hd Ht Hs Hb) in Hrun.
Qed.

Lemma buffer_size_eq e :
  counters_zeroed e -> inventory_fits e ->
  buffer_size e = 14 + inventory_ifds_size e + inventory_datasize e.
Proof.
  intros Hz Hfit. unfold buffer_size.
  destruct (jpgutl_exif_tags_spec e Hz Hfit) as (_ & _ & -> & ->).
  unfold inventory_fits in Hfit.
  assert (0 <= inventory_ifds_size e /\ 0 <= inventory_datasize e) as [? ?].
  { unfold inventory_ifds_size, inventory_datasize, tag_count0, tag_count1,
      booked, strlen.
    destruct (description e), (datetime e), (subtime e), (box e);
      simpl; lia. }
  rewrite !uint_small by (rewrite ?uint_small; lia). done.
Qed.

(** The out-of-line stream against the inventory: equal when no string is
    present, strictly shorter otherwise. *)
Lemma exif_img_ool_slack e :
  counters_zeroed e -> inventory_fits e -> any_field e ->
  (description e = None /\ datetime e = None /\ subtime e = None ->
   Z.of_nat (length (exif_img e).2) = inventory_datasize e) /\
  (~ (description e = None /\ datetime e = None /\ subtime e = None) ->
   Z.of_nat (length (exif_img e).2) < inventory_datasize e).
Proof.
  intros Hz Hfit Hany.
  unfold exif_img. rewrite (jpgutl_exif_tags_eq e Hz Hfit).
  destruct Hz as (H0 & H1 & H2 & H3).
  destruct e as [cm ts bx tmv ds dt st c0 c1 dsz isz].
  unfold any_field in Hany.
  cbn [description datetime subtime box ifd0_tagcount ifd1_tagcount datasize
       ifds_size] in *. subst. clear Hfit.
  unfold img_ifd0, img_ifd1, inventoried, inventory_datasize, booked, strlen.
  cbn [description datetime subtime box ifd0_tagcount ifd1_tagcount
       timestamp_tm ifds_size].
  destruct ds as [ds|], dt as [dt|], st as [st|], bx as [bx|];
    eval_counts; cbn [img_when opt_n]; slack_facts.
  all: split; [intros (? & ? & ?); try done | intros Hn; try (by destruct Hn)].
  all: try len.
  all: by destruct Hany as [?|[?|[?|?]]].
Qed.

Lemma store_None p v m : store p v m = None <-> (length m <= p)%nat.
Proof. unfold store. case_decide; split; (done || lia). Qed.

Lemma memcpy_None p bs m :
  memcpy p bs m = None <-> (length m < p + length bs)%nat.
Proof. unfold memcpy. case_decide; split; (done || lia). Qed.

Ltac eval_list l :=
  let l' := eval vm_compute in l in
  let H := fresh in
  assert (l = l') as H by (vm_compute; reflexivity);
  rewrite H; clear H.

Ltac sublist_solve :=
  repeat first [apply sublist_nil | apply sublist_skip | apply sublist_cons].

Ltac sorted_solve :=
  repeat first [apply SSorted_nil | apply SSorted_cons | apply List.Forall_nil
               | apply List.Forall_cons | reflexivity].

(** C3.  In every marker that the encoder returns, whatever fields are
    present, the entries of IFD0 carry strictly ascending tags taken from
    0x010E, 0x0132, 0x8769, 0x882A, and when IFD0 points to an Exif IFD,
    its entries carry strictly ascending tags taken from 0x9000, 0x9003,
    0x9214, 0x9291. *)
Theorem C3_ifd_tags_ascending w e len m :
  counters_zeroed e -> inventory_fits e ->
  jpgutl_exif_from w e = Some (len, Some m) ->
  (StronglySorted Z.lt (ifd_tags m (ifd0_pos m)) /\
   ifd_tags m (ifd0_pos m) `sublist_of` [0x010E; 0x0132; 0x8769; 0x882A]) /\
  (forall p, ifd1_pos m = Some p ->
     StronglySorted Z.lt (ifd_tags m p) /\
     ifd_tags m p `sublist_of` [0x9000; 0x9003; 0x9214; 0x9291]).
Proof.
  intros Hz Hfit Hrun.
  destruct (jpgutl_exif_from_inv w e len m Hz Hfit Hrun) as (Hany & _ & ->).
  clear Hrun. unfold exif_img. rewrite (jpgutl_exif_tags_eq e Hz Hfit).
  destruct Hz as (H0 & H1 & H2 & H3).
  destruct e as [cm ts bx tmv ds dt st c0 c1 dsz isz].
  unfold any_field in Hany.
  cbn [description datetime subtime box ifd0_tagcount ifd1_tagcount datasize
       ifds_size] in *. subst. clear Hfit.
  unfold img_ifd0, img_ifd1, inventoried.
  cbn [description datetime subtime box ifd0_tagcount ifd1_tagcount
       timestamp_tm ifds_size].
  destruct ds as [ds|], dt as [dt|], st as [st|], bx as [bx|];
    eval_counts; cbn [img_when]; stringentry_shapes.
  16: by destruct Hany as [?|[?|[?|?]]].
  all: clear Hany; split;
    [ match goal with |- StronglySorted _ ?l /\ _ => eval_list l end;
      split; [sorted_solve | sublist_solve]
    | intros p Hp; vm_compute in Hp;
      first
        [ discriminate Hp
        | injection Hp as <-;
          match goal with |- StronglySorted _ ?l /\ _ => eval_list l end;
          split; [sorted_solve | sublist_solve] ] ].
Qed.

Lemma C3_witness :
  counters_zeroed hello_box_info /\ inventory_fits hello_box_info /\
  jpgutl_exif_from sample_world hello_box_info = Some (88, Some hello_box_marker) /\
  (StronglySorted Z.lt (ifd_tags hello_box_marker (ifd0_pos hello_box_marker)) /\
   ifd_tags hello_box_marker (ifd0_pos hello_box_marker)
     `sublist_of` [0x010E; 0x0132; 0x8769; 0x882A]) /\
  (forall p, ifd1_pos hello_box_marker = Some p ->
     StronglySorted Z.lt (ifd_tags hello_box_marker p) /\
     ifd_tags hello_box_marker p `sublist_of` [0x9000; 0x9003; 0x9214; 0x9291]).
Proof.
  assert (Hz : counters_zeroed hello_box_info) by (repeat split).
  assert (Hfit : inventory_fits hello_box_info) by (vm_compute; reflexivity).
  assert (Hrun : jpgutl_exif_from sample_world hello_box_info
                 = Some (88, Some hello_box_marker)) by (vm_compute; reflexivity).
  split; [exact Hz|]. split; [exact Hfit|]. split; [exact Hrun|].
  apply (C3_ifd_tags_ascending sample_world hello_box_info 88 hello_box_marker
           Hz Hfit Hrun).
Defined.

Lemma inventory_nonneg e :
  0 <= inventory_ifds_size e /\ 0 <= inventory_datasize e.
Proof.
  unfold inventory_ifds_size, inventory_datasize, tag_count0, tag_count1,
    booked, strlen.
  destruct (description e), (datetime e), (subtime e), (box e); simpl; lia.
Qed.

(** C10.  With the counters zero at the start and an inventory that fits
    a [uint], the serialization never stores outside the allocated block of
    [buffer_size = 14 + ifds_size + datasize] bytes (a store outside is
    [None]), the block keeps that size, and the returned length is at most
    [buffer_size]; it is strictly less as soon as a datetime is present. *)
Theorem C10_writes_within_buffer w e :
  counters_zeroed e -> inventory_fits e ->
  exists len r,
    jpgutl_exif_from w e = Some (len, r) /\
    buffer_size e
    = 14 + ifds_size (jpgutl_exif_tags e) + datasize (jpgutl_exif_tags e) /\
    0 <= len <= buffer_size e /\
    (forall m, r = Some m -> length m = Z.to_nat (buffer_size e)) /\
    (datetime e <> None -> len < buffer_size e).
Proof.
  intros Hz Hfit.
  pose proof (buffer_size_eq e Hz Hfit) as Hbs.
  pose proof (inventory_nonneg e) as [Hi Hd].
  destruct (jpgutl_exif_tags_spec e Hz Hfit) as (_ & _ & Hds & Hifds).
  destruct (any_field_dec e) as [Hany|(Hd' & Ht & Hs & Hb)].
  - rewrite (jpgutl_exif_from_img w e Hz Hfit Hany).
    pose proof (exif_img_dir e Hz Hfit Hany) as Hdir.
    pose proof (exif_img_ool e Hz Hfit Hany) as Hool.
    destruct (exif_img_ool_slack e Hz Hfit Hany) as [_ Hslack].
    eexists _, _. split; [reflexivity|].
    rewrite Hds, Hifds. split; [done|]. split; [lia|]. split.
    + intros m [= <-]. rewrite !length_app, length_drop, length_mymalloc. lia.
    + intros Hdt. assert (Z.of_nat (length (exif_img e).2) < inventory_datasize e).
      { apply Hslack. by intros (_ & ? & _). }
      lia.
  - rewrite (jpgutl_exif_from_nothing w e Hz Hd' Ht Hs Hb).
    eexists _, _. split; [reflexivity|].
    rewrite Hds, Hifds. split; [done|]. split; [lia|]. split; [done|].
    intros Hdt. by rewrite Ht in Hdt.
Qed.

Lemma C10_witness :
  counters_zeroed sample_info /\ inventory_fits sample_info /\
  exists len r,
    jpgutl_exif_from sample_world sample_info = Some (len, r) /\
    buffer_size sample_info
    = 14 + ifds_size (jpgutl_exif_tags sample_info)
      + datasize (jpgutl_exif_tags sample_info) /\
    0 <= len <= buffer_size sample_info /\
    (forall m, r = Some m -> length m = Z.to_nat (buffer_size sample_info)) /\
    (datetime sample_info <> None -> len < buffer_size sample_info).
Proof.
  assert (Hz : counters_zeroed sample_info) by (repeat split).
  assert (Hfit : inventory_fits sample_info) by (vm_compute; reflexivity).
  split; [exact Hz|]. split; [exact Hfit|].
  apply (C10_writes_within_buffer sample_world sample_info Hz Hfit).
Defined.

(** C1, as the code has it.  The size that the inventory pass computes is
    an upper bound of the number of bytes that the serialization pass
    writes: the returned length is at most [buffer_size], and it equals
    [buffer_size] exactly when no description, datetime or subtime is
    present. *)
Theorem C1_inventory_bounds_marker w e len m :
  counters_zeroed e -> inventory_fits e ->
  jpgutl_exif_from w e = Some (len, Some m) ->
  len <= buffer_size e /\
  (len = buffer_size e <->
   description e = None /\ datetime e = None /\ subtime e = None).
Proof.
  intros Hz Hfit Hrun.
  destruct (jpgutl_exif_from_inv w e len m Hz Hfit Hrun) as (Hany & -> & _).
  rewrite (buffer_size_eq e Hz Hfit).
  pose proof (exif_img_dir e Hz Hfit Hany) as Hdir.
  pose proof (exif_img_ool e Hz Hfit Hany) as Hool.
  pose proof (inventory_nonneg e) as [Hi Hd].
  destruct (exif_img_ool_slack e Hz Hfit Hany) as [Heq Hlt].
  split; [lia|]. split.
  - intros Hlen.
    destruct (description e) as [ds|] eqn:Eds, (datetime e) as [dt|] eqn:Edt,
      (subtime e) as [st|] eqn:Est; try done.
    all: assert (Z.of_nat (length (exif_img e).2) < inventory_datasize e)
      by (apply Hlt; by intros (? & ? & ?)); lia.
  - intros Hnone. specialize (Heq Hnone). lia.
Qed.

Lemma C1_witness :
  counters_zeroed sample_info /\ inventory_fits sample_info /\
  jpgutl_exif_from sample_world sample_info = Some (126, Some sample_marker) /\
  (126 <= buffer_size sample_info /\
   (126 = buffer_size sample_info <->
    description sample_info = None /\ datetime sample_info = None /\
    subtime sample_info = None)).
Proof.
  assert (Hz : counters_zeroed sample_info) by (repeat split).
  assert (Hfit : inventory_fits sample_info) by (vm_compute; reflexivity).
  assert (Hrun : jpgutl_exif_from sample_world sample_info
                 = Some (126, Some sample_marker)) by (vm_compute; reflexivity).
  split; [exact Hz|]. split; [exact Hfit|]. split; [exact Hrun|].
  apply (C1_inventory_bounds_marker sample_world sample_info 126 sample_marker
           Hz Hfit Hrun).
Defined.

(** C1, as stated, fails: with a datetime only, the inventory books 134
    bytes where the serialization writes 126. *)
Lemma C1_counterexample :
  counters_zeroed sample_info /\
  jpgutl_exif_from sample_world sample_info = Some (126, Some sample_marker) /\
  buffer_size sample_info = 134 /\
  126 <> buffer_size sample_info.
Proof. repeat split; vm_compute; congruence. Qed.

(** The out-of-line copy of a string starts on a multiple of four:
    [put_direntry] leaves its alignment loop only there. *)
Lemma align_loop_aligned fuel b offset m offset' m' :
  align_loop fuel b offset m = Some (offset', m') -> offset' mod 4 = 0.
Proof.
  revert offset m. induction fuel as [|fuel IH]; intros offset m; cbn [align_loop];
    rewrite land_3; destruct (Z.eqb_spec (offset mod 4) 0) as [He|He];
    try done; try (by intros [= <- <-]).
  destruct (store _ 0 m) as [m1|]; [|done]. cbn [mbind option_bind]. apply IH.
Qed.

(** C2 at the failing input.  For a timestamp in the year 10000 and a
    region, the two datetime strings take 21 bytes each, and
    [put_subjectarea] writes the region at offset 137, which is not a
    multiple of four (nor of two). *)
Theorem C2_subjectarea_unaligned :
  jpgutl_exif y10k_world zeroed_info (Cls_camera [])
    (Some (Timespec 253402300800 0)) (Some sample_box)
  = Some (151, Some y10k_marker) /\
  exif_ifd_entry y10k_marker EXIF_TAG_SUBJECT_AREA
  = Some (Ifd_entry EXIF_TAG_SUBJECT_AREA TIFF_TYPE_USHORT 4 137) /\
  take 8 (drop (tiff_base + 137) y10k_marker) = [0; 10; 0; 20; 0; 4; 0; 6] /\
  137 mod 4 = 1.
Proof. repeat split; vm_compute; reflexivity. Qed.

(** The same slip on a record that holds a description and a region but
    no datetime: the region is written at offset 74. *)
Lemma put_subjectarea_unaligned_after_description :
  jpgutl_exif_from sample_world hello_box_info = Some (88, Some hello_box_marker) /\
  exif_ifd_entry hello_box_marker EXIF_TAG_SUBJECT_AREA
  = Some (Ifd_entry EXIF_TAG_SUBJECT_AREA TIFF_TYPE_USHORT 4 74) /\
  74 mod 4 = 2.
Proof. repeat split; vm_compute; reflexivity. Qed.

(** ** The zero-length path *)

Lemma jpgutl_exif_date_datetime w e :
  exists dt, datetime (jpgutl_exif_date w e) = Some dt /\ (length dt <= 21)%nat.
Proof.
  unfold jpgutl_exif_date. cbn [datetime]. eexists. split; [reflexivity|].
  unfold snprintf. rewrite !length_take. lia.
Qed.

Lemma jpgutl_exif_date_ready w e :
  counters_zeroed e ->
  strlen (mystrftime w (cam e) (PATH_MAX - 1) (picture_exif (cam e))) < PATH_MAX ->
  counters_zeroed (jpgutl_exif_date w e) /\
  inventory_fits (jpgutl_exif_date w e) /\
  any_field (jpgutl_exif_date w e).
Proof.
  intros Hz Hlen.
  destruct (jpgutl_exif_date_datetime w e) as (dt & Hdt & Hl).
  split; [exact Hz|]. split.
  - unfold inventory_fits, inventory_ifds_size, inventory_datasize, tag_count0,
      tag_count1. rewrite Hdt.
    unfold jpgutl_exif_date. cbn [description subtime box]. cbn [booked opt_n].
    unfold PATH_MAX, strlen in *.
    destruct (decide (picture_exif (cam e) = [])), (box e);
      cbn [booked opt_n]; simpl; unfold strlen; lia.
  - right. left. by rewrite Hdt.
Qed.

(** C4, as the code has it.  [jpgutl_exif_date] always builds a datetime,
    from [ts_in1] or else from the clock, so [jpgutl_exif] returns a
    positive length and [put_jpeg_exif] emits the APP1 marker whatever the
    configuration; the zero-length result, for which no marker is emitted,
    is what the rest of [jpgutl_exif] gives on a record without
    description, datetime, subtime and region. *)
Theorem C4_marker_always_emitted w fresh cm ts bx :
  counters_zeroed fresh ->
  strlen (mystrftime w cm (PATH_MAX - 1) (picture_exif cm)) < PATH_MAX ->
  (exists len m,
     jpgutl_exif w fresh cm ts bx = Some (len, Some m) /\ 0 < len /\
     put_jpeg_exif w fresh cm ts bx
     = Some [(JPEG_APP0 + 1, take (Z.to_nat len) m)]) /\
  (forall e, counters_zeroed e ->
     description e = None -> datetime e = None -> subtime e = None ->
     box e = None ->
     jpgutl_exif_from w e = Some (0, None) /\ write_app1 None 0 = Some []).
Proof.
  intros Hz Hlen. split.
  - unfold put_jpeg_exif, jpgutl_exif.
    set (e := exif_info_init fresh cm ts bx).
    destruct (jpgutl_exif_date_ready w e Hz Hlen) as (Hz' & Hfit & Hany).
    rewrite (jpgutl_exif_from_img w _ Hz' Hfit Hany).
    pose proof (exif_img_dir _ Hz' Hfit Hany) as Hdir.
    pose proof (inventory_nonneg (jpgutl_exif_date w e)) as [Hi _].
    eexists _, _. split; [reflexivity|]. split; [lia|].
    cbn [mbind option_bind fst snd]. unfold write_app1.
    destruct (Z.gtb_spec
      (Z.of_nat (length (exif_img (jpgutl_exif_date w e)).1 +
                 length (exif_img (jpgutl_exif_date w e)).2)) 0); [done|lia].
  - intros e Hze Hd Ht Hs Hb. split; [|done].
    by apply jpgutl_exif_from_nothing.
Qed.

Lemma C4_witness :
  counters_zeroed zeroed_info /\
  strlen (mystrftime sample_world (Cls_camera []) (PATH_MAX - 1)
            (picture_exif (Cls_camera []))) < PATH_MAX /\
  (exists len m,
     jpgutl_exif sample_world zeroed_info (Cls_camera []) None None
     = Some (len, Some m) /\ 0 < len /\
     put_jpeg_exif sample_world zeroed_info (Cls_camera []) None None
     = Some [(JPEG_APP0 + 1, take (Z.to_nat len) m)]) /\
  (forall e, counters_zeroed e ->
     description e = None -> datetime e = None -> subtime e = None ->
     box e = None ->
     jpgutl_exif_from sample_world e = Some (0, None) /\
     write_app1 None 0 = Some []).
Proof.
  assert (Hz : counters_zeroed zeroed_info) by (repeat split).
  assert (Hl : strlen (mystrftime sample_world (Cls_camera []) (PATH_MAX - 1)
                         (picture_exif (Cls_camera []))) < PATH_MAX)
    by (vm_compute; reflexivity).
  split; [exact Hz|]. split; [exact Hl|].
  apply (C4_marker_always_emitted sample_world zeroed_info (Cls_camera [])
           None None Hz Hl).
Defined.

(** C4, as stated, fails: with no description configured, no timestamp
    passed and no region, [jpgutl_exif] returns 126 bytes that carry the
    time of the clock, and [put_jpeg_exif] emits them. *)
Lemma C4_counterexample :
  jpgutl_exif sample_world zeroed_info (Cls_camera []) None None
  = Some (126, Some sample_marker) /\
  put_jpeg_exif sample_world zeroed_info (Cls_camera []) None None
  = Some [(0xE1, take 126 sample_marker)] /\
  126 <> 0.
Proof. repeat split; vm_compute; congruence. Qed.

(** * Properties of the decoder *)

(** C6.  When the codec reports an output width or height that differs
    from the declared one, [jpgutl_decode_jpeg] returns -1 and the bytes
    behind [img_out] are those it was given: the test comes before the
    loop over the scanlines. *)
Theorem C6_dimension_mismatch_writes_nothing
    JWRN c width height img_out output_width output_height :
  call_result (start_decompress c) = Some (output_width, output_height) ->
  output_width <> width \/ output_height <> height ->
  jpgutl_decode_jpeg JWRN c width height img_out = Some (-1, img_out).
Proof.
  intros Hstart Hne. unfold jpgutl_decode_jpeg.
  destruct (call_result (read_header c)); [|done]. rewrite Hstart.
  destruct ((output_width =? 0) || (output_height =? 0)); [done|].
  destruct (Z.eqb_spec output_width width), (Z.eqb_spec output_height height);
    cbn; try done. lia.
Qed.

Lemma C6_witness :
  call_result (start_decompress (warning_codec 0)) = Some (2, 2) /\
  (2 <> 4 \/ 2 <> 2) /\
  jpgutl_decode_jpeg 119 (warning_codec 0) 4 2 ∅ = Some (-1, ∅).
Proof.
  assert (H1 : call_result (start_decompress (warning_codec 0)) = Some (2, 2))
    by reflexivity.
  assert (H2 : 2 <> 4 \/ 2 <> 2) by (left; lia).
  split; [exact H1|]. split; [exact H2|].
  apply (C6_dimension_mismatch_writes_nothing 119 (warning_codec 0) 4 2 ∅ 2 2 H1 H2).
Defined.

Lemma emit_all_warnings J ws msgs :
  emit_all J ws msgs = ws + warnings J msgs.
Proof.
  unfold emit_all, warnings. revert ws.
  induction msgs as [|m msgs IH]; intros ws; cbn [fold_left].
  - cbn. lia.
  - rewrite IH. unfold jpgutl_emit_message. rewrite filter_cons.
    destruct (counted J m); case_decide; try done; cbn [length]; lia.
Qed.

Lemma warnings_app J a b : warnings J (a ++ b) = warnings J a + warnings J b.
Proof. unfold warnings. rewrite filter_app, length_app. lia. Qed.

(** The loop over the samples of a line ends. *)
Lemma demux_line_ends fuel i output_width wline p :
  output_width * 3 < 2 ^ 32 -> 0 <= i <= output_width * 3 -> i mod 3 = 0 ->
  output_width * 3 - i <= 3 * Z.of_nat fuel ->
  exists m', demux_line fuel i output_width wline p
             = Some (Planes m' (img_y p) (img_cb p) (img_cr p) (offset_y p)).
Proof.
  revert i p. induction fuel as [|fuel IH]; intros i p Hw Hi Hm Hf;
    cbn [demux_line]; rewrite (uint_small (output_width * 3)) by lia;
    destruct (Z.ltb_spec i (output_width * 3)) as [Hlt|Hge].
  - lia.
  - destruct p. eauto.
  - rewrite (uint_small (i + 3)) by lia.
    edestruct (IH (i + 3)) as (m' & ->); [lia|lia|lia|lia|]. cbn. eauto.
  - destruct p. eauto.
Qed.

(** The count after the lines is the count before them plus the warnings
    of the calls made; without a fatal error the loop runs to its end. *)
Lemma read_rows_warnings J c output_width rows k ws p ws' p' :
  read_rows J c output_width rows k ws p = Some (Rows_done ws' p') ->
  ws' = ws + warnings J (concat (map (fun k => call_msgs (read_scanlines c k))
                                   (seq k rows))).
Proof.
  revert k ws p. induction rows as [|rows IH]; intros k ws p;
    cbn [read_rows seq map concat].
  - intros [= <- <-]. unfold warnings. cbn. lia.
  - destruct (call_result (read_scanlines c k)) as [wline|]; [|done].
    destruct (demux_line _ _ _ _ _) as [p1|]; [|done]. cbn [mbind option_bind].
    intros Hr. apply IH in Hr. rewrite Hr, emit_all_warnings, warnings_app. lia.
Qed.

Lemma read_rows_done J c output_width rows k ws p :
  output_width * 3 < 2 ^ 32 -> 0 <= output_width ->
  (forall j, (k <= j < k + rows)%nat -> call_result (read_scanlines c j) <> None) ->
  exists ws' p', read_rows J c output_width rows k ws p = Some (Rows_done ws' p').
Proof.
  intros Hw H0. revert k ws p. induction rows as [|rows IH]; intros k ws p Hok;
    cbn [read_rows]; [eauto|].
  destruct (call_result (read_scanlines c k)) as [wline|] eqn:Hc.
  2:{ exfalso. apply (Hok k); [lia|done]. }
  edestruct (demux_line_ends (Z.to_nat (uint (output_width * 3))) 0 output_width
               wline p) as (m' & ->); [lia|lia|done| |].
  { rewrite uint_small by lia. lia. }
  cbn [mbind option_bind]. apply IH. intros j Hj. apply Hok. lia.
Qed.

(** C7.  The counter starts at zero and adds one for each counted message.
    A decode without fatal error, of the declared size, returns -1 when the
    counted warnings are more than two and 0 otherwise, so three warnings
    fail and two succeed; and no decode returns 0 with more than two. *)
Theorem C7_warning_threshold JWRN c width height img_out :
  call_result (read_header c) = Some tt ->
  call_result (start_decompress c) = Some (width, height) ->
  (forall k, (k < Z.to_nat height)%nat ->
     call_result (read_scanlines c k) <> None) ->
  call_result (finish_decompress c) = Some tt ->
  0 < width -> 0 < height -> width * 3 < 2 ^ 32 ->
  (exists img',
     jpgutl_decode_jpeg JWRN c width height img_out
     = Some ((if warnings JWRN (decode_msgs c height) >? 2 then -1 else 0), img')) /\
  (forall img',
     jpgutl_decode_jpeg JWRN c width height img_out = Some (0, img') ->
     warnings JWRN (decode_msgs c height) <= 2).
Proof.
  intros Hh Hs Hrows Hf Hw Hht Hfit.
  assert (Hrun : exists img',
     jpgutl_decode_jpeg JWRN c width height img_out
     = Some ((if warnings JWRN (decode_msgs c height) >? 2 then -1 else 0), img')).
  { unfold jpgutl_decode_jpeg. rewrite Hh, Hs.
    destruct (Z.eqb_spec width 0); [lia|]. destruct (Z.eqb_spec height 0); [lia|].
    rewrite !Z.eqb_refl. cbn [orb negb].
    set (p0 := Planes _ _ _ _ _). set (ws0 := emit_all _ (emit_all _ 0 _) _).
    destruct (read_rows_done JWRN c width (Z.to_nat height) 0 ws0 p0)
      as (ws' & p' & Hr); [lia|lia|intros j Hj; apply Hrows; lia|].
    rewrite Hr. cbn [mbind option_bind]. rewrite Hf.
    apply read_rows_warnings in Hr. subst ws' ws0.
    rewrite !emit_all_warnings. unfold decode_msgs. rewrite !warnings_app.
    rewrite !Z.add_0_l, !Z.add_assoc.
    destruct (_ >? 2); eauto. }
  split; [exact Hrun|].
  destruct Hrun as (img1 & Hrun). intros img' Hzero. rewrite Hrun in Hzero.
  destruct (Z.gtb_spec (warnings JWRN (decode_msgs c height)) 2); [done|lia].
Qed.

Lemma C7_witness :
  call_result (read_header (warning_codec 2)) = Some tt /\
  call_result (start_decompress (warning_codec 2)) = Some (2, 2) /\
  (forall k, (k < Z.to_nat 2)%nat ->
     call_result (read_scanlines (warning_codec 2) k) <> None) /\
  call_result (finish_decompress (warning_codec 2)) = Some tt /\
  0 < 2 /\ 0 < 2 /\ 2 * 3 < 2 ^ 32 /\
  (exists img',
     jpgutl_decode_jpeg 119 (warning_codec 2) 2 2 ∅
     = Some ((if warnings 119 (decode_msgs (warning_codec 2) 2) >? 2
              then -1 else 0), img')) /\
  (forall img',
     jpgutl_decode_jpeg 119 (warning_codec 2) 2 2 ∅ = Some (0, img') ->
     warnings 119 (decode_msgs (warning_codec 2) 2) <= 2).
Proof.
  assert (H1 : call_result (read_header (warning_codec 2)) = Some tt) by reflexivity.
  assert (H2 : call_result (start_decompress (warning_codec 2)) = Some (2, 2))
    by reflexivity.
  assert (H3 : forall k, (k < Z.to_nat 2)%nat ->
     call_result (read_scanlines (warning_codec 2) k) <> None) by (intros; discriminate).
  assert (H4 : call_result (finish_decompress (warning_codec 2)) = Some tt)
    by reflexivity.
  assert (H5 : 0 < 2) by lia.
  assert (H6 : 2 * 3 < 2 ^ 32) by lia.
  repeat (split; [assumption|]).
  apply (C7_warning_threshold 119 (warning_codec 2) 2 2 ∅ H1 H2 H3 H4 H5 H5 H6).
Defined.

(** Two warnings succeed, three fail. *)
Lemma decode_two_warnings_succeed_three_fail :
  fst <$> jpgutl_decode_jpeg 119 (warning_codec 2) 2 2 ∅ = Some 0 /\
  fst <$> jpgutl_decode_jpeg 119 (warning_codec 3) 2 2 ∅ = Some (-1).
Proof. split; vm_compute; reflexivity. Qed.

(** * Properties of the row grouping *)

(** C8 at the failing input.  For a 16x24 image the second group covers
    the lines 16 to 31.  The luma pointers of the lines past the image,
    [y[8..15]], are null; the chroma entries that go with them, [cb[4..7]]
    and [cr[4..7]], are not assigned in this group and still point to the
    chroma rows 4 to 7 of the first group; the null pointers of the chroma
    arrays are stored at the indices 8 to 15 instead. *)
Theorem C8_padding_rows_are_null :
  padding_luma 24 16 = [8; 9; 10; 11; 12; 13; 14; 15]%nat /\
  padding_chroma 24 16 = [4; 5; 6; 7]%nat /\
  last (jpgutl_put_yuv420p_rows 16 24)
  = Some (Row_arrays
            (map Row_at [256; 272; 288; 304; 320; 336; 352; 368] ++
             replicate 8 Row_null)
            (map Row_at [448; 456; 464; 472] ++ map Row_at [416; 424; 432; 440] ++
             replicate 8 Row_null)
            (map Row_at [544; 552; 560; 568] ++ map Row_at [512; 520; 528; 536] ++
             replicate 8 Row_null)).
Proof. repeat split; vm_compute; reflexivity. Qed.

(** For an image of one group that is not full, the chroma entries of the
    padding were never assigned at all. *)
Lemma padding_chroma_unassigned :
  jpgutl_put_yuv420p_rows 16 8
  = [Row_arrays
       (map Row_at [0; 16; 32; 48; 64; 80; 96; 112] ++ replicate 8 Row_null)
       (map Row_at [128; 136; 144; 152] ++ replicate 4 Row_indeterminate ++
        replicate 8 Row_null)
       (map Row_at [160; 168; 176; 184] ++ replicate 4 Row_indeterminate ++
        replicate 8 Row_null)].
Proof. vm_compute; reflexivity. Qed.

(** * Properties of the layout *)

Lemma align_up_ge off al : (0 < al)%nat -> (off <= align_up off al)%nat.
Proof.
  intros Hal. unfold align_up.
  pose proof (Nat.div_mod_eq (off + al - 1) al).
  pose proof (Nat.mod_upper_bound (off + al - 1) al). nia.
Qed.

Ltac align_facts :=
  repeat match goal with
  | |- context [align_up ?x ?al] =>
      lazymatch goal with
      | _ : (x <= align_up x al)%nat |- _ => fail
      | _ => pose proof (align_up_ge x al ltac:(cbn; lia))
      end
  end.

Lemma offsetof_counter a m :
  abi_ok a -> In m counter_members ->
  (sizeof_size_t a <= offsetof a m)%nat /\
  (offsetof a m + sizeof_uint a <= sizeof_ctx_exif_info a)%nat.
Proof.
  intros (Hp & Hu & Ht & Hs) Hin.
  assert (Hw : (0 < c_align (t_tiff_writing a))%nat) by (cbn; lia).
  assert (Hall : (0 < c_align (struct_type (ctx_exif_info_members a)))%nat)
    by (cbn; lia).
  unfold sizeof_ctx_exif_info. cbn [struct_type c_size].
  set (al := foldr _ _ _) in *. cbn [c_align struct_type] in Hall. fold al in Hall.
  generalize dependent (t_tiff_writing a). intros tw Hw.
  destruct Hin as [<-|[<-|[<-|[<-|[]]]]];
    unfold offsetof, ctx_exif_info_members;
    cbn [member_index layout layout_end nth c_size c_align t_pointer t_uint t_tm];
    align_facts; lia.
Qed.

(** C9.  The [memset] at the start of [jpgutl_exif] clears
    [sizeof(size_t)] bytes, fewer than [sizeof(ctx_exif_info)], and the
    bytes of [ifd0_tagcount], [ifd1_tagcount], [datasize] and [ifds_size]
    lie past them: after the [memset] each of the four holds what the
    allocation held, zero or not. *)
Theorem C9_memset_leaves_counters a b :
  abi_ok a -> length b = sizeof_ctx_exif_info a ->
  (sizeof_size_t a < sizeof_ctx_exif_info a)%nat /\
  exists b', jpgutl_exif_memset a b = Some b' /\
    take (sizeof_size_t a) b' = replicate (sizeof_size_t a) 0 /\
    drop (sizeof_size_t a) b' = drop (sizeof_size_t a) b /\
    forall m, In m counter_members -> member_bytes a m b' = member_bytes a m b.
Proof.
  intros Hok Hlen.
  pose proof (offsetof_counter a M_ifd0_tagcount Hok ltac:(left; done)) as [H1 H2].
  assert (Hlt : (sizeof_size_t a < sizeof_ctx_exif_info a)%nat)
    by (destruct Hok as (_ & ? & _); lia).
  split; [exact Hlt|].
  unfold jpgutl_exif_memset, memcpy. rewrite length_replicate.
  case_decide; [|lia]. eexists. split; [reflexivity|].
  rewrite take_0, app_nil_l, Nat.add_0_l. split; [|split].
  - rewrite take_app_length'; [done|by rewrite length_replicate].
  - rewrite drop_app_length'; [done|by rewrite length_replicate].
  - intros m Hm. destruct (offsetof_counter a m Hok Hm) as [Hm1 Hm2].
    unfold member_bytes. f_equal.
    rewrite drop_app_ge by (rewrite length_replicate; lia).
    rewrite length_replicate, drop_drop. f_equal. lia.
Qed.

Lemma C9_witness :
  abi_ok lp64 /\ length (replicate 144 0xAA) = sizeof_ctx_exif_info lp64 /\
  (sizeof_size_t lp64 < sizeof_ctx_exif_info lp64)%nat /\
  exists b', jpgutl_exif_memset lp64 (replicate 144 0xAA) = Some b' /\
    take (sizeof_size_t lp64) b' = replicate (sizeof_size_t lp64) 0 /\
    drop (sizeof_size_t lp64) b' = drop (sizeof_size_t lp64) (replicate 144 0xAA) /\
    forall m, In m counter_members ->
      member_bytes lp64 m b' = member_bytes lp64 m (replicate 144 0xAA).
Proof.
  assert (H1 : abi_ok lp64) by (cbv; repeat split; lia).
  assert (H2 : length (replicate 144 0xAA) = sizeof_ctx_exif_info lp64)
    by (vm_compute; reflexivity).
  split; [exact H1|]. split; [exact H2|].
  apply (C9_memset_leaves_counters lp64 (replicate 144 0xAA) H1 H2).
Defined.

(** On x86-64 the [memset] clears [cam] only; an allocation filled with
    [0xAA] leaves every counter at [0xAAAAAAAA]. *)
Lemma lp64_counters_survive_memset :
  sizeof_ctx_exif_info lp64 = 144%nat /\
  map (offsetof lp64) counter_members = [104; 108; 112; 116]%nat /\
  (b ← jpgutl_exif_memset lp64 (replicate 144 0xAA);
   Some (map (fun m => member_bytes lp64 m b) counter_members))
  = Some (replicate 4 (replicate 4 0xAA)).
Proof. repeat split; vm_compute; reflexivity. Qed.

(** * Reading the DateTime field back *)

Lemma rd8_app_ge (A L : list Z) p :
  (length A <= p)%nat -> rd8 (A ++ L) p = rd8 L (p - length A).
Proof. intros. unfold rd8. by rewrite app_nth2 by lia. Qed.

Lemma rd16_app_ge (A L : list Z) p :
  (length A <= p)%nat -> rd16 (A ++ L) p = rd16 L (p - length A).
Proof.
  intros. unfold rd16. rewrite !rd8_app_ge by lia. do 3 f_equal. lia.
Qed.

Lemma rd32_app_ge (A L : list Z) p :
  (length A <= p)%nat -> rd32 (A ++ L) p = rd32 L (p - length A).
Proof.
  intros. unfold rd32. rewrite !rd16_app_ge by lia. do 3 f_equal. lia.
Qed.

Lemma byte_of_shift v k :
  0 <= k ->
  u_char (Z.shiftr (Z.land v (Z.shiftl 255 k)) k) = (v / 2 ^ k) mod 256.
Proof.
  intros Hk. unfold u_char.
  rewrite Z.shiftr_land, Z.shiftr_shiftl_l, Z.sub_diag, Z.shiftl_0_r by lia.
  change 255 with (Z.ones 8). rewrite Z.land_ones by lia.
  rewrite Z.shiftr_div_pow2 by lia. change (2 ^ 8) with 256.
  by rewrite Z.mod_mod by lia.
Qed.

Lemma byte_low v : u_char (Z.land v 255) = v mod 256.
Proof.
  unfold u_char. change 255 with (Z.ones 8). rewrite Z.land_ones by lia.
  change (2 ^ 8) with 256. by rewrite Z.mod_mod by lia.
Qed.

Lemma rd32_be32 v L : 0 <= v < 2 ^ 32 -> rd32 (be32 v ++ L) 0 = v.
Proof.
  intros Hv. unfold rd32, rd16, rd8, be32. cbn [app nth Nat.add].
  pose proof (byte_of_shift v 24 ltac:(lia)) as H3.
  pose proof (byte_of_shift v 16 ltac:(lia)) as H2.
  pose proof (byte_of_shift v 8 ltac:(lia)) as H1.
  change (Z.shiftl 255 24) with 0xFF000000 in H3.
  change (Z.shiftl 255 16) with 0x00FF0000 in H2.
  change (Z.shiftl 255 8) with 0x0000FF00 in H1.
  rewrite H3, H2, H1, byte_low.
  change (2 ^ 24) with 16777216. change (2 ^ 16) with 65536.
  change (2 ^ 8) with 256. lia.
Qed.

Lemma find_map_seq (f : nat -> ifd_entry) tag n s k :
  map entry_tag (map f (seq s n)) !! k = Some tag ->
  (forall j, (j < k)%nat -> map entry_tag (map f (seq s n)) !! j <> Some tag) ->
  find (fun e => entry_tag e =? tag) (map f (seq s n)) = Some (f (s + k)%nat).
Proof.
  revert k s. induction n as [|n IH]; intros k s Hk Hj; [done|].
  cbn [seq map find] in *. destruct k as [|k].
  - injection Hk as Hk. rewrite Hk, Z.eqb_refl. by rewrite Nat.add_0_r.
  - destruct (Z.eqb_spec (entry_tag (f s)) tag) as [He|He].
    + exfalso. apply (Hj 0%nat); [lia|]. cbn [lookup list_lookup]. by rewrite He.
    + rewrite (IH k (S s)).
      * do 2 f_equal. lia.
      * exact Hk.
      * intros j Hlt. apply (Hj (S j)). lia.
Qed.

Lemma find_entry_at tag m p k :
  ifd_tags m p !! k = Some tag ->
  (forall j, (j < k)%nat -> ifd_tags m p !! j <> Some tag) ->
  find_entry tag (read_ifd m p) = Some (read_entry m (p + 2 + 12 * k)).
Proof.
  intros Hk Hj. unfold find_entry, read_ifd.
  by rewrite (find_map_seq _ tag _ 0 k Hk Hj).
Qed.

Lemma img_stringentry_ool_eq E tag s with_nul i :
  4 < Z.of_nat (length (str_data s with_nul)) ->
  img_stringentry E tag s with_nul i
  = (i.1 ++ be16 tag ++ be16 TIFF_TYPE_ASCII ++
     be32 (Z.of_nat (length (str_data s with_nul))) ++
     be32 (Z.of_nat (E + length i.2) - 6 + (- (Z.of_nat (E + length i.2) - 6)) mod 4),
     i.2 ++ replicate (Z.to_nat ((- (Z.of_nat (E + length i.2) - 6)) mod 4)) 0 ++
     str_data s with_nul).
Proof.
  intros Hn. unfold img_stringentry.
  destruct (Z.leb_spec (Z.of_nat (length (str_data s with_nul))) 4); [lia|].
  by rewrite <- !app_assoc.
Qed.

Lemma take_drop_at (M A B C : list Z) p n :
  M = A ++ B ++ C -> p = length A -> n = length B -> take n (drop p M) = B.
Proof. intros -> -> ->. by rewrite drop_app_length, take_app_length. Qed.

Ltac eval_dir_end :=
  repeat match goal with
  | H : context [Z.to_nat (14 + inventory_ifds_size ?r)] |- _ =>
      let v := eval vm_compute in (Z.to_nat (14 + inventory_ifds_size r)) in
      change (Z.to_nat (14 + inventory_ifds_size r)) with v in H
  end.

Ltac eval_counts_in H :=
  repeat match type of H with
  | context [tag_count1 ?r >? 0] =>
      let v := eval vm_compute in (tag_count1 r >? 0) in
      change (tag_count1 r >? 0) with v in H
  end.

Ltac shape_description H :=
  try match type of H with
  | context [img_stringentry ?E TIFF_TAG_IMAGE_DESCRIPTION ?s ?n ?i] =>
      let a := fresh "a" in let b := fresh "b" in let c := fresh "c" in
      let d := fresh "d" in let o := fresh "o" in let Hs := fresh "Hs" in
      destruct (img_stringentry_shape E TIFF_TAG_IMAGE_DESCRIPTION s n i)
        as (a & b & c & d & o & ? & Hs);
      rewrite Hs in H; clear Hs
  end.

Ltac peel rd_app_ge :=
  cbn [Nat.add Nat.mul];
  repeat (rewrite rd_app_ge by (autorewrite with len; cbn [length]; lia);
          autorewrite with len; cbn [length Nat.sub]).

(** The pieces of a right-nested append before and after its first
    piece [B]. *)
Ltac pieces_before B L :=
  lazymatch L with
  | B ++ ?C => constr:(@nil Z)
  | ?X ++ ?R => let A := pieces_before B R in constr:(X ++ A)
  end.
Ltac pieces_after B L :=
  lazymatch L with
  | B ++ ?C => constr:(C)
  | ?X ++ ?R => pieces_after B R
  end.

Ltac datetime_at m dt Hm k :=
  rewrite (find_entry_at TIFF_TAG_DATETIME m 14 k);
    [|match goal with H : ifd_tags m 14 = _ |- _ => by rewrite H end
     |let j := fresh "j" in
      intros j ?; destruct j as [|j];
      first [lia | match goal with H : ifd_tags m 14 = _ |- _ => by rewrite H end]];
  match goal with
  | n0 := _, v0 := _ |- _ =>
      assert (rd32 m (14 + 2 + 12 * k + 4) = n0) as Hcount
        by (rewrite Hm; peel rd32_app_ge; by apply rd32_be32);
      assert (rd32 m (14 + 2 + 12 * k + 8) = v0) as Hvalue
        by (rewrite Hm; peel rd32_app_ge; by apply rd32_be32);
      eexists; split; [reflexivity|];
      unfold entry_payload; cbn [entry_type entry_count entry_value read_entry];
      rewrite Hcount, Hvalue;
      split; [by rewrite Hm; vm_compute|];
      split; [subst n0; rewrite ?length_str_data; lia|];
      lazymatch type of Hm with
      | _ = ?L =>
          let A := pieces_before (str_data dt true) L in
          let C := pieces_after (str_data dt true) L in
          apply (take_drop_at m A (str_data dt true) C)
      end;
      [ rewrite Hm at 1; rewrite <- ?app_assoc, ?app_nil_l; reflexivity
      | autorewrite with len; unfold tiff_base; subst v0; cbn [length]; lia
      | subst n0; rewrite ?length_str_data; lia ]
  end.

Lemma datetime_entry w cm ts bx t desc dt len m :
  (4 <= length dt)%nat ->
  inventory_fits (Ctx_exif_info cm ts bx t desc (Some dt) None 0 0 0 0) ->
  jpgutl_exif_from w (Ctx_exif_info cm ts bx t desc (Some dt) None 0 0 0 0)
  = Some (len, Some m) ->
  exists en,
    find_entry TIFF_TAG_DATETIME (read_ifd m (ifd0_pos m)) = Some en /\
    entry_type en = TIFF_TYPE_ASCII /\
    entry_count en = Z.of_nat (length dt) + 1 /\
    entry_payload m en = dt ++ [0].
Proof.
  intros Hdt Hfit Hrun.
  assert (Hz : counters_zeroed (Ctx_exif_info cm ts bx t desc (Some dt) None 0 0 0 0))
    by (repeat split).
  destruct (jpgutl_exif_from_inv w _ len m Hz Hfit Hrun) as (Hany & _ & Hm).
  clear Hrun Hany. unfold exif_img in Hm. rewrite (jpgutl_exif_tags_eq _ Hz Hfit) in Hm.
  unfold img_ifd0, img_ifd1, inventoried in Hm.
  cbn [description datetime subtime box ifd0_tagcount ifd1_tagcount
       timestamp_tm ifds_size] in Hm.
  unfold inventory_fits, inventory_ifds_size, inventory_datasize, tag_count0,
    tag_count1, booked, strlen in Hfit.
  cbn [description datetime subtime box opt_n] in Hfit. clear Hz.
  (destruct desc as [ds|], bx as [bx|]; eval_counts_in Hm; cbn [img_when] in Hm;
    shape_description Hm;
    rewrite !img_stringentry_ool_eq in Hm by (rewrite length_str_data; lia);
    unfold img_bytes, img_subjectarea in Hm; cbn [fst snd] in Hm;
    eval_dir_end; rewrite <- !app_assoc, ?app_nil_l in Hm;
    simpl in Hfit).
  all: match type of Hm with
       | context [be16 TIFF_TAG_DATETIME ++ be16 TIFF_TYPE_ASCII ++
                  be32 ?n ++ be32 ?v ++ _] =>
           assert (Hn : 0 <= n < 2 ^ 32) by (rewrite ?length_str_data; lia);
           assert (Hv : 0 <= v < 2 ^ 32) by (rewrite ?length_str_data in *; cbn [length]; lia);
           set (n0 := n) in *; set (v0 := v) in *
       end.
  all: assert (Hpos : ifd0_pos m = 14%nat) by (rewrite Hm; vm_compute; reflexivity);
    rewrite Hpos.
  all: match type of Hm with
       | _ = ?L =>
           let l := eval vm_compute in (ifd_tags L 14) in
           assert (Htags : ifd_tags m 14 = l) by (rewrite Hm; vm_compute; reflexivity)
       end.
  - datetime_at m dt Hm 1%nat.
  - datetime_at m dt Hm 1%nat.
  - datetime_at m dt Hm 0%nat.
  - datetime_at m dt Hm 0%nat.
Qed.

(** C5, as the code has it.  For the timestamp components
    (2024,3,7,13,5,9) the DateTime entry of IFD0 (tag 0x0132, ASCII) has
    count 20 and points to the 19 characters "2024:03:07 13:05:09" followed
    by a NUL: 20 bytes, whatever the description and the region. *)
Theorem C5_datetime_field w fresh cm ts bx len m :
  counters_zeroed fresh ->
  strlen (mystrftime w cm (PATH_MAX - 1) (picture_exif cm)) < PATH_MAX ->
  tm_components (timestamp_tm (jpgutl_exif_date w (exif_info_init fresh cm ts bx)))
  = (2024, 3, 7, 13, 5, 9) ->
  jpgutl_exif w fresh cm ts bx = Some (len, Some m) ->
  exists en,
    find_entry TIFF_TAG_DATETIME (read_ifd m (ifd0_pos m)) = Some en /\
    entry_type en = TIFF_TYPE_ASCII /\
    entry_count en = 20 /\
    entry_payload m en = ascii_bytes "2024:03:07 13:05:09" ++ [0] /\
    length (entry_payload m en) = 20%nat.
Proof.
  intros Hz Hlen Hcomp Hrun. unfold jpgutl_exif in Hrun.
  destruct (jpgutl_exif_date_ready w (exif_info_init fresh cm ts bx) Hz Hlen)
    as (_ & Hfit & _).
  destruct Hz as (H0 & H1 & H2 & H3).
  unfold tm_components in Hcomp.
  unfold jpgutl_exif_date, exif_info_init in *.
  cbn [cam ts_in1 box timestamp_tm ifd0_tagcount ifd1_tagcount datasize
       ifds_size] in *.
  injection Hcomp as Hy Hmo Hd Hh Hmi Hs.
  rewrite Hy, Hmo, Hd, Hh, Hmi, Hs, H0, H1, H2, H3 in Hrun, Hfit.
  change (snprintf 22 (take 21 (snprintf 45 _)))
    with (ascii_bytes "2024:03:07 13:05:09") in Hrun, Hfit.
  assert (H19 : (4 <= length (ascii_bytes "2024:03:07 13:05:09"))%nat)
    by (vm_compute; lia).
  destruct (datetime_entry w _ _ _ _ _ _ len m H19 Hfit Hrun)
    as (en & Hfind & Hty & Hcnt & Hpay).
  exists en. rewrite Hpay. repeat split; try done.
Qed.

Lemma C5_witness :
  counters_zeroed zeroed_info /\
  strlen (mystrftime sample_world (Cls_camera []) (PATH_MAX - 1)
            (picture_exif (Cls_camera []))) < PATH_MAX /\
  tm_components
    (timestamp_tm (jpgutl_exif_date sample_world
                     (exif_info_init zeroed_info (Cls_camera []) None None)))
  = (2024, 3, 7, 13, 5, 9) /\
  jpgutl_exif sample_world zeroed_info (Cls_camera []) None None
  = Some (126, Some sample_marker) /\
  exists en,
    find_entry TIFF_TAG_DATETIME (read_ifd sample_marker (ifd0_pos sample_marker))
    = Some en /\
    entry_type en = TIFF_TYPE_ASCII /\
    entry_count en = 20 /\
    entry_payload sample_marker en = ascii_bytes "2024:03:07 13:05:09" ++ [0] /\
    length (entry_payload sample_marker en) = 20%nat.
Proof.
  assert (Hz : counters_zeroed zeroed_info) by (repeat split).
  assert (Hl : strlen (mystrftime sample_world (Cls_camera []) (PATH_MAX - 1)
                         (picture_exif (Cls_camera []))) < PATH_MAX)
    by (vm_compute; reflexivity).
  assert (Hc : tm_components
    (timestamp_tm (jpgutl_exif_date sample_world
                     (exif_info_init zeroed_info (Cls_camera []) None None)))
    = (2024, 3, 7, 13, 5, 9)) by reflexivity.
  assert (Hrun : jpgutl_exif sample_world zeroed_info (Cls_camera []) None None
                 = Some (126, Some sample_marker)) by (vm_compute; reflexivity).
  split; [exact Hz|]. split; [exact Hl|]. split; [exact Hc|]. split; [exact Hrun|].
  apply (C5_datetime_field sample_world zeroed_info (Cls_camera []) None None
           126 sample_marker Hz Hl Hc Hrun).
Defined.

(** C5, as stated, fails: the field holds the 19 characters and the NUL,
    20 bytes and not 21. *)
Lemma C5_counterexample :
  tm_components sample_tm = (2024, 3, 7, 13, 5, 9) /\
  jpgutl_exif sample_world zeroed_info (Cls_camera []) None None
  = Some (126, Some sample_marker) /\
  (en ← find_entry TIFF_TAG_DATETIME
          (read_ifd sample_marker (ifd0_pos sample_marker));
   Some (entry_count en, entry_payload sample_marker en))
  = Some (20, ascii_bytes "2024:03:07 13:05:09" ++ [0]) /\
  length (ascii_bytes "2024:03:07 13:05:09" ++ [0]) = 20%nat /\
  20%nat <> 21%nat.
Proof. repeat split; vm_compute; congruence. Qed.

(** * Properties of the decoded planes *)

Lemma land_1 v : Z.land v 1 = v mod 2.
Proof. change 1 with (Z.ones 1). by rewrite Z.land_ones. Qed.

Lemma even_mod2 (c : nat) : Nat.even c = (Z.of_nat c mod 2 =? 0).
Proof.
  destruct (Z.eqb_spec (Z.of_nat c mod 2) 0) as [H|H].
  - apply Nat.even_spec. exists (Z.to_nat (Z.of_nat c / 2)). lia.
  - destruct (Nat.even c) eqn:He; [|done].
    apply Nat.even_spec in He as [k ->]. lia.
Qed.

(** The loop over the samples of a line stores what the fold over its
    pixels stores. *)
Lemma demux_line_cols (w : nat) fuel c0 wline p :
  Z.of_nat w * 3 < 2 ^ 32 -> (c0 <= w)%nat -> (w - c0 <= fuel)%nat ->
  demux_line fuel (3 * Z.of_nat c0) (Z.of_nat w) wline p
  = Some (Planes
            (demux_cols wline (img_y p) (img_cb p) (img_cr p) (seq c0 (w - c0))
               (mem p))
            (img_y p) (img_cb p) (img_cr p) (offset_y p)).
Proof.
  intros Hw. revert c0 p. induction fuel as [|fuel IH]; intros c0 p Hc Hf;
    cbn [demux_line]; rewrite (uint_small (Z.of_nat w * 3)) by lia;
    destruct (Z.ltb_spec (3 * Z.of_nat c0) (Z.of_nat w * 3)) as [Hlt|Hge].
  - lia.
  - replace (w - c0)%nat with 0%nat by lia. by destruct p.
  - replace (w - c0)%nat with (S (w - S c0)) by lia.
    cbn [seq demux_cols fold_left].
    rewrite !uint_small by lia.
    replace (3 * Z.of_nat c0 + 3) with (3 * Z.of_nat (S c0)) by lia.
    rewrite IH by lia. cbn [mem img_y img_cb img_cr offset_y].
    unfold demux_cols, demux_col. do 3 f_equal.
    rewrite land_1, even_mod2.
    replace (Z.to_nat (3 * Z.of_nat c0 / 3)) with c0 by lia.
    replace (Z.to_nat (3 * Z.of_nat c0)) with (3 * c0)%nat by lia.
    replace (Z.to_nat (3 * Z.of_nat c0 + 1)) with (3 * c0 + 1)%nat by lia.
    replace (Z.to_nat (3 * Z.of_nat c0 + 2)) with (3 * c0 + 2)%nat by lia.
    replace (3 * Z.of_nat c0 mod 2) with (Z.of_nat c0 mod 2) by lia.
    done.
  - replace (w - c0)%nat with 0%nat by lia. by destruct p.
Qed.

(** Division by two on [nat], as facts for [lia]. *)
Ltac half_facts :=
  repeat match goal with
  | |- context [(?n / 2)%nat] =>
      lazymatch goal with
      | _ : n = (2 * (n / 2) + n mod 2)%nat |- _ => fail
      | _ => pose proof (Nat.div_mod_eq n 2);
             pose proof (Nat.mod_upper_bound n 2 ltac:(lia))
      end
  | _ : context [(?n / 2)%nat] |- _ =>
      lazymatch goal with
      | _ : n = (2 * (n / 2) + n mod 2)%nat |- _ => fail
      | _ => pose proof (Nat.div_mod_eq n 2);
             pose proof (Nat.mod_upper_bound n 2 ltac:(lia))
      end
  end.

Ltac goal_decide :=
  repeat match goal with |- context [decide ?P] => destruct (decide P) end.

(** What a line leaves at each address, when the three rows it writes do
    not overlap. *)
Lemma demux_cols_lookup wline y cb cr (n : nat) m k :
  (y + n <= cb)%nat -> (cb + n / 2 <= cr)%nat ->
  demux_cols wline y cb cr (seq 0 n) m !! k
  = if decide (y <= k < y + n)%nat then Some (nth (3 * (k - y)) wline 0)
    else if decide (cb <= k < cb + n / 2)%nat
         then Some (nth (3 * (2 * (k - cb) + 1) + 1) wline 0)
    else if decide (cr <= k < cr + n / 2)%nat
         then Some (nth (3 * (2 * (k - cr) + 1) + 2) wline 0)
    else m !! k.
Proof.
  unfold demux_cols. revert k. induction n as [|n IH]; intros k Hy Hcb.
  - cbn [seq fold_left]. half_facts. goal_decide; try lia. done.
  - rewrite seq_S, fold_left_app. cbn [fold_left Nat.add].
    half_facts.
    unfold demux_col at 1. destruct (Nat.even n) eqn:He.
    + apply Nat.even_spec in He as [h ->].
      assert (S (2 * h) / 2 = h)%nat as Hh by lia.
      assert (2 * h / 2 = h)%nat as Hh' by lia.
      rewrite Hh, Hh' in *.
      destruct (decide (k = y + 2 * h)%nat) as [->|Hk].
      * rewrite lookup_insert_eq. goal_decide; try lia. do 3 f_equal. lia.
      * rewrite lookup_insert_ne by done. rewrite IH by lia.
        goal_decide; try lia; done.
    + assert (Nat.odd n = true) as Ho by (by rewrite <- Nat.negb_even, He).
      apply Nat.odd_spec in Ho as [h ->].
      assert (S (2 * h + 1) / 2 = h + 1)%nat as Hh by lia.
      assert ((2 * h + 1) / 2 = h)%nat as Hh' by lia.
      rewrite Hh, Hh' in *.
      destruct (decide (k = cr + h)%nat) as [->|Hk1].
      { rewrite lookup_insert_eq. goal_decide; try lia. do 3 f_equal. lia. }
      rewrite lookup_insert_ne by done.
      destruct (decide (k = cb + h)%nat) as [->|Hk2].
      { rewrite lookup_insert_eq. goal_decide; try lia. do 3 f_equal. lia. }
      rewrite lookup_insert_ne by done.
      destruct (decide (k = y + (2 * h + 1))%nat) as [->|Hk3].
      { rewrite lookup_insert_eq. goal_decide; try lia. do 3 f_equal. lia. }
      rewrite lookup_insert_ne by done. rewrite IH by lia.
      goal_decide; try lia; done.
Qed.

Lemma demux_line_whole (w : nat) wline p :
  Z.of_nat w * 3 < 2 ^ 32 ->
  demux_line (Z.to_nat (uint (Z.of_nat w * 3))) 0 (Z.of_nat w) wline p
  = Some (Planes
            (demux_cols wline (img_y p) (img_cb p) (img_cr p) (seq 0 w) (mem p))
            (img_y p) (img_cb p) (img_cr p) (offset_y p)).
Proof.
  intros Hw. rewrite uint_small by lia.
  pose proof (demux_line_cols w (Z.to_nat (Z.of_nat w * 3)) 0 wline p Hw) as H.
  rewrite Nat.sub_0_r in H. apply H; lia.
Qed.

(** The loop over the scanlines, when it runs to its end, stores what the
    fold over the lines stores: the luma pointer moves on by a row after
    each line, the chroma pointers after each second line. *)
Lemma read_rows_planes J c (w : nat) cb cr rows k ws p ws' p' :
  Z.of_nat w * 3 < 2 ^ 32 ->
  img_y p = (k * w)%nat ->
  img_cb p = (cb + k / 2 * (w / 2))%nat ->
  img_cr p = (cr + k / 2 * (w / 2))%nat ->
  0 <= offset_y p -> offset_y p mod 2 = Z.of_nat k mod 2 ->
  read_rows J c (Z.of_nat w) rows k ws p = Some (Rows_done ws' p') ->
  (forall j, (k <= j < k + rows)%nat -> call_result (read_scanlines c j) <> None) /\
  mem p' = demux_rows (scanline c) w cb cr (seq k rows) (mem p).
Proof.
  intros Hw. revert k ws p.
  induction rows as [|rows IH]; intros k ws p Hy Hcb Hcr Ho0 Ho;
    cbn [read_rows seq demux_rows fold_left].
  { intros [= <- <-]. split; [lia|done]. }
  destruct (call_result (read_scanlines c k)) as [wline|] eqn:Hc; [|done].
  rewrite demux_line_whole by done. cbn [mbind option_bind].
  cbn [mem img_y img_cb img_cr offset_y].
  assert (Hhalf : Z.to_nat (Z.of_nat w / 2) = (w / 2)%nat).
  { rewrite <- (Nat2Z.id (w / 2)). f_equal. by rewrite Nat2Z.inj_div. }
  assert (Hline : scanline c k = wline) by (unfold scanline; by rewrite Hc).
  rewrite land_1, Hhalf, Nat2Z.id.
  intros Hr.
  assert (Hk2 : (Z.of_nat k mod 2 = 0 /\ (S k / 2 = k / 2)%nat) \/
                (Z.of_nat k mod 2 = 1 /\ (S k / 2 = k / 2 + 1)%nat)).
  { half_facts. lia. }
  destruct (Z.eqb_spec (offset_y p mod 2) 0) as [He|He];
    (apply IH in Hr; cbn [mem img_y img_cb img_cr offset_y];
     [ destruct Hr as [Hrest Hmem]; split;
       [ intros j Hj; destruct (decide (j = k)) as [->|?]; [by rewrite Hc|];
         apply Hrest; lia
       | rewrite Hmem; f_equal; unfold demux_row; by rewrite Hline, Hy, Hcb, Hcr ]
     | lia
     | rewrite Hcb; destruct Hk2 as [[? ->]|[? ->]]; lia
     | rewrite Hcr; destruct Hk2 as [[? ->]|[? ->]]; lia
     | unfold u_char; lia
     | unfold u_char; lia ]).
Qed.

(** What the lines [0 .. n-1] leave: each luma sample where its row and
    column say, the chroma samples of the odd columns of the odd lines in
    the chroma planes, and nothing past the chroma rows. *)
Lemma demux_rows_lookup lines (w cb cr hh n total : nat) m :
  (n <= total)%nat -> (total * w <= cb)%nat -> ((n + 1) / 2 <= hh)%nat ->
  (cb + hh * (w / 2) <= cr)%nat ->
  let m' := demux_rows lines w cb cr (seq 0 n) m in
  (forall r col, (r < n)%nat -> (col < w)%nat ->
     m' !! (r * w + col)%nat = Some (nth (3 * col) (lines r) 0)) /\
  (forall r col, (2 * r + 1 < n)%nat -> (col < w / 2)%nat ->
     m' !! (cb + r * (w / 2) + col)%nat
     = Some (nth (3 * (2 * col + 1) + 1) (lines (2 * r + 1)%nat) 0) /\
     m' !! (cr + r * (w / 2) + col)%nat
     = Some (nth (3 * (2 * col + 1) + 2) (lines (2 * r + 1)%nat) 0)) /\
  (forall k, (cr + hh * (w / 2) <= k)%nat -> m' !! k = m !! k).
Proof.
  intros Hn Hcb Hhh Hcr. unfold demux_rows. cbv zeta.
  induction n as [|n IH].
  { cbn [seq fold_left]. repeat split; intros; (lia || done). }
  rewrite seq_S, fold_left_app. cbn [fold_left Nat.add].
  set (w2 := (w / 2)%nat) in *.
  assert (Hw2 : (2 * w2 <= w)%nat) by (subst w2; half_facts; lia).
  assert (Hn2 : (n / 2 < hh)%nat) by (half_facts; lia).
  destruct IH as (IHy & IHc & IHk); [lia|half_facts; lia|].
  set (M := fold_left _ (seq 0 n) m) in *.
  assert (Hrow : (n * w + w <= cb)%nat) by nia.
  assert (Hrow2 : (n / 2 * w2 + w2 <= hh * w2)%nat) by nia.
  unfold demux_row. fold w2.
  split; [|split].
  - intros r col Hr Hc.
    rewrite demux_cols_lookup by (fold w2; lia). fold w2.
    destruct (decide (r = n)) as [->|Hne].
    + goal_decide; try lia. do 3 f_equal. lia.
    + assert (r * w + w <= n * w)%nat by nia.
      goal_decide; try lia. apply IHy; lia.
  - intros r col Hr Hc.
    assert (Hrr : (r * w2 + w2 <= hh * w2)%nat) by (half_facts; nia).
    rewrite !demux_cols_lookup by (fold w2; lia). fold w2.
    destruct (decide (r = n / 2)%nat) as [Hrn|Hrn].
    + assert (n = 2 * r + 1)%nat as -> by (half_facts; lia). rewrite <- Hrn.
      split; goal_decide; try lia; do 3 f_equal; lia.
    + assert (r * w2 + w2 <= n / 2 * w2)%nat by (half_facts; nia).
      destruct (IHc r col) as [IH1 IH2]; [half_facts; lia|lia|].
      split; goal_decide; try lia; done.
  - intros k Hk.
    rewrite demux_cols_lookup by (fold w2; lia). fold w2.
    goal_decide; try lia. apply IHk; lia.
Qed.

(** The loop over the scanlines always ends, and what it has stored when
    it ends, by [error_exit] or not, is what the first lines store. *)
Lemma read_rows_prefix J c (w : nat) cb cr rows k ws p :
  Z.of_nat w * 3 < 2 ^ 32 ->
  img_y p = (k * w)%nat ->
  img_cb p = (cb + k / 2 * (w / 2))%nat ->
  img_cr p = (cr + k / 2 * (w / 2))%nat ->
  0 <= offset_y p -> offset_y p mod 2 = Z.of_nat k mod 2 ->
  exists r n,
    read_rows J c (Z.of_nat w) rows k ws p = Some r /\ (n <= rows)%nat /\
    rows_mem r = demux_rows (scanline c) w cb cr (seq k n) (mem p).
Proof.
  intros Hw. revert k ws p.
  induction rows as [|rows IH]; intros k ws p Hy Hcb Hcr Ho0 Ho;
    cbn [read_rows].
  { eexists _, 0%nat. split; [reflexivity|]. split; [lia|done]. }
  destruct (call_result (read_scanlines c k)) as [wline|] eqn:Hc.
  2:{ eexists _, 0%nat. split; [reflexivity|]. split; [lia|done]. }
  rewrite demux_line_whole by done. cbn [mbind option_bind].
  cbn [mem img_y img_cb img_cr offset_y].
  assert (Hhalf : Z.to_nat (Z.of_nat w / 2) = (w / 2)%nat).
  { rewrite <- (Nat2Z.id (w / 2)). f_equal. by rewrite Nat2Z.inj_div. }
  assert (Hline : scanline c k = wline) by (unfold scanline; by rewrite Hc).
  rewrite land_1, Hhalf, Nat2Z.id.
  assert (Hk2 : (Z.of_nat k mod 2 = 0 /\ (S k / 2 = k / 2)%nat) \/
                (Z.of_nat k mod 2 = 1 /\ (S k / 2 = k / 2 + 1)%nat)).
  { half_facts. lia. }
  match goal with
  | |- context [read_rows _ _ _ _ _ ?ws1 ?p1] =>
      destruct (IH (S k) ws1 p1) as (r & n & Hr & Hn & Hmem)
  end.
  1-5: destruct (Z.eqb_spec (offset_y p mod 2) 0) as [He|He];
       cbn [img_y img_cb img_cr offset_y]; unfold u_char;
       rewrite ?Hcb, ?Hcr; destruct Hk2 as [[? Hk]|[? Hk]]; rewrite ?Hk; lia.
  exists r, (S n). split; [exact Hr|]. split; [lia|].
  rewrite Hmem. cbn [seq demux_rows fold_left]. f_equal.
  unfold demux_row. rewrite Hline, Hy, Hcb, Hcr.
  by destruct (Z.eqb_spec (offset_y p mod 2) 0).
Qed.

Lemma quarter_room (w h2 : nat) :
  (h2 * (w / 2) <= Z.to_nat (Z.of_nat (w * (2 * h2)) / 4))%nat.
Proof. half_facts. nia. Qed.

(** The first pointers of a decode of the declared size. *)
Lemma decode_pointers (w h : nat) :
  Z.of_nat (w * h) < 2 ^ 32 ->
  Z.to_nat (uint (Z.of_nat w * Z.of_nat h)) = (w * h)%nat /\
  (Z.to_nat (uint (Z.of_nat w * Z.of_nat h))
   + Z.to_nat (uint (Z.of_nat w * Z.of_nat h) / 4))%nat
  = (w * h + w * h / 4)%nat.
Proof.
  intros Hwh. rewrite <- Nat2Z.inj_mul, uint_small by lia.
  rewrite Nat2Z.id. split; [done|]. f_equal.
  rewrite <- (Nat2Z.id (w * h / 4)). f_equal. by rewrite Nat2Z.inj_div.
Qed.

Lemma quarter_rows (w h2 : nat) : (h2 * (w / 2) <= w * (2 * h2) / 4)%nat.
Proof.
  pose proof (quarter_room w h2) as H.
  rewrite <- (Nat2Z.id (w * (2 * h2) / 4)), Nat2Z.inj_div. exact H.
Qed.

(** X1.  A decode that succeeds, of an image of even height, leaves the
    three planes of a 4:2:0 frame behind [img_out]: the luma sample of
    every pixel of every line, and for every pair of lines and of columns
    the chroma samples of its odd line and odd column.  The chroma of the
    even lines is stored too, and overwritten by the line that follows. *)
Theorem decode_fills_planes J c (w h2 : nat) img_out img' :
  Z.of_nat w * 3 < 2 ^ 32 -> Z.of_nat (w * (2 * h2)) < 2 ^ 32 ->
  jpgutl_decode_jpeg J c (Z.of_nat w) (Z.of_nat (2 * h2)) img_out = Some (0, img') ->
  (forall r col, (r < 2 * h2)%nat -> (col < w)%nat ->
     img' !! (r * w + col)%nat = Some (nth (3 * col) (scanline c r) 0)) /\
  (forall r col, (r < h2)%nat -> (col < w / 2)%nat ->
     img' !! (w * (2 * h2) + r * (w / 2) + col)%nat
     = Some (nth (3 * (2 * col + 1) + 1) (scanline c (2 * r + 1)) 0) /\
     img' !! (w * (2 * h2) + w * (2 * h2) / 4 + r * (w / 2) + col)%nat
     = Some (nth (3 * (2 * col + 1) + 2) (scanline c (2 * r + 1)) 0)).
Proof.
  intros Hw Hwh Hrun. unfold jpgutl_decode_jpeg in Hrun.
  destruct (call_result (read_header c)); [|done].
  destruct (call_result (start_decompress c)) as [[ow oh]|]; [|done].
  destruct ((ow =? 0) || (oh =? 0)); [done|].
  destruct (Z.eqb_spec ow (Z.of_nat w)) as [->|]; [|done].
  destruct (Z.eqb_spec oh (Z.of_nat (2 * h2))) as [Hoh|]; [|done]. subst oh.
  cbn [negb orb] in Hrun. rewrite Nat2Z.id in Hrun.
  destruct (decode_pointers w (2 * h2) Hwh) as [Hcb Hcr].
  rewrite Hcr, Hcb in Hrun.
  destruct (read_rows _ _ _ _ _ _ _) as [[m1|ws' p']|] eqn:Hrows;
    cbn [mbind option_bind] in Hrun; try done.
  destruct (call_result (finish_decompress c)); [|done].
  destruct (_ >? 2); [done|]. injection Hrun as <-.
  apply (read_rows_planes J c w (w * (2 * h2)) (w * (2 * h2) + w * (2 * h2) / 4))
    in Hrows as [_ ->]; cbn [mem img_y img_cb img_cr offset_y];
    [|done|lia|cbn; lia|cbn; lia|lia|done].
  pose proof (quarter_rows w h2) as Hq.
  destruct (demux_rows_lookup (scanline c) w (w * (2 * h2))
              (w * (2 * h2) + w * (2 * h2) / 4) h2 (2 * h2) (2 * h2) img_out)
    as (Hy & Hc & _); [lia|lia|half_facts; lia|lia|].
  split; [exact Hy|]. intros r col Hr Hcol. apply Hc; lia.
Qed.

Lemma decode_fills_planes_witness :
  Z.of_nat 4 * 3 < 2 ^ 32 /\ Z.of_nat (4 * (2 * 1)) < 2 ^ 32 /\
  jpgutl_decode_jpeg 119 gradient_codec (Z.of_nat 4) (Z.of_nat (2 * 1)) ∅
  = Some (0, gradient_planes) /\
  (forall r col, (r < 2 * 1)%nat -> (col < 4)%nat ->
     gradient_planes !! (r * 4 + col)%nat
     = Some (nth (3 * col) (scanline gradient_codec r) 0)) /\
  (forall r col, (r < 1)%nat -> (col < 4 / 2)%nat ->
     gradient_planes !! (4 * (2 * 1) + r * (4 / 2) + col)%nat
     = Some (nth (3 * (2 * col + 1) + 1) (scanline gradient_codec (2 * r + 1)) 0) /\
     gradient_planes !! (4 * (2 * 1) + 4 * (2 * 1) / 4 + r * (4 / 2) + col)%nat
     = Some (nth (3 * (2 * col + 1) + 2) (scanline gradient_codec (2 * r + 1)) 0)).
Proof.
  assert (H1 : Z.of_nat 4 * 3 < 2 ^ 32) by (vm_compute; reflexivity).
  assert (H2 : Z.of_nat (4 * (2 * 1)) < 2 ^ 32) by (vm_compute; reflexivity).
  assert (H3 : jpgutl_decode_jpeg 119 gradient_codec (Z.of_nat 4)
                 (Z.of_nat (2 * 1)) ∅ = Some (0, gradient_planes))
    by (vm_compute; reflexivity).
  split; [exact H1|]. split; [exact H2|]. split; [exact H3|].
  apply (decode_fills_planes 119 gradient_codec 4 1 ∅ gradient_planes H1 H2 H3).
Defined.

(** X2.  Whatever the codec does, a decode of an image of even height
    returns, and it stores nothing past the three planes: the bytes from
    [width * height + 2 * (width * height / 4)] on are those it found. *)
Theorem decode_stays_in_frame J c (w h2 : nat) img_out :
  Z.of_nat w * 3 < 2 ^ 32 -> Z.of_nat (w * (2 * h2)) < 2 ^ 32 ->
  exists ret img',
    jpgutl_decode_jpeg J c (Z.of_nat w) (Z.of_nat (2 * h2)) img_out
    = Some (ret, img') /\
    forall k, (w * (2 * h2) + 2 * (w * (2 * h2) / 4) <= k)%nat ->
      img' !! k = img_out !! k.
Proof.
  intros Hw Hwh. unfold jpgutl_decode_jpeg.
  destruct (call_result (read_header c)); [|by eauto].
  destruct (call_result (start_decompress c)) as [[ow oh]|]; [|by eauto].
  destruct ((ow =? 0) || (oh =? 0)); [by eauto|].
  destruct (Z.eqb_spec ow (Z.of_nat w)) as [How|]; [|by eauto]. subst ow.
  destruct (Z.eqb_spec oh (Z.of_nat (2 * h2))) as [Hoh|]; [|by eauto]. subst oh.
  cbn [negb orb]. rewrite Nat2Z.id.
  destruct (decode_pointers w (2 * h2) Hwh) as [Hcb Hcr]. rewrite Hcr, Hcb.
  match goal with
  | |- context [read_rows _ _ _ ?rows ?k ?ws ?p] =>
      destruct (read_rows_prefix J c w (w * (2 * h2))
                  (w * (2 * h2) + w * (2 * h2) / 4) rows k ws p)
        as (r & n & -> & Hn & Hmem)
  end; cbn [mem img_y img_cb img_cr offset_y] in *;
    [done|lia|cbn; lia|cbn; lia|lia|done|].
  cbn [mbind option_bind].
  pose proof (quarter_rows w h2) as Hq.
  destruct (demux_rows_lookup (scanline c) w (w * (2 * h2))
              (w * (2 * h2) + w * (2 * h2) / 4) h2 n (2 * h2) img_out)
    as (_ & _ & Hk); [lia|lia|half_facts; lia|lia|].
  rewrite <- Hmem in Hk.
  assert (Hfar : forall k, (w * (2 * h2) + 2 * (w * (2 * h2) / 4) <= k)%nat ->
                   rows_mem r !! k = img_out !! k)
    by (intros k Hge; apply Hk; lia).
  destruct r as [m1|ws' p']; cbn [rows_mem] in Hfar; [by eauto|].
  destruct (call_result (finish_decompress c)); [|by eauto].
  destruct (_ >? 2); by eauto.
Qed.

Lemma decode_stays_in_frame_witness :
  Z.of_nat 4 * 3 < 2 ^ 32 /\ Z.of_nat (4 * (2 * 1)) < 2 ^ 32 /\
  exists ret img',
    jpgutl_decode_jpeg 119 gradient_codec (Z.of_nat 4) (Z.of_nat (2 * 1))
      (<[12%nat := 77]> ∅) = Some (ret, img') /\
    forall k, (4 * (2 * 1) + 2 * (4 * (2 * 1) / 4) <= k)%nat ->
      img' !! k = (<[12%nat := 77]> ∅ : gmap nat Z) !! k.
Proof.
  assert (H1 : Z.of_nat 4 * 3 < 2 ^ 32) by (vm_compute; reflexivity).
  assert (H2 : Z.of_nat (4 * (2 * 1)) < 2 ^ 32) by (vm_compute; reflexivity).
  split; [exact H1|]. split; [exact H2|].
  apply (decode_stays_in_frame 119 gradient_codec 4 1 (<[12%nat := 77]> ∅) H1 H2).
Defined.

(** X3.  A decode declared with a width or a height of zero fails and
    stores nothing, whatever the codec reports: a reported size of zero is
    refused, and any other size differs from the declared one. *)
Theorem decode_rejects_empty_image J c width height img_out :
  width = 0 \/ height = 0 ->
  jpgutl_decode_jpeg J c width height img_out = Some (-1, img_out).
Proof.
  intros Hz. unfold jpgutl_decode_jpeg.
  destruct (call_result (read_header c)); [|done].
  destruct (call_result (start_decompress c)) as [[ow oh]|]; [|done].
  destruct (Z.eqb_spec ow 0), (Z.eqb_spec oh 0); cbn [orb]; try done.
  destruct (Z.eqb_spec ow width), (Z.eqb_spec oh height); cbn [negb orb];
    try done. lia.
Qed.

Lemma decode_rejects_empty_image_witness :
  (0 = 0 \/ 2 = 0) /\
  jpgutl_decode_jpeg 119 (warning_codec 0) 0 2 ∅ = Some (-1, ∅).
Proof.
  assert (H : 0 = 0 \/ 2 = 0) by (left; reflexivity).
  split; [exact H|].
  apply (decode_rejects_empty_image 119 (warning_codec 0) 0 2 ∅ H).
Defined.

(** A loop over the scanlines that runs to its end was delivered every
    line. *)
Lemma read_rows_delivered J c output_width rows k ws p ws' p' :
  read_rows J c output_width rows k ws p = Some (Rows_done ws' p') ->
  forall j, (k <= j < k + rows)%nat -> call_result (read_scanlines c j) <> None.
Proof.
  revert k ws p. induction rows as [|rows IH]; intros k ws p;
    cbn [read_rows]; [intros _ j; lia|].
  destruct (call_result (read_scanlines c k)) as [wline|] eqn:Hc; [|done].
  destruct (demux_line _ _ _ _ _) as [p1|]; [|done]. cbn [mbind option_bind].
  intros Hr j Hj. destruct (decide (j = k)) as [->|Hne]; [by rewrite Hc|].
  apply (IH _ _ _ Hr). lia.
Qed.

(** X4.  A decode returns 0 only when no call into the codec ended in
    [error_exit], the codec reported the declared size, not zero, every
    line was delivered and at most two warnings were counted. *)
Theorem decode_success_inv J c width height img_out img' :
  jpgutl_decode_jpeg J c width height img_out = Some (0, img') ->
  call_result (read_header c) <> None /\
  call_result (start_decompress c) = Some (width, height) /\
  width <> 0 /\ height <> 0 /\
  (forall k, (k < Z.to_nat height)%nat ->
     call_result (read_scanlines c k) <> None) /\
  call_result (finish_decompress c) <> None /\
  warnings J (decode_msgs c height) <= 2.
Proof.
  unfold jpgutl_decode_jpeg.
  destruct (call_result (read_header c)); [|done].
  destruct (call_result (start_decompress c)) as [[ow oh]|]; [|done].
  destruct (Z.eqb_spec ow 0), (Z.eqb_spec oh 0); cbn [orb]; try done.
  destruct (Z.eqb_spec ow width) as [How|], (Z.eqb_spec oh height) as [Hoh|];
    cbn [negb orb]; try done. subst ow oh.
  destruct (read_rows _ _ _ _ _ _ _) as [[m1|ws' p']|] eqn:Hrows;
    cbn [mbind option_bind]; try done.
  destruct (call_result (finish_decompress c)); [|done].
  pose proof (read_rows_delivered _ _ _ _ _ _ _ _ _ Hrows) as Hlines.
  apply read_rows_warnings in Hrows. subst ws'.
  rewrite !emit_all_warnings. intros Hrun.
  repeat split; try done.
  - intros k Hk. apply Hlines. lia.
  - unfold decode_msgs. rewrite !warnings_app.
    destruct (Z.gtb_spec
      (0 + warnings J (call_msgs (read_header c))
       + warnings J (call_msgs (start_decompress c))
       + warnings J (concat (map (fun k => call_msgs (read_scanlines c k))
                               (seq 0 (Z.to_nat height))))
       + warnings J (call_msgs (finish_decompress c))) 2); [done|lia].
Qed.

Lemma decode_success_inv_witness :
  jpgutl_decode_jpeg 119 gradient_codec 4 2 ∅ = Some (0, gradient_planes) /\
  call_result (read_header gradient_codec) <> None /\
  call_result (start_decompress gradient_codec) = Some (4, 2) /\
  4 <> 0 /\ 2 <> 0 /\
  (forall k, (k < Z.to_nat 2)%nat ->
     call_result (read_scanlines gradient_codec k) <> None) /\
  call_result (finish_decompress gradient_codec) <> None /\
  warnings 119 (decode_msgs gradient_codec 2) <= 2.
Proof.
  assert (H : jpgutl_decode_jpeg 119 gradient_codec 4 2 ∅
              = Some (0, gradient_planes)) by (vm_compute; reflexivity).
  split; [exact H|].
  apply (decode_success_inv 119 gradient_codec 4 2 ∅ gradient_planes H).
Defined.

Lemma warnings_uncounted J msgs :
  (forall m, In m msgs -> msg_level m < 0 -> msg_code m = J) ->
  warnings J msgs = 0.
Proof.
  intros Hm. unfold warnings.
  induction msgs as [|m msgs IH]; [done|].
  rewrite filter_cons. case_decide as Hc.
  - exfalso. unfold counted in Hc.
    apply andb_true_iff in Hc as [Hcode Hlevel].
    apply Z.ltb_lt in Hlevel. apply negb_true_iff in Hcode.
    apply Z.eqb_neq in Hcode. apply Hcode, Hm; [by left|done].
  - apply IH. intros m' Hin. apply Hm. by right.
Qed.

(** X5.  Messages above the warning level and warnings of extraneous data
    are never counted: a decode of the declared size without
    [error_exit], all of whose warnings are [JWRN_EXTRANEOUS_DATA],
    succeeds however many they are. *)
Theorem decode_ignores_extraneous_data J c width height img_out :
  call_result (read_header c) = Some tt ->
  call_result (start_decompress c) = Some (width, height) ->
  (forall k, (k < Z.to_nat height)%nat ->
     call_result (read_scanlines c k) <> None) ->
  call_result (finish_decompress c) = Some tt ->
  0 < width -> 0 < height -> width * 3 < 2 ^ 32 ->
  (forall m, In m (decode_msgs c height) -> msg_level m < 0 -> msg_code m = J) ->
  exists img', jpgutl_decode_jpeg J c width height img_out = Some (0, img').
Proof.
  intros Hh Hs Hrows Hf Hw Hht Hfit Hmsgs.
  unfold jpgutl_decode_jpeg. rewrite Hh, Hs.
  destruct (Z.eqb_spec width 0); [lia|]. destruct (Z.eqb_spec height 0); [lia|].
  rewrite !Z.eqb_refl. cbn [orb negb].
  set (p0 := Planes _ _ _ _ _). set (ws0 := emit_all _ (emit_all _ 0 _) _).
  destruct (read_rows_done J c width (Z.to_nat height) 0 ws0 p0)
    as (ws' & p' & Hr); [lia|lia|intros j Hj; apply Hrows; lia|].
  rewrite Hr. cbn [mbind option_bind]. rewrite Hf.
  apply read_rows_warnings in Hr. subst ws' ws0.
  rewrite !emit_all_warnings.
  pose proof (warnings_uncounted J _ Hmsgs) as Hzero.
  unfold decode_msgs in Hzero. rewrite !warnings_app in Hzero.
  assert (Hnn : forall l, 0 <= warnings J l) by (intros l; unfold warnings; lia).
  pose proof (Hnn (call_msgs (read_header c))).
  pose proof (Hnn (call_msgs (start_decompress c))).
  pose proof (Hnn (call_msgs (finish_decompress c))).
  pose proof (Hnn (concat (map (fun k => call_msgs (read_scanlines c k))
                             (seq 0 (Z.to_nat height))))).
  match goal with
  | |- context [?v >? 2] => destruct (Z.gtb_spec v 2); [lia|by eauto]
  end.
Qed.

Lemma decode_ignores_extraneous_data_witness :
  call_result (read_header (extraneous_codec 5)) = Some tt /\
  call_result (start_decompress (extraneous_codec 5)) = Some (2, 2) /\
  (forall k, (k < Z.to_nat 2)%nat ->
     call_result (read_scanlines (extraneous_codec 5) k) <> None) /\
  call_result (finish_decompress (extraneous_codec 5)) = Some tt /\
  0 < 2 /\ 0 < 2 /\ 2 * 3 < 2 ^ 32 /\
  (forall m, In m (decode_msgs (extraneous_codec 5) 2) ->
     msg_level m < 0 -> msg_code m = 119) /\
  exists img', jpgutl_decode_jpeg 119 (extraneous_codec 5) 2 2 ∅ = Some (0, img').
Proof.
  assert (H1 : call_result (read_header (extraneous_codec 5)) = Some tt)
    by reflexivity.
  assert (H2 : call_result (start_decompress (extraneous_codec 5)) = Some (2, 2))
    by reflexivity.
  assert (H3 : forall k, (k < Z.to_nat 2)%nat ->
     call_result (read_scanlines (extraneous_codec 5) k) <> None)
    by (intros; discriminate).
  assert (H4 : call_result (finish_decompress (extraneous_codec 5)) = Some tt)
    by reflexivity.
  assert (H5 : 0 < 2) by lia.
  assert (H6 : 2 * 3 < 2 ^ 32) by lia.
  assert (H7 : forall m, In m (decode_msgs (extraneous_codec 5) 2) ->
     msg_level m < 0 -> msg_code m = 119).
  { intros m Hin _. vm_compute in Hin.
    repeat (destruct Hin as [<-|Hin]; [reflexivity|]). destruct Hin. }
  repeat (split; [assumption|]).
  apply (decode_ignores_extraneous_data 119 (extraneous_codec 5) 2 2 ∅
           H1 H2 H3 H4 H5 H5 H6 H7).
Defined.

(** ** The row groups *)












(** * More properties of the marker *)

Lemma img_stringentry_prefix E tag s with_nul i :
  exists rest, (img_stringentry E tag s with_nul i).1 = i.1 ++ rest.
Proof.
  destruct (img_stringentry_shape E tag s with_nul i) as (a & b & c & d & o & _ & ->).
  cbn [fst]. eauto.
Qed.

Lemma img_when_prefix {A} (o : option A) f i :
  (forall a j, exists rest, (f a j).1 = j.1 ++ rest) ->
  exists rest, (img_when o f i).1 = i.1 ++ rest.
Proof.
  intros Hf. destruct o as [a|]; cbn [img_when]; [apply Hf|].
  exists []. by rewrite app_nil_r.
Qed.

Ltac prefix_step lem :=
  match goal with
  | |- exists rest, (?op ?i).1 = ?p ++ rest =>
      let r := fresh "r" in let H := fresh "H" in
      destruct lem as (r & H); rewrite H; clear H
  end.

Lemma img_ifd0_prefix E e i : exists rest, (img_ifd0 E e i).1 = i.1 ++ rest.
Proof.
  unfold img_ifd0, img_bytes. cbn [fst snd].
  set (i0 := (i.1 ++ be16 (uint (ifd0_tagcount e)), i.2)).
  destruct (img_when_prefix (description e)
              (fun d => img_stringentry E TIFF_TAG_IMAGE_DESCRIPTION d true) i0)
    as (r1 & H1); [intros; apply img_stringentry_prefix|].
  set (i1 := img_when (description e) _ i0) in *.
  destruct (img_when_prefix (datetime e)
              (fun d => img_stringentry E TIFF_TAG_DATETIME d true) i1)
    as (r2 & H2); [intros; apply img_stringentry_prefix|].
  set (i2 := img_when (datetime e) _ i1) in *.
  destruct (ifd1_tagcount e >? 0), (datetime e); cbn [img_when fst snd];
    rewrite H2, H1; subst i0; cbn [fst]; rewrite <- ?app_assoc; eauto.
Qed.

Lemma img_subjectarea_prefix E bx i :
  exists rest, (img_subjectarea E bx i).1 = i.1 ++ rest.
Proof. unfold img_subjectarea. cbn [fst]. eauto. Qed.

Lemma img_ifd1_prefix E e i : exists rest, (img_ifd1 E e i).1 = i.1 ++ rest.
Proof.
  unfold img_ifd1, img_bytes. cbn [fst snd].
  destruct (ifd1_tagcount e >? 0); [|exists []; by rewrite app_nil_r].
  set (i0 := ((i.1 ++ be16 (uint (ifd1_tagcount e))) ++ exif_version_tag, i.2)).
  destruct (img_when_prefix (datetime e)
              (fun d => img_stringentry E EXIF_TAG_ORIGINAL_DATETIME d true) i0)
    as (r1 & H1); [intros; apply img_stringentry_prefix|].
  set (i1 := img_when (datetime e) _ i0) in *.
  destruct (img_when_prefix (box e) (img_subjectarea E) i1)
    as (r2 & H2); [intros; apply img_subjectarea_prefix|].
  set (i2 := img_when (box e) _ i1) in *.
  destruct (img_when_prefix (subtime e)
              (fun s => img_stringentry E EXIF_TAG_ORIGINAL_DATETIME_SS s false) i2)
    as (r3 & H3); [intros; apply img_stringentry_prefix|].
  rewrite H3, H2, H1. subst i0. cbn [fst]. rewrite <- ?app_assoc. eauto.
Qed.

Lemma exif_img_header e : exists rest, (exif_img e).1 = exif_marker_start ++ rest.
Proof.
  unfold exif_img.
  destruct (img_ifd1_prefix (Z.to_nat (14 + ifds_size (jpgutl_exif_tags e)))
              (jpgutl_exif_tags e)
              (img_ifd0 (Z.to_nat (14 + ifds_size (jpgutl_exif_tags e)))
                 (jpgutl_exif_tags e) (exif_marker_start, []))) as (r1 & ->).
  destruct (img_ifd0_prefix (Z.to_nat (14 + ifds_size (jpgutl_exif_tags e)))
              (jpgutl_exif_tags e) (exif_marker_start, [])) as (r0 & ->).
  cbn [fst]. rewrite <- app_assoc. eauto.
Qed.

(** X8.  The bytes of a marker that are handed on, the first
    [marker_len], begin with the EXIF signature and the TIFF header and
    are the same whatever the allocated block held: every byte up to the
    returned length was written by the encoder. *)
Theorem marker_bytes_are_written w e len m :
  counters_zeroed e -> inventory_fits e ->
  jpgutl_exif_from w e = Some (len, Some m) ->
  take 14 m = ascii_bytes "Exif" ++ [0; 0] ++ ascii_bytes "MM" ++ [0; 42; 0; 0; 0; 8] /\
  (Z.to_nat len <= length m)%nat /\
  forall w' len' m',
    jpgutl_exif_from w' e = Some (len', Some m') ->
    len' = len /\ take (Z.to_nat len') m' = take (Z.to_nat len) m.
Proof.
  intros Hz Hfit Hrun.
  destruct (jpgutl_exif_from_inv w e len m Hz Hfit Hrun) as (Hany & -> & ->).
  destruct (exif_img_header e) as (rest & Hhead).
  split; [|split].
  - rewrite Hhead, <- app_assoc. by rewrite (take_app_length' exif_marker_start).
  - rewrite Nat2Z.id, !length_app. lia.
  - intros w' len' m' Hrun'.
    destruct (jpgutl_exif_from_inv w' e len' m' Hz Hfit Hrun') as (_ & -> & ->).
    split; [done|]. rewrite Nat2Z.id, !app_assoc.
    by rewrite !take_app_length' by (by rewrite length_app).
Qed.

Lemma marker_bytes_are_written_witness :
  counters_zeroed sample_info /\ inventory_fits sample_info /\
  jpgutl_exif_from sample_world sample_info = Some (126, Some sample_marker) /\
  take 14 sample_marker
  = ascii_bytes "Exif" ++ [0; 0] ++ ascii_bytes "MM" ++ [0; 42; 0; 0; 0; 8] /\
  (Z.to_nat 126 <= length sample_marker)%nat /\
  forall w' len' m',
    jpgutl_exif_from w' sample_info = Some (len', Some m') ->
    len' = 126 /\ take (Z.to_nat len') m' = take (Z.to_nat 126) sample_marker.
Proof.
  assert (Hz : counters_zeroed sample_info) by (repeat split).
  assert (Hfit : inventory_fits sample_info) by (vm_compute; reflexivity).
  assert (Hrun : jpgutl_exif_from sample_world sample_info
                 = Some (126, Some sample_marker)) by (vm_compute; reflexivity).
  split; [exact Hz|]. split; [exact Hfit|]. split; [exact Hrun|].
  apply (marker_bytes_are_written sample_world sample_info 126 sample_marker
           Hz Hfit Hrun).
Defined.

(** X10.  The marker that [jpgutl_exif] builds always fits the segment
    that carries it: with a description of less than [PATH_MAX]
    characters its length lies between 86 and 4270 bytes, far below the
    65533 bytes that an APP1 segment can hold. *)
Theorem marker_fits_segment w fresh cm ts bx :
  counters_zeroed fresh ->
  strlen (mystrftime w cm (PATH_MAX - 1) (picture_exif cm)) < PATH_MAX ->
  exists len m,
    jpgutl_exif w fresh cm ts bx = Some (len, Some m) /\
    86 <= len <= 4270 /\ len <= 65533.
Proof.
  intros Hz Hlen. unfold jpgutl_exif.
  set (e := exif_info_init fresh cm ts bx).
  destruct (jpgutl_exif_date_ready w e Hz Hlen) as (Hz' & Hfit & Hany).
  rewrite (jpgutl_exif_from_img w _ Hz' Hfit Hany).
  pose proof (exif_img_dir _ Hz' Hfit Hany) as Hdir.
  pose proof (exif_img_ool _ Hz' Hfit Hany) as Hool.
  destruct (jpgutl_exif_date_datetime w e) as (dt & Hdt & Hl).
  eexists _, _. split; [reflexivity|].
  assert (Hsub : subtime (jpgutl_exif_date w e) = None) by done.
  assert (Hdesc : forall d, description (jpgutl_exif_date w e) = Some d ->
                    strlen d < PATH_MAX).
  { unfold jpgutl_exif_date. cbn [description cam]. subst e. cbn [cam exif_info_init].
    case_decide; [done|]. by intros d [= <-]. }
  unfold inventory_ifds_size, inventory_datasize, tag_count0, tag_count1, booked
    in Hdir, Hool.
  rewrite Hdt, Hsub in Hdir, Hool. unfold PATH_MAX, strlen in *.
  destruct (description (jpgutl_exif_date w e)) as [d|];
    [specialize (Hdesc d eq_refl)|clear Hdesc];
    destruct (box (jpgutl_exif_date w e));
    cbn [opt_n Nat.add Nat.mul] in Hdir, Hool; simpl in Hdir, Hool; lia.
Qed.

Lemma marker_fits_segment_witness :
  counters_zeroed zeroed_info /\
  strlen (mystrftime sample_world (Cls_camera [104; 105]) (PATH_MAX - 1)
            (picture_exif (Cls_camera [104; 105]))) < PATH_MAX /\
  exists len m,
    jpgutl_exif sample_world zeroed_info (Cls_camera [104; 105]) None
      (Some sample_box) = Some (len, Some m) /\
    86 <= len <= 4270 /\ len <= 65533.
Proof.
  assert (Hz : counters_zeroed zeroed_info) by (repeat split).
  assert (Hl : strlen (mystrftime sample_world (Cls_camera [104; 105])
                         (PATH_MAX - 1) (picture_exif (Cls_camera [104; 105])))
               < PATH_MAX) by (vm_compute; reflexivity).
  split; [exact Hz|]. split; [exact Hl|].
  apply (marker_fits_segment sample_world zeroed_info (Cls_camera [104; 105])
           None (Some sample_box) Hz Hl).
Defined.

(** ** Big-endian stores *)

Lemma be32_mod v : be32 (v mod 2 ^ 32) = be32 v.
Proof.
  unfold be32.
  assert (Hm : forall k, Z.land (Z.ones 32) k = k -> Z.land (v mod 2 ^ 32) k = Z.land v k).
  { intros k Hk. rewrite <- Z.land_ones by lia. by rewrite <- Z.land_assoc, Hk. }
  by rewrite !Hm by reflexivity.
Qed.

Lemma be16_mod v : be16 (v mod 2 ^ 16) = be16 v.
Proof.
  unfold be16.
  assert (Hm : forall k, Z.land (Z.ones 16) k = k -> Z.land (v mod 2 ^ 16) k = Z.land v k).
  { intros k Hk. rewrite <- Z.land_ones by lia. by rewrite <- Z.land_assoc, Hk. }
  by rewrite !Hm by reflexivity.
Qed.

Lemma rd16_be16 v L : 0 <= v < 2 ^ 16 -> rd16 (be16 v ++ L) 0 = v.
Proof.
  intros Hv. unfold be16, rd16, rd8. cbn [app nth Nat.add].
  pose proof (byte_of_shift v 8 ltac:(lia)) as H1.
  change (Z.shiftl 255 8) with 0xFF00 in H1.
  rewrite H1, byte_low. change (2 ^ 8) with 256. lia.
Qed.

Lemma memcpy_read p bs m m' :
  memcpy p bs m = Some m' -> take (length bs) (drop p m') = bs.
Proof.
  unfold memcpy. case_decide; [|done]. intros [= <-].
  rewrite drop_app_length' by (rewrite length_take; lia).
  by rewrite take_app_length.
Qed.

Lemma memcpy_before p bs m m' :
  memcpy p bs m = Some m' -> take p m' = take p m.
Proof.
  unfold memcpy. case_decide; [|done]. intros [= <-].
  by rewrite take_app_length' by (rewrite length_take; lia).
Qed.

Lemma memcpy_after p bs m m' :
  memcpy p bs m = Some m' -> drop (p + length bs) m' = drop (p + length bs) m.
Proof.
  unfold memcpy. case_decide; [|done]. intros [= <-].
  rewrite app_assoc. by rewrite drop_app_length' by (rewrite length_app, length_take; lia).
Qed.

Lemma rd8_at (m : block) p k :
  (k < 4)%nat -> rd8 (take 4 (drop p m)) k = rd8 m (p + k).
Proof.
  intros Hk. unfold rd8.
  destruct (decide (p + k < length m)%nat) as [Hlt|Hge].
  - rewrite !(nth_lookup _ _ 0), lookup_take_lt, lookup_drop by lia. done.
  - rewrite !nth_overflow; [done|lia|rewrite length_take, length_drop; lia].
Qed.

Lemma rd32_at (m : block) p bs :
  take 4 (drop p m) = bs -> rd32 m p = rd32 bs 0.
Proof.
  intros <-. unfold rd32, rd16. rewrite !rd8_at by lia.
  replace (p + 0)%nat with p by lia.
  replace (p + (0 + 1))%nat with (p + 1)%nat by lia.
  replace (p + (0 + 2))%nat with (p + 2)%nat by lia.
  replace (p + (0 + 2 + 1))%nat with (p + 2 + 1)%nat by lia. done.
Qed.

(** X11.  [put_uint32] stores a value, reduced modulo 2^32, as four bytes
    with the most significant first, and touches no other byte: reading
    them back big-endian gives the value. *)
Theorem put_uint32_big_endian p v m :
  (p + 4 <= length m)%nat ->
  exists m',
    put_uint32 p v m = Some m' /\ length m' = length m /\
    rd32 m' p = v mod 2 ^ 32 /\
    take p m' = take p m /\ drop (p + 4) m' = drop (p + 4) m.
Proof.
  intros Hp. rewrite put_uint32_memcpy.
  destruct (memcpy p (be32 v) m) as [m'|] eqn:Hm.
  2:{ apply memcpy_None in Hm. rewrite length_be32 in Hm. lia. }
  exists m'. split; [done|]. split; [by apply length_memcpy in Hm|].
  pose proof (memcpy_read _ _ _ _ Hm) as Hr.
  pose proof (memcpy_after _ _ _ _ Hm) as Ha.
  rewrite length_be32 in Hr, Ha.
  split; [|split; [by eapply memcpy_before|done]].
  rewrite (rd32_at m' p _ Hr), <- be32_mod, <- (app_nil_r (be32 _)).
  apply rd32_be32. lia.
Qed.

Lemma put_uint32_big_endian_witness :
  (2 + 4 <= length [1; 2; 3; 4; 5; 6; 7])%nat /\
  exists m',
    put_uint32 2 (2 ^ 32 + 258) [1; 2; 3; 4; 5; 6; 7] = Some m' /\
    length m' = length [1; 2; 3; 4; 5; 6; 7] /\
    rd32 m' 2 = (2 ^ 32 + 258) mod 2 ^ 32 /\
    take 2 m' = take 2 [1; 2; 3; 4; 5; 6; 7] /\
    drop (2 + 4) m' = drop (2 + 4) [1; 2; 3; 4; 5; 6; 7].
Proof.
  assert (H : (2 + 4 <= length [1; 2; 3; 4; 5; 6; 7])%nat) by (cbn; lia).
  split; [exact H|].
  apply (put_uint32_big_endian 2 (2 ^ 32 + 258) [1; 2; 3; 4; 5; 6; 7] H).
Defined.

(** X12.  [put_sint16] stores a signed 16-bit value in two's complement,
    most significant byte first: read back as a signed big-endian
    integer, the two bytes give the value. *)
Theorem put_sint16_twos_complement p v m :
  (p + 2 <= length m)%nat -> - 2 ^ 15 <= v < 2 ^ 15 ->
  exists m',
    put_sint16 p v m = Some m' /\
    (let u := rd16 m' p in if u <? 2 ^ 15 then u else u - 2 ^ 16) = v /\
    take p m' = take p m /\ drop (p + 2) m' = drop (p + 2) m.
Proof.
  intros Hp Hv. rewrite put_sint16_memcpy.
  destruct (memcpy p (be16 v) m) as [m'|] eqn:Hm.
  2:{ apply memcpy_None in Hm. rewrite length_be16 in Hm. lia. }
  exists m'. split; [done|].
  pose proof (memcpy_read _ _ _ _ Hm) as Hr.
  pose proof (memcpy_after _ _ _ _ Hm) as Ha.
  rewrite length_be16 in Hr, Ha.
  split; [|split; [by eapply memcpy_before|done]].
  assert (Hrd : rd16 m' p = v mod 2 ^ 16).
  { unfold rd16. unfold rd8.
    assert (Hn : forall k, (k < 2)%nat -> nth (p + k) m' 0 = nth k (be16 v) 0).
    { intros k Hk. rewrite <- Hr.
      destruct (decide (p + k < length m')%nat).
      - rewrite !(nth_lookup _ _ 0), lookup_take_lt, lookup_drop by lia. done.
      - apply length_memcpy in Hm. lia. }
    rewrite <- (Nat.add_0_r p) at 1. rewrite !Hn by lia.
    rewrite <- be16_mod.
    pose proof (rd16_be16 (v mod 2 ^ 16) [] ltac:(lia)) as H16.
    rewrite app_nil_r in H16. exact H16. }
  cbv zeta. rewrite Hrd. destruct (Z.ltb_spec (v mod 2 ^ 16) (2 ^ 15)); lia.
Qed.

Lemma put_sint16_twos_complement_witness :
  (1 + 2 <= length [9; 9; 9; 9])%nat /\ - 2 ^ 15 <= -5 < 2 ^ 15 /\
  exists m',
    put_sint16 1 (-5) [9; 9; 9; 9] = Some m' /\
    (let u := rd16 m' 1 in if u <? 2 ^ 15 then u else u - 2 ^ 16) = -5 /\
    take 1 m' = take 1 [9; 9; 9; 9] /\ drop (1 + 2) m' = drop (1 + 2) [9; 9; 9; 9].
Proof.
  assert (H1 : (1 + 2 <= length [9; 9; 9; 9])%nat) by (cbn; lia).
  assert (H2 : - 2 ^ 15 <= -5 < 2 ^ 15) by lia.
  split; [exact H1|]. split; [exact H2|].
  apply (put_sint16_twos_complement 1 (-5) [9; 9; 9; 9] H1 H2).
Defined.

(** ** Where [put_direntry] stores a value *)

Lemma memcpy_keeps p bs m m' q n :
  memcpy p bs m = Some m' ->
  (q + n <= p \/ p + length bs <= q)%nat ->
  take n (drop q m') = take n (drop q m).
Proof.
  intros Hm Hq. pose proof (length_memcpy _ _ _ _ Hm) as Hl.
  pose proof (memcpy_bound _ _ _ _ Hm) as Hb.
  destruct Hq as [Hq|Hq].
  - apply memcpy_before in Hm.
    rewrite <- (take_drop p m'), <- (take_drop p m) at 1. rewrite Hm.
    rewrite !drop_app_le by (rewrite length_take; lia).
    rewrite !take_app_le by (rewrite length_drop, length_take; lia). done.
  - apply memcpy_after in Hm.
    assert (Hk : exists k, q = (p + length bs + k)%nat)
      by (exists (q - (p + length bs))%nat; lia).
    destruct Hk as [k ->].
    by rewrite <- !(drop_drop _ k (p + length bs)), Hm.
Qed.

Lemma length_c_bytes data n :
  0 <= n <= strlen data + 1 -> length (c_bytes data n) = Z.to_nat n.
Proof.
  intros Hn. unfold c_bytes, strlen in *.
  rewrite length_take, length_app. cbn [length]. lia.
Qed.

(** X13.  Given room in the block, [put_direntry] stores a value of at
    most four bytes in the entry itself, padded with zeros, and leaves the
    data offset alone.  A longer value goes out of line: the data offset
    is first rounded up to a multiple of four over bytes set to zero, the
    entry receives that offset, the value is copied there and the data
    offset moves to its end. *)
Theorem put_direntry_places data n into :
  0 <= n <= strlen data + 1 ->
  0 <= data_offset into -> data_offset into + 3 + n < 2 ^ 32 ->
  (buf into + 4 <= base into + Z.to_nat (data_offset into))%nat ->
  (base into + Z.to_nat (data_offset into) + 3 + Z.to_nat n
   <= length (marker into))%nat ->
  exists into',
    put_direntry data n into = Some into' /\
    base into' = base into /\ buf into' = buf into /\
    length (marker into') = length (marker into) /\
    if n <=? 4 then
      data_offset into' = data_offset into /\
      take 4 (drop (buf into) (marker into'))
      = c_bytes data n ++ replicate (4 - Z.to_nat n) 0
    else
      let pad := (- data_offset into) mod 4 in
      let off := data_offset into + pad in
      off mod 4 = 0 /\ data_offset into <= off < data_offset into + 4 /\
      rd32 (marker into') (buf into) = off /\
      take (Z.to_nat pad)
        (drop (base into + Z.to_nat (data_offset into)) (marker into'))
      = replicate (Z.to_nat pad) 0 /\
      take (Z.to_nat n) (drop (base into + Z.to_nat off) (marker into'))
      = c_bytes data n /\
      data_offset into' = off + n.
Proof.
  intros Hn H0 Hfit Hbuf Hroom. unfold put_direntry.
  pose proof (length_c_bytes data n Hn) as Hlen.
  destruct (Z.leb_spec n 4) as [Hle|Hgt].
  - unfold seqw, on_marker. cbn [marker base buf data_offset].
    destruct (memcpy (buf into) (replicate 4 0) (marker into)) as [m1|] eqn:H1.
    2:{ apply memcpy_None in H1. rewrite length_replicate in H1. lia. }
    cbn [mbind option_bind marker base buf data_offset].
    pose proof (length_memcpy _ _ _ _ H1) as Hl1.
    destruct (memcpy (buf into) (c_bytes data n) m1) as [m2|] eqn:H2.
    2:{ apply memcpy_None in H2. lia. }
    cbn [mbind option_bind]. eexists. split; [reflexivity|].
    cbn [marker base buf data_offset].
    pose proof (length_memcpy _ _ _ _ H2).
    repeat split; try done; [congruence|].
    pose proof (memcpy_read _ _ _ _ H1) as Hr1.
    pose proof (memcpy_read _ _ _ _ H2) as Hr2.
    pose proof (memcpy_after _ _ _ _ H2) as Ha2.
    rewrite length_replicate in Hr1. rewrite Hlen in Hr2, Ha2.
    rewrite <- (take_drop (Z.to_nat n) (take 4 (drop (buf into) m2))).
    rewrite take_take, Nat.min_l, Hr2 by lia. f_equal.
    replace (take 4 (drop (buf into) m2))
      with (take (Z.to_nat n + (4 - Z.to_nat n)) (drop (buf into) m2))
      by (f_equal; lia).
    rewrite <- take_drop_commute, drop_drop, Ha2, <- drop_drop, take_drop_commute.
    replace (Z.to_nat n + (4 - Z.to_nat n))%nat with 4%nat by lia.
    rewrite Hr1, drop_replicate. done.
  - cbn [marker base buf data_offset].
    rewrite align_loop_spec; [|lia|lia|lia|lia].
    set (pad := (- data_offset into) mod 4).
    set (off := data_offset into + pad).
    destruct (memcpy _ (replicate (Z.to_nat pad) 0) (marker into)) as [m1|] eqn:H1.
    2:{ apply memcpy_None in H1. rewrite length_replicate in H1. subst pad. lia. }
    cbn [mbind option_bind fst snd].
    pose proof (length_memcpy _ _ _ _ H1) as Hl1.
    rewrite put_uint32_memcpy.
    destruct (memcpy (buf into) (be32 off) m1) as [m2|] eqn:H2.
    2:{ apply memcpy_None in H2. rewrite length_be32 in H2. lia. }
    cbn [mbind option_bind].
    pose proof (length_memcpy _ _ _ _ H2) as Hl2.
    destruct (memcpy (base into + Z.to_nat off) (c_bytes data n) m2) as [m3|] eqn:H3.
    2:{ apply memcpy_None in H3. subst off pad. lia. }
    cbn [mbind option_bind]. eexists. split; [reflexivity|].
    cbn [marker base buf data_offset].
    pose proof (length_memcpy _ _ _ _ H3).
    repeat split; try done; try (subst off pad; lia); try congruence.
    + assert (Hr : take 4 (drop (buf into) m3) = be32 off).
      { rewrite (memcpy_keeps _ _ _ _ (buf into) 4 H3) by (subst off pad; lia).
        apply memcpy_read in H2. by rewrite length_be32 in H2. }
      rewrite (rd32_at _ _ _ Hr), <- (app_nil_r (be32 off)).
      apply rd32_be32. subst off pad. lia.
    + rewrite (memcpy_keeps _ _ _ _ _ _ H3) by (subst off pad; lia).
      rewrite (memcpy_keeps _ _ _ _ _ _ H2) by (rewrite length_be32; lia).
      apply memcpy_read in H1. by rewrite length_replicate in H1.
    + apply memcpy_read in H3. by rewrite Hlen in H3.
    + rewrite uint_small by (subst off pad; lia). done.
Qed.

Lemma put_direntry_places_witness :
  0 <= 6 <= strlen [104; 101; 108; 108; 111] + 1 /\
  0 <= data_offset sample_writing /\ data_offset sample_writing + 3 + 6 < 2 ^ 32 /\
  (buf sample_writing + 4
   <= base sample_writing + Z.to_nat (data_offset sample_writing))%nat /\
  (base sample_writing + Z.to_nat (data_offset sample_writing) + 3 + Z.to_nat 6
   <= length (marker sample_writing))%nat /\
  exists into',
    put_direntry [104; 101; 108; 108; 111] 6 sample_writing = Some into' /\
    base into' = base sample_writing /\ buf into' = buf sample_writing /\
    length (marker into') = length (marker sample_writing) /\
    if 6 <=? 4 then
      data_offset into' = data_offset sample_writing /\
      take 4 (drop (buf sample_writing) (marker into'))
      = c_bytes [104; 101; 108; 108; 111] 6 ++ replicate (4 - Z.to_nat 6) 0
    else
      let pad := (- data_offset sample_writing) mod 4 in
      let off := data_offset sample_writing + pad in
      off mod 4 = 0 /\
      data_offset sample_writing <= off < data_offset sample_writing + 4 /\
      rd32 (marker into') (buf sample_writing) = off /\
      take (Z.to_nat pad)
        (drop (base sample_writing + Z.to_nat (data_offset sample_writing))
           (marker into'))
      = replicate (Z.to_nat pad) 0 /\
      take (Z.to_nat 6) (drop (base sample_writing + Z.to_nat off) (marker into'))
      = c_bytes [104; 101; 108; 108; 111] 6 /\
      data_offset into' = off + 6.
Proof.
  assert (H1 : 0 <= 6 <= strlen [104; 101; 108; 108; 111] + 1)
    by (vm_compute; split; discriminate).
  assert (H2 : 0 <= data_offset sample_writing) by (vm_compute; discriminate).
  assert (H3 : data_offset sample_writing + 3 + 6 < 2 ^ 32)
    by (vm_compute; reflexivity).
  assert (H4 : (buf sample_writing + 4
                <= base sample_writing + Z.to_nat (data_offset sample_writing))%nat)
    by (vm_compute; lia).
  assert (H5 : (base sample_writing + Z.to_nat (data_offset sample_writing)
                + 3 + Z.to_nat 6 <= length (marker sample_writing))%nat)
    by (vm_compute; lia).
  repeat (split; [assumption|]).
  apply (put_direntry_places [104; 101; 108; 108; 111] 6 sample_writing
           H1 H2 H3 H4 H5).
Defined.

(** ** The date *)

Lemma fmt_0d_dec2_all :
  forallb (fun n => bool_decide (fmt_0d 2 (Z.of_nat n) = dec2 (Z.of_nat n)))
    (seq 0 100) = true.
Proof. vm_compute. reflexivity. Qed.

Lemma fmt_0d_dec4_all :
  forallb (fun n => bool_decide (fmt_0d 4 (Z.of_nat n) = dec4 (Z.of_nat n)))
    (seq 0 (100 * 100)) = true.
Proof. vm_compute. reflexivity. Qed.

Lemma fmt_0d_dec2 v : 0 <= v < 100 -> fmt_0d 2 v = dec2 v.
Proof.
  intros Hv. pose proof fmt_0d_dec2_all as H.
  rewrite forallb_forall in H.
  assert (Hin : In (Z.to_nat v) (seq 0 100)) by (apply in_seq; lia).
  specialize (H _ Hin). cbv beta in H. apply bool_decide_eq_true in H.
  by rewrite Z2Nat.id in H by lia.
Qed.

Lemma fmt_0d_dec4 v : 0 <= v < 10000 -> fmt_0d 4 v = dec4 v.
Proof.
  intros Hv. pose proof fmt_0d_dec4_all as H.
  rewrite forallb_forall in H.
  assert (Hin : In (Z.to_nat v) (seq 0 (100 * 100))) by (apply in_seq; lia).
  specialize (H _ Hin). cbv beta in H. apply bool_decide_eq_true in H.
  by rewrite Z2Nat.id in H by lia.
Qed.

(** X9.  For a time whose year lies in 0..9999 and whose other fields lie
    in 0..99, [jpgutl_exif_date] builds the datetime
    ["YYYY:MM:DD HH:MM:SS"]: nineteen characters, every field padded
    with zeros to its width; it sets no subsecond string, and a description
    exactly when [picture_exif] is not empty. *)
Theorem exif_date_format w e :
  let t := timestamp_tm (jpgutl_exif_date w e) in
  0 <= tm_year t + 1900 < 10000 -> 0 <= tm_mon t + 1 < 100 ->
  0 <= tm_mday t < 100 -> 0 <= tm_hour t < 100 ->
  0 <= tm_min t < 100 -> 0 <= tm_sec t < 100 ->
  datetime (jpgutl_exif_date w e) = Some (exif_datetime t) /\
  length (exif_datetime t) = 19%nat /\
  subtime (jpgutl_exif_date w e) = None /\
  (description (jpgutl_exif_date w e) = None <-> picture_exif (cam e) = []).
Proof.
  unfold jpgutl_exif_date. cbn [timestamp_tm datetime subtime description].
  intros Hy Hmo Hd Hh Hmi Hs.
  rewrite fmt_0d_dec4, !fmt_0d_dec2 by done.
  repeat split; try done.
  - by case_decide.
  - intros ->. by case_decide.
Qed.

Lemma exif_date_format_witness :
  let t := timestamp_tm (jpgutl_exif_date sample_world zeroed_info) in
  0 <= tm_year t + 1900 < 10000 /\ 0 <= tm_mon t + 1 < 100 /\
  0 <= tm_mday t < 100 /\ 0 <= tm_hour t < 100 /\
  0 <= tm_min t < 100 /\ 0 <= tm_sec t < 100 /\
  datetime (jpgutl_exif_date sample_world zeroed_info) = Some (exif_datetime t) /\
  length (exif_datetime t) = 19%nat /\
  subtime (jpgutl_exif_date sample_world zeroed_info) = None /\
  (description (jpgutl_exif_date sample_world zeroed_info) = None
   <-> picture_exif (cam zeroed_info) = []).
Proof.
  cbv zeta.
  assert (H1 : 0 <= tm_year (timestamp_tm (jpgutl_exif_date sample_world zeroed_info))
                    + 1900 < 10000) by (vm_compute; split; [discriminate|reflexivity]).
  assert (H2 : 0 <= tm_mon (timestamp_tm (jpgutl_exif_date sample_world zeroed_info))
                    + 1 < 100) by (vm_compute; split; [discriminate|reflexivity]).
  assert (H3 : 0 <= tm_mday (timestamp_tm (jpgutl_exif_date sample_world zeroed_info))
                    < 100) by (vm_compute; split; [discriminate|reflexivity]).
  assert (H4 : 0 <= tm_hour (timestamp_tm (jpgutl_exif_date sample_world zeroed_info))
                    < 100) by (vm_compute; split; [discriminate|reflexivity]).
  assert (H5 : 0 <= tm_min (timestamp_tm (jpgutl_exif_date sample_world zeroed_info))
                    < 100) by (vm_compute; split; [discriminate|reflexivity]).
  assert (H6 : 0 <= tm_sec (timestamp_tm (jpgutl_exif_date sample_world zeroed_info))
                    < 100) by (vm_compute; split; [discriminate|reflexivity]).
  repeat (split; [assumption|]).
  apply (exif_date_format sample_world zeroed_info H1 H2 H3 H4 H5 H6).
Defined.

(** * Reading the entries back *)

Lemma be32_cells v :
  exists b0 b1 b2 b3,
    be32 v = [b0; b1; b2; b3] /\
    (0 <= v < 2 ^ 32 -> (b0 * 256 + b1) * 65536 + (b2 * 256 + b3) = v).
Proof.
  do 4 eexists. split; [reflexivity|]. intros Hv.
  pose proof (rd32_be32 v [] Hv) as H.
  unfold rd32, rd16, rd8, be32 in H. cbn [app nth Nat.add] in H. exact H.
Qed.

Lemma be16_cells v :
  exists b0 b1, be16 v = [b0; b1] /\ b0 * 256 + b1 = uint16 v.
Proof.
  do 2 eexists. split; [reflexivity|]. unfold uint16.
  pose proof (rd16_be16 (v mod 2 ^ 16) [] ltac:(lia)) as H.
  rewrite be16_mod in H.
  unfold rd16, rd8, be16 in H. cbn [app nth Nat.add] in H. exact H.
Qed.

Lemma tz_entry_cells v :
  exists b0 b1,
    tz_entry v = [0x88; 0x2A; 0; 8; 0; 0; 0; 1; b0; b1; 0; 0] /\
    b0 * 256 + b1 = uint16 v.
Proof.
  destruct (be16_cells v) as (b0 & b1 & Hb & Hv). exists b0, b1.
  split; [|done]. unfold tz_entry. rewrite Hb. reflexivity.
Qed.

(** Replace the big-endian fields of [H] by their bytes. *)
Ltac cells H :=
  repeat match type of H with
  | context [tz_entry ?v] =>
      let Hc := fresh "Hc" in
      destruct (tz_entry_cells v) as (? & ? & Hc & ?); rewrite Hc in H; clear Hc
  | context [be32 ?v] =>
      let Hc := fresh "Hc" in
      destruct (be32_cells v) as (? & ? & ? & ? & Hc & ?);
      rewrite !Hc in H; clear Hc
  | context [be16 ?v] =>
      let Hc := fresh "Hc" in
      destruct (be16_cells v) as (? & ? & Hc & ?); rewrite !Hc in H; clear Hc
  end.


Lemma pad_facts x : 0 <= (- x) mod 4 < 4 /\ (4 | x + (- x) mod 4).
Proof. split; [lia|]. apply Z.mod_divide; lia. Qed.

(** Name the paddings of [H], innermost first, keeping their range. *)
Ltac name_pads H :=
  repeat match type of H with
  | context [(- ?x) mod 4] =>
      lazymatch x with
      | context [_ mod 4] => fail
      | _ => let p := fresh "pad" in
             destruct (pad_facts x) as [? ?];
             set (p := (- x) mod 4) in *; clearbody p
      end
  end.

Ltac eval_uints H :=
  repeat match type of H with
  | context [uint ?x] =>
      lazymatch x with
      | context [coord_x] => fail
      | context [coord_y] => fail
      | context [coord_width] => fail
      | context [coord_height] => fail
      | _ => let v := eval vm_compute in (uint x) in change (uint x) with v in H
      end
  end.

(** Discharge the range conditions of the cells. *)
Ltac cell_ranges :=
  repeat match goal with
  | Hq : 0 <= ?v < 2 ^ 32 -> _ |- _ =>
      let Hp := fresh in
      assert (Hp : 0 <= v < 2 ^ 32) by lia; specialize (Hq Hp); clear Hp
  end.

(** Evaluate the cells of constants. *)
Ltac eval_cells :=
  repeat match goal with
  | Hq : _ = uint16 ?v |- _ =>
      lazymatch v with
      | context [coord_x] => fail
      | context [coord_y] => fail
      | context [coord_width] => fail
      | context [coord_height] => fail
      | context [tm_gmtoff] => fail
      | _ => let r := eval vm_compute in (uint16 v) in
             change (uint16 v) with r in Hq
      end
  end.

Ltac closed_fact Hm := rewrite Hm; vm_compute; reflexivity.

(** The entry at index [k] of the IFD at [p], its fields read off the
    bytes [Hc]. *)
Ltac entry_at m Hc Htags tag p k :=
  rewrite (find_entry_at tag m p k);
    [|by rewrite Htags
     |let j := fresh "j" in
      intros j ?; do 3 (try destruct j as [|j]);
      first [lia | by rewrite Htags]];
  eexists; split; [reflexivity|];
  unfold read_entry, entry_payload;
  cbn [entry_tag entry_type entry_count entry_value].

Lemma be16_uint v : be16 (uint v) = be16 v.
Proof.
  unfold be16, uint.
  assert (Hm : forall k, Z.land (Z.ones 32) k = k ->
                 Z.land (v mod 2 ^ 32) k = Z.land v k).
  { intros k Hk. rewrite <- Z.land_ones by lia. by rewrite <- Z.land_assoc, Hk. }
  by rewrite !Hm by reflexivity.
Qed.

(** The pieces of a right-nested append before and after the last
    occurrence of the piece [B]. *)
Ltac pieces_before_last B L :=
  lazymatch L with
  | ?X ++ ?R =>
      lazymatch R with
      | context [B] => let A := pieces_before_last B R in constr:(X ++ A)
      | _ => constr:(@nil Z)
      end
  end.
Ltac pieces_after_last B L :=
  lazymatch L with
  | ?X ++ ?R =>
      lazymatch R with
      | context [B] => pieces_after_last B R
      | _ => constr:(R)
      end
  end.

(** The value of a four-byte field, from the cells. *)
Ltac field32 m Hc pos name :=
  eassert (name : rd32 m pos = _)
    by (rewrite Hc; unfold rd32, rd16, rd8; cbn [nth Nat.add Nat.mul];
        match goal with Hq : ?lhs = _ |- ?lhs = _ => exact Hq end).

Ltac payload_at m Hm A B C :=
  apply (take_drop_at m A B C);
  [ rewrite Hm at 1; rewrite <- ?app_assoc, ?app_nil_l; reflexivity
  | autorewrite with len; unfold tiff_base; cbn [length]; lia
  | autorewrite with len; cbn [length]; lia ].

Ltac read_cells Hc :=
  rewrite Hc; unfold rd32, rd16, rd8; cbn [nth Nat.add Nat.mul].

(** One case of [exif_entries]: [p1] is where IFD1 lies, [ktz] the index of
    the time zone entry in IFD0. *)
Ltac entries_case m dt Hm tags0 tags1 p1 ktz :=
  cbv zeta; cbn [opt_n Nat.add Nat.mul];
  eval_uints Hm;
  autorewrite with len in Hm; cbn [length] in Hm;
  let rest := fresh "rest" in
  match type of Hm with
  | context [drop ?n (mymalloc ?w ?s)] =>
      set (rest := drop n (mymalloc w s)) in Hm; clearbody rest
  end;
  name_pads Hm;
  let Hc := fresh "Hc" in
  pose proof Hm as Hc; cells Hc;
  unfold exif_marker_start, exif_subifd_tag, exif_version_tag in Hc;
  cbn [app] in Hc;
  rewrite ?length_str_data in *;
  cell_ranges; eval_cells;
  let Htags := fresh "Htags" in let Htags1 := fresh "Htags1" in
  assert (Htags : ifd_tags m 14 = tags0) by closed_fact Hm;
  assert (Htags1 : ifd_tags m p1 = tags1) by closed_fact Hm;
  split; [closed_fact Hm|]; split; [exact Htags|];
  split; [closed_fact Hm|]; split; [exact Htags1|];
  split; [closed_fact Hm|]; split; [closed_fact Hm|];
  split; [split; closed_fact Hm|];
  split; [|split];
  [ entry_at m Hc Htags TIFF_TAG_TZ_OFFSET 14%nat ktz;
    read_cells Hc; repeat split; lia
  | entry_at m Hc Htags1 EXIF_TAG_ORIGINAL_DATETIME p1 1%nat;
    let Hcount := fresh "Hcount" in let Hvalue := fresh "Hvalue" in
    field32 m Hc (p1 + 2 + 12 * 1 + 4)%nat Hcount;
    field32 m Hc (p1 + 2 + 12 * 1 + 8)%nat Hvalue;
    rewrite Hcount, Hvalue;
    split; [read_cells Hc; unfold TIFF_TYPE_ASCII; lia|];
    split; [lia|];
    split; [match goal with
            | Hd : (4 | ?v) |- (4 | ?u) => replace u with v by lia; exact Hd
            end|];
    lazymatch type of Hm with
    | _ = ?L =>
        let A := pieces_before_last (str_data dt true) L in
        let C := pieces_after_last (str_data dt true) L in
        payload_at m Hm A (str_data dt true) C
    end
  | first
      [ let b' := fresh "b" in intros b' [= <-];
        entry_at m Hc Htags1 EXIF_TAG_SUBJECT_AREA p1 2%nat;
        let Hcount := fresh "Hcount" in let Hvalue := fresh "Hvalue" in
        field32 m Hc (p1 + 2 + 12 * 2 + 4)%nat Hcount;
        field32 m Hc (p1 + 2 + 12 * 2 + 8)%nat Hvalue;
        rewrite Hcount, Hvalue;
        split; [read_cells Hc; unfold TIFF_TYPE_USHORT; lia|];
        split; [lia|];
        rewrite !be16_uint in Hm;
        lazymatch type of Hm with
        | context [be16 (coord_x ?bx) ++ ?R] =>
            lazymatch type of Hm with
            | _ = ?L =>
                let B := constr:(be16 (coord_x bx) ++ be16 (coord_y bx) ++
                                 be16 (coord_width bx) ++ be16 (coord_height bx)) in
                let A := pieces_before (be16 (coord_x bx)) L in
                payload_at m Hm A B rest
            end
        end
      | let b' := fresh "b" in let Hb := fresh "Hb" in
        intros b' Hb; discriminate Hb ] ].

(** The entries of a marker with a datetime, read back from its bytes:
    where the two IFDs lie and which tags they hold, the pointer to the
    Exif IFD, the version, the two next-IFD fields, the time zone, the
    original datetime and the subject area. *)
Lemma exif_entries w cm ts bx t desc dt len m :
  (4 <= length dt)%nat ->
  inventory_fits (Ctx_exif_info cm ts bx t desc (Some dt) None 0 0 0 0) ->
  jpgutl_exif_from w (Ctx_exif_info cm ts bx t desc (Some dt) None 0 0 0 0)
  = Some (len, Some m) ->
  let p1 := (56 + 12 * opt_n desc)%nat in
  ifd0_pos m = 14%nat /\
  ifd_tags m 14
  = match desc with Some _ => [0x010E] | None => [] end ++ [0x0132; 0x8769; 0x882A] /\
  ifd1_pos m = Some p1 /\
  ifd_tags m p1
  = [0x9000; 0x9003] ++ match bx with Some _ => [0x9214] | None => [] end /\
  find_entry TIFF_TAG_EXIF_IFD (read_ifd m 14)
  = Some (Ifd_entry TIFF_TAG_EXIF_IFD 4 1 (Z.of_nat p1 - 6)) /\
  find_entry EXIF_TAG_EXIF_VERSION (read_ifd m p1)
  = Some (Ifd_entry EXIF_TAG_EXIF_VERSION 7 4 0x30323230) /\
  (rd32 m (p1 - 4) = 0 /\ rd32 m (p1 + 2 + 12 * (2 + opt_n bx)) = 0) /\
  (exists en,
     find_entry TIFF_TAG_TZ_OFFSET (read_ifd m 14) = Some en /\
     entry_type en = 8 /\ entry_count en = 1 /\
     entry_value en = uint16 (Z.quot (tm_gmtoff t) 3600) * 65536) /\
  (exists en,
     find_entry EXIF_TAG_ORIGINAL_DATETIME (read_ifd m p1) = Some en /\
     entry_type en = TIFF_TYPE_ASCII /\
     entry_count en = Z.of_nat (length dt) + 1 /\
     (4 | entry_value en) /\
     entry_payload m en = dt ++ [0]) /\
  (forall b, bx = Some b ->
     exists en,
       find_entry EXIF_TAG_SUBJECT_AREA (read_ifd m p1) = Some en /\
       entry_type en = TIFF_TYPE_USHORT /\ entry_count en = 4 /\
       take 8 (drop (tiff_base + Z.to_nat (entry_value en)) m)
       = be16 (coord_x b) ++ be16 (coord_y b) ++
         be16 (coord_width b) ++ be16 (coord_height b)).
Proof.
  intros Hdt Hfit Hrun.
  assert (Hz : counters_zeroed (Ctx_exif_info cm ts bx t desc (Some dt) None 0 0 0 0))
    by (repeat split).
  destruct (jpgutl_exif_from_inv w _ len m Hz Hfit Hrun) as (Hany & _ & Hm).
  clear Hrun Hany. unfold exif_img in Hm. rewrite (jpgutl_exif_tags_eq _ Hz Hfit) in Hm.
  unfold img_ifd0, img_ifd1, inventoried in Hm.
  cbn [description datetime subtime box ifd0_tagcount ifd1_tagcount
       timestamp_tm ifds_size] in Hm.
  unfold inventory_fits, inventory_ifds_size, inventory_datasize, tag_count0,
    tag_count1, booked, strlen in Hfit.
  cbn [description datetime subtime box opt_n] in Hfit. clear Hz.
  (destruct desc as [ds|], bx as [bx|]; eval_counts_in Hm; cbn [img_when] in Hm;
    shape_description Hm;
    rewrite !img_stringentry_ool_eq in Hm by (rewrite length_str_data; lia);
    unfold img_bytes, img_subjectarea in Hm; cbn [fst snd] in Hm;
    eval_dir_end; rewrite <- !app_assoc, ?app_nil_l in Hm;
    simpl in Hfit).
  - entries_case m dt Hm [0x010E; 0x0132; 0x8769; 0x882A]
      [0x9000; 0x9003; 0x9214] 68%nat 3%nat.
  - entries_case m dt Hm [0x010E; 0x0132; 0x8769; 0x882A]
      [0x9000; 0x9003] 68%nat 3%nat.
  - entries_case m dt Hm [0x0132; 0x8769; 0x882A]
      [0x9000; 0x9003; 0x9214] 56%nat 2%nat.
  - entries_case m dt Hm [0x0132; 0x8769; 0x882A]
      [0x9000; 0x9003] 56%nat 2%nat.
Qed.

(** * The entries of the markers of [jpgutl_exif] *)

Lemma length_fmt_0d wd v : (1 <= wd)%nat -> (wd <= length (fmt_0d wd v))%nat.
Proof.
  intros Hw. unfold fmt_0d. destruct (v <? 0); cbn [length];
    rewrite length_app, length_replicate; lia.
Qed.

(** The record that [jpgutl_exif_date] leaves: a datetime of 19 to 21
    characters, no subsecond string, and the members it was given. *)
Lemma exif_date_shape w fresh cm ts bx :
  counters_zeroed fresh ->
  let e := jpgutl_exif_date w (exif_info_init fresh cm ts bx) in
  exists dt,
    e = Ctx_exif_info cm ts bx (timestamp_tm e) (description e) (Some dt) None 0 0 0 0 /\
    (19 <= length dt <= 21)%nat.
Proof.
  intros (H0 & H1 & H2 & H3). cbv zeta. unfold jpgutl_exif_date, exif_info_init.
  cbn [cam ts_in1 box timestamp_tm description ifd0_tagcount ifd1_tagcount
       datasize ifds_size] in *.
  rewrite H0, H1, H2, H3. eexists. split; [reflexivity|].
  unfold snprintf. rewrite !length_take, !length_app. cbn [length].
  pose proof (length_fmt_0d 4 (tm_year (localtime_r w (tv_sec
    match ts with Some ts0 => Timespec (tv_sec ts0) (tv_nsec ts0)
    | None => clock_realtime w end)) + 1900) ltac:(lia)).
  repeat match goal with
  | |- context [length (fmt_0d 2 ?v)] =>
      lazymatch goal with
      | _ : (2 <= length (fmt_0d 2 v))%nat |- _ => fail
      | _ => pose proof (length_fmt_0d 2 v ltac:(lia))
      end
  end.
  lia.
Qed.

(** The entries of a marker that [jpgutl_exif] returned. *)
Ltac exif_run Hz Hlen Hrun :=
  unfold jpgutl_exif in Hrun;
  let Hfit := fresh "Hfit" in let dt := fresh "dt" in
  let He := fresh "He" in let Hdt := fresh "Hdt" in
  match type of Hrun with
  | jpgutl_exif_from ?w (jpgutl_exif_date ?w (exif_info_init ?f ?cm ?ts ?bx)) = _ =>
      destruct (jpgutl_exif_date_ready w (exif_info_init f cm ts bx) Hz Hlen)
        as (_ & Hfit & _);
      destruct (exif_date_shape w f cm ts bx Hz) as (dt & He & Hdt);
      cbv zeta in He;
      set (e := jpgutl_exif_date w (exif_info_init f cm ts bx)) in *;
      rewrite He in Hrun, Hfit;
      pose proof (exif_entries w cm ts bx (timestamp_tm e) (description e) dt _ _
                    ltac:(lia) Hfit Hrun) as Hen;
      cbv zeta in Hen
  end.

(** X14.  Which tags a marker of [jpgutl_exif] holds: IFD0 the image
    description when [picture_exif] is not empty, then the datetime, the
    pointer to the Exif IFD and the time zone offset; the Exif IFD the
    version, the original datetime and, when a region is passed, the
    subject area.  The subsecond tag 0x9291 is never written, since
    [jpgutl_exif_date] sets no subsecond string. *)
Theorem exif_marker_tags w fresh cm ts bx len m :
  counters_zeroed fresh ->
  strlen (mystrftime w cm (PATH_MAX - 1) (picture_exif cm)) < PATH_MAX ->
  jpgutl_exif w fresh cm ts bx = Some (len, Some m) ->
  ifd_tags m (ifd0_pos m)
  = (if decide (picture_exif cm = []) then [] else [0x010E]) ++
    [0x0132; 0x8769; 0x882A] /\
  exists p1,
    ifd1_pos m = Some p1 /\
    ifd_tags m p1
    = [0x9000; 0x9003] ++ match bx with Some _ => [0x9214] | None => [] end.
Proof.
  intros Hz Hlen Hrun. exif_run Hz Hlen Hrun.
  destruct Hen as (Hp0 & Ht0 & Hp1 & Ht1 & _).
  rewrite Hp0, Ht0. split; [|eauto].
  subst e. unfold jpgutl_exif_date. cbn [description exif_info_init cam].
  by case_decide.
Qed.

Lemma exif_marker_tags_witness :
  counters_zeroed zeroed_info /\
  strlen (mystrftime sample_world hi_camera (PATH_MAX - 1)
            (picture_exif hi_camera)) < PATH_MAX /\
  jpgutl_exif sample_world zeroed_info hi_camera None (Some sample_box)
  = Some (158, Some boxed_marker) /\
  ifd_tags boxed_marker (ifd0_pos boxed_marker)
  = (if decide (picture_exif hi_camera = []) then [] else [0x010E]) ++
    [0x0132; 0x8769; 0x882A] /\
  exists p1,
    ifd1_pos boxed_marker = Some p1 /\
    ifd_tags boxed_marker p1
    = [0x9000; 0x9003] ++
      match Some sample_box with Some _ => [0x9214] | None => [] end.
Proof.
  assert (Hz : counters_zeroed zeroed_info) by (repeat split).
  assert (Hl : strlen (mystrftime sample_world hi_camera (PATH_MAX - 1)
                         (picture_exif hi_camera)) < PATH_MAX)
    by (vm_compute; reflexivity).
  assert (Hrun : jpgutl_exif sample_world zeroed_info hi_camera None
                   (Some sample_box) = Some (158, Some boxed_marker))
    by (vm_compute; reflexivity).
  split; [exact Hz|]. split; [exact Hl|]. split; [exact Hrun|].
  apply (exif_marker_tags sample_world zeroed_info hi_camera None
           (Some sample_box) 158 boxed_marker Hz Hl Hrun).
Defined.

(** X15.  The time zone entry of IFD0 (tag 0x882A, type 8, one value)
    holds, in the upper two bytes of its value field, the whole hours of
    [tm_gmtoff], rounded toward zero, as a 16-bit two's complement
    number. *)
Theorem exif_timezone_entry w fresh cm ts bx len m :
  counters_zeroed fresh ->
  strlen (mystrftime w cm (PATH_MAX - 1) (picture_exif cm)) < PATH_MAX ->
  jpgutl_exif w fresh cm ts bx = Some (len, Some m) ->
  let hours :=
    Z.quot (tm_gmtoff (timestamp_tm
              (jpgutl_exif_date w (exif_info_init fresh cm ts bx)))) 3600 in
  exists en,
    find_entry TIFF_TAG_TZ_OFFSET (read_ifd m (ifd0_pos m)) = Some en /\
    entry_type en = 8 /\ entry_count en = 1 /\
    entry_value en = (hours mod 2 ^ 16) * 2 ^ 16 /\
    (- 2 ^ 15 <= hours < 2 ^ 15 ->
     (let u := entry_value en / 2 ^ 16 in if u <? 2 ^ 15 then u else u - 2 ^ 16)
     = hours).
Proof.
  intros Hz Hlen Hrun. exif_run Hz Hlen Hrun. cbv zeta.
  destruct Hen as (Hp0 & _ & _ & _ & _ & _ & _ & (en & Hf & Hty & Hcnt & Hv) & _).
  rewrite Hp0. exists en.
  split; [done|]. split; [done|]. split; [done|]. split.
  - rewrite Hv. unfold uint16. reflexivity.
  - intros Hr. rewrite Hv. unfold uint16.
    set (q := Z.quot _ 3600) in *. clearbody q.
    change (2 ^ 16) with 65536 in *. change (2 ^ 15) with 32768 in *.
    rewrite Z.div_mul by lia.
    destruct (Z.ltb_spec (q mod 65536) 32768); lia.
Qed.

Lemma exif_timezone_entry_witness :
  counters_zeroed zeroed_info /\
  strlen (mystrftime sample_world hi_camera (PATH_MAX - 1)
            (picture_exif hi_camera)) < PATH_MAX /\
  jpgutl_exif sample_world zeroed_info hi_camera None (Some sample_box)
  = Some (158, Some boxed_marker) /\
  let hours :=
    Z.quot (tm_gmtoff (timestamp_tm
              (jpgutl_exif_date sample_world
                 (exif_info_init zeroed_info hi_camera None (Some sample_box)))))
      3600 in
  exists en,
    find_entry TIFF_TAG_TZ_OFFSET (read_ifd boxed_marker (ifd0_pos boxed_marker))
    = Some en /\
    entry_type en = 8 /\ entry_count en = 1 /\
    entry_value en = (hours mod 2 ^ 16) * 2 ^ 16 /\
    (- 2 ^ 15 <= hours < 2 ^ 15 ->
     (let u := entry_value en / 2 ^ 16 in if u <? 2 ^ 15 then u else u - 2 ^ 16)
     = hours).
Proof.
  assert (Hz : counters_zeroed zeroed_info) by (repeat split).
  assert (Hl : strlen (mystrftime sample_world hi_camera (PATH_MAX - 1)
                         (picture_exif hi_camera)) < PATH_MAX)
    by (vm_compute; reflexivity).
  assert (Hrun : jpgutl_exif sample_world zeroed_info hi_camera None
                   (Some sample_box) = Some (158, Some boxed_marker))
    by (vm_compute; reflexivity).
  split; [exact Hz|]. split; [exact Hl|]. split; [exact Hrun|].
  apply (exif_timezone_entry sample_world zeroed_info hi_camera None
           (Some sample_box) 158 boxed_marker Hz Hl Hrun).
Defined.

(** X16.  The Exif IFD follows IFD0 at once, and the pointer to it says
    so: the entry 0x8769 of IFD0 (type 4, one value) holds the offset of
    the byte after the next-IFD field of IFD0.  Both IFDs end in a
    next-IFD field of zero, and the first entry of the Exif IFD is the
    version "0220" (tag 0x9000, type 7, count 4), stored in the entry
    itself. *)
Theorem exif_ifd_pointer w fresh cm ts bx len m :
  counters_zeroed fresh ->
  strlen (mystrftime w cm (PATH_MAX - 1) (picture_exif cm)) < PATH_MAX ->
  jpgutl_exif w fresh cm ts bx = Some (len, Some m) ->
  exists ptr p1,
    find_entry TIFF_TAG_EXIF_IFD (read_ifd m (ifd0_pos m))
    = Some (Ifd_entry TIFF_TAG_EXIF_IFD 4 1 ptr) /\
    ifd1_pos m = Some p1 /\
    p1 = (tiff_base + Z.to_nat ptr)%nat /\
    p1 = (ifd0_pos m + 2 + 12 * length (ifd_tags m (ifd0_pos m)) + 4)%nat /\
    rd32 m (p1 - 4) = 0 /\
    rd32 m (p1 + 2 + 12 * length (ifd_tags m p1)) = 0 /\
    find_entry EXIF_TAG_EXIF_VERSION (read_ifd m p1)
    = Some (Ifd_entry EXIF_TAG_EXIF_VERSION 7 4 (rd32 (ascii_bytes "0220") 0)).
Proof.
  intros Hz Hlen Hrun. exif_run Hz Hlen Hrun.
  destruct Hen as (Hp0 & Ht0 & Hp1 & Ht1 & Hptr & Hver & (Hn0 & Hn1) & _).
  rewrite Hp0, Ht0, Hptr.
  eexists _, _. split; [reflexivity|]. split; [exact Hp1|].
  split; [unfold tiff_base; lia|].
  split; [destruct (description e); cbn [opt_n length app]; lia|].
  split; [exact Hn0|]. split; [|exact Hver].
  rewrite Ht1. destruct bx; exact Hn1.
Qed.

Lemma exif_ifd_pointer_witness :
  counters_zeroed zeroed_info /\
  strlen (mystrftime sample_world hi_camera (PATH_MAX - 1)
            (picture_exif hi_camera)) < PATH_MAX /\
  jpgutl_exif sample_world zeroed_info hi_camera None (Some sample_box)
  = Some (158, Some boxed_marker) /\
  exists ptr p1,
    find_entry TIFF_TAG_EXIF_IFD (read_ifd boxed_marker (ifd0_pos boxed_marker))
    = Some (Ifd_entry TIFF_TAG_EXIF_IFD 4 1 ptr) /\
    ifd1_pos boxed_marker = Some p1 /\
    p1 = (tiff_base + Z.to_nat ptr)%nat /\
    p1 = (ifd0_pos boxed_marker + 2
          + 12 * length (ifd_tags boxed_marker (ifd0_pos boxed_marker)) + 4)%nat /\
    rd32 boxed_marker (p1 - 4) = 0 /\
    rd32 boxed_marker (p1 + 2 + 12 * length (ifd_tags boxed_marker p1)) = 0 /\
    find_entry EXIF_TAG_EXIF_VERSION (read_ifd boxed_marker p1)
    = Some (Ifd_entry EXIF_TAG_EXIF_VERSION 7 4 (rd32 (ascii_bytes "0220") 0)).
Proof.
  assert (Hz : counters_zeroed zeroed_info) by (repeat split).
  assert (Hl : strlen (mystrftime sample_world hi_camera (PATH_MAX - 1)
                         (picture_exif hi_camera)) < PATH_MAX)
    by (vm_compute; reflexivity).
  assert (Hrun : jpgutl_exif sample_world zeroed_info hi_camera None
                   (Some sample_box) = Some (158, Some boxed_marker))
    by (vm_compute; reflexivity).
  split; [exact Hz|]. split; [exact Hl|]. split; [exact Hrun|].
  apply (exif_ifd_pointer sample_world zeroed_info hi_camera None
           (Some sample_box) 158 boxed_marker Hz Hl Hrun).
Defined.

(** X17.  The datetime is written twice, under the tag 0x0132 of IFD0 and
    under the tag 0x9003 of the Exif IFD, each time as an ASCII value of
    the string and its NUL, out of line: both entries point to the same
    bytes, the string that [jpgutl_exif_date] built, and the second copy
    lies at a multiple of four. *)
Theorem exif_datetime_twice w fresh cm ts bx len m :
  counters_zeroed fresh ->
  strlen (mystrftime w cm (PATH_MAX - 1) (picture_exif cm)) < PATH_MAX ->
  jpgutl_exif w fresh cm ts bx = Some (len, Some m) ->
  exists dt e0 p1 e1,
    datetime (jpgutl_exif_date w (exif_info_init fresh cm ts bx)) = Some dt /\
    find_entry TIFF_TAG_DATETIME (read_ifd m (ifd0_pos m)) = Some e0 /\
    ifd1_pos m = Some p1 /\
    find_entry EXIF_TAG_ORIGINAL_DATETIME (read_ifd m p1) = Some e1 /\
    entry_type e0 = TIFF_TYPE_ASCII /\ entry_type e1 = TIFF_TYPE_ASCII /\
    entry_count e0 = strlen dt + 1 /\ entry_count e1 = strlen dt + 1 /\
    entry_payload m e0 = dt ++ [0] /\ entry_payload m e1 = dt ++ [0] /\
    entry_value e1 mod 4 = 0.
Proof.
  intros Hz Hlen Hrun. exif_run Hz Hlen Hrun.
  destruct Hen as (_ & _ & Hp1 & _ & _ & _ & _ & _ &
                   (e1 & Hf1 & Hty1 & Hc1 & Hal1 & Hpay1) & _).
  destruct (datetime_entry w cm ts bx (timestamp_tm e) (description e) dt len m
              ltac:(lia) Hfit Hrun) as (e0 & Hf0 & Hty0 & Hc0 & Hpay0).
  exists dt, e0, (56 + 12 * opt_n (description e))%nat, e1.
  split; [by rewrite He|]. repeat split; try done.
  by apply Z.mod_divide.
Qed.

Lemma exif_datetime_twice_witness :
  counters_zeroed zeroed_info /\
  strlen (mystrftime sample_world hi_camera (PATH_MAX - 1)
            (picture_exif hi_camera)) < PATH_MAX /\
  jpgutl_exif sample_world zeroed_info hi_camera None (Some sample_box)
  = Some (158, Some boxed_marker) /\
  exists dt e0 p1 e1,
    datetime (jpgutl_exif_date sample_world
                (exif_info_init zeroed_info hi_camera None (Some sample_box)))
    = Some dt /\
    find_entry TIFF_TAG_DATETIME (read_ifd boxed_marker (ifd0_pos boxed_marker))
    = Some e0 /\
    ifd1_pos boxed_marker = Some p1 /\
    find_entry EXIF_TAG_ORIGINAL_DATETIME (read_ifd boxed_marker p1) = Some e1 /\
    entry_type e0 = TIFF_TYPE_ASCII /\ entry_type e1 = TIFF_TYPE_ASCII /\
    entry_count e0 = strlen dt + 1 /\ entry_count e1 = strlen dt + 1 /\
    entry_payload boxed_marker e0 = dt ++ [0] /\
    entry_payload boxed_marker e1 = dt ++ [0] /\
    entry_value e1 mod 4 = 0.
Proof.
  assert (Hz : counters_zeroed zeroed_info) by (repeat split).
  assert (Hl : strlen (mystrftime sample_world hi_camera (PATH_MAX - 1)
                         (picture_exif hi_camera)) < PATH_MAX)
    by (vm_compute; reflexivity).
  assert (Hrun : jpgutl_exif sample_world zeroed_info hi_camera None
                   (Some sample_box) = Some (158, Some boxed_marker))
    by (vm_compute; reflexivity).
  split; [exact Hz|]. split; [exact Hl|]. split; [exact Hrun|].
  apply (exif_datetime_twice sample_world zeroed_info hi_camera None
           (Some sample_box) 158 boxed_marker Hz Hl Hrun).
Defined.

Lemma rd16_in (m : block) q (bs : list Z) k :
  take (length bs) (drop q m) = bs -> (k + 2 <= length bs)%nat ->
  rd16 m (q + k) = rd16 bs k.
Proof.
  intros Hbs Hk. unfold rd16, rd8.
  assert (Hn : forall j, (j < length bs)%nat -> nth (q + j) m 0 = nth j bs 0).
  { intros j Hj.
    assert (length (take (length bs) (drop q m)) = length bs) as Hl
      by (by rewrite Hbs).
    rewrite length_take, length_drop in Hl.
    transitivity (nth j (take (length bs) (drop q m)) 0); [|by rewrite Hbs].
    rewrite !(nth_lookup _ _ 0), lookup_take_lt, lookup_drop by lia. done. }
  rewrite <- Nat.add_assoc. by rewrite !Hn by lia.
Qed.

(** X18.  Round trip of the region: when a region is passed, the Exif IFD
    holds the subject area (tag 0x9214, type 3, four values), and the
    four 16-bit values found at its offset are the x, y, width and height
    of the region, each reduced modulo 2^16. *)
Theorem exif_subject_area_roundtrip w fresh cm ts b len m :
  counters_zeroed fresh ->
  strlen (mystrftime w cm (PATH_MAX - 1) (picture_exif cm)) < PATH_MAX ->
  jpgutl_exif w fresh cm ts (Some b) = Some (len, Some m) ->
  exists p1 en,
    ifd1_pos m = Some p1 /\
    find_entry EXIF_TAG_SUBJECT_AREA (read_ifd m p1) = Some en /\
    entry_type en = TIFF_TYPE_USHORT /\ entry_count en = 4 /\
    map (fun k => rd16 m (tiff_base + Z.to_nat (entry_value en) + 2 * k)) (seq 0 4)
    = [coord_x b mod 2 ^ 16; coord_y b mod 2 ^ 16;
       coord_width b mod 2 ^ 16; coord_height b mod 2 ^ 16].
Proof.
  intros Hz Hlen Hrun. exif_run Hz Hlen Hrun.
  destruct Hen as (_ & _ & Hp1 & _ & _ & _ & _ & _ & _ & Hbox).
  destruct (Hbox b eq_refl) as (en & Hf & Hty & Hcnt & Hpay).
  exists (56 + 12 * opt_n (description e))%nat, en. repeat split; try done.
  cbn [seq map].
  assert (Hl : length (be16 (coord_x b) ++ be16 (coord_y b) ++
                       be16 (coord_width b) ++ be16 (coord_height b)) = 8%nat)
    by (by rewrite !length_app, !length_be16).
  rewrite <- Hl in Hpay.
  rewrite !(rd16_in m _ _ _ Hpay) by (rewrite Hl; lia).
  destruct (be16_cells (coord_x b)) as (x0 & x1 & -> & Hx).
  destruct (be16_cells (coord_y b)) as (y0 & y1 & -> & Hy).
  destruct (be16_cells (coord_width b)) as (w0 & w1 & -> & Hw).
  destruct (be16_cells (coord_height b)) as (h0 & h1 & -> & Hh).
  unfold rd16, rd8, uint16 in *. cbn [app nth Nat.add Nat.mul].
  by rewrite Hx, Hy, Hw, Hh.
Qed.

Lemma exif_subject_area_roundtrip_witness :
  counters_zeroed zeroed_info /\
  strlen (mystrftime sample_world hi_camera (PATH_MAX - 1)
            (picture_exif hi_camera)) < PATH_MAX /\
  jpgutl_exif sample_world zeroed_info hi_camera None (Some sample_box)
  = Some (158, Some boxed_marker) /\
  exists p1 en,
    ifd1_pos boxed_marker = Some p1 /\
    find_entry EXIF_TAG_SUBJECT_AREA (read_ifd boxed_marker p1) = Some en /\
    entry_type en = TIFF_TYPE_USHORT /\ entry_count en = 4 /\
    map (fun k => rd16 boxed_marker (tiff_base + Z.to_nat (entry_value en) + 2 * k))
      (seq 0 4)
    = [coord_x sample_box mod 2 ^ 16; coord_y sample_box mod 2 ^ 16;
       coord_width sample_box mod 2 ^ 16; coord_height sample_box mod 2 ^ 16].
Proof.
  assert (Hz : counters_zeroed zeroed_info) by (repeat split).
  assert (Hl : strlen (mystrftime sample_world hi_camera (PATH_MAX - 1)
                         (picture_exif hi_camera)) < PATH_MAX)
    by (vm_compute; reflexivity).
  assert (Hrun : jpgutl_exif sample_world zeroed_info hi_camera None
                   (Some sample_box) = Some (158, Some boxed_marker))
    by (vm_compute; reflexivity).
  split; [exact Hz|]. split; [exact Hl|]. split; [exact Hrun|].
  apply (exif_subject_area_roundtrip sample_world zeroed_info hi_camera None
           sample_box 158 boxed_marker Hz Hl Hrun).
Defined.

(** * Properties of the source and destination managers *)

Section ManagerFacts.

Variables long_bits size_t_bits : Z.
Hypothesis long_wide : 3 <= long_bits.
Hypothesis long_fits : long_bits <= size_t_bits.

Lemma to_long_small v :
  0 <= v < 2 ^ (long_bits - 1) -> to_long long_bits v = v.
Proof.
  intros Hv. unfold to_long.
  assert (2 ^ long_bits = 2 * 2 ^ (long_bits - 1)) as Hp.
  { rewrite <- Z.pow_succ_r by lia. f_equal. lia. }
  rewrite Z.mod_small by lia. cbv zeta.
  destruct (Z.ltb_spec v (2 ^ (long_bits - 1))); lia.
Qed.

Lemma to_size_t_small v :
  0 <= v < 2 ^ (long_bits - 1) -> to_size_t size_t_bits v = v.
Proof.
  intros Hv. unfold to_size_t. apply Z.mod_small.
  assert (2 ^ (long_bits - 1) <= 2 ^ size_t_bits)
    by (apply Z.pow_le_mono_r; lia).
  lia.
Qed.

(** Skipping within a source whose count fits a [long]. *)
Lemma jpgutl_skip_data_spec src n :
  0 <= bytes_in_buffer src < 2 ^ (long_bits - 1) ->
  jpgutl_skip_data long_bits size_t_bits src n
  = let k := Z.max 0 (Z.min n (bytes_in_buffer src)) in
    Jpeg_source_mgr (ptr_add (next_input_byte src) k) (bytes_in_buffer src - k).
Proof.
  intros Hb. unfold jpgutl_skip_data. cbv zeta.
  rewrite (to_long_small (bytes_in_buffer src)) by done.
  destruct (Z.gtb_spec n 0) as [Hn|Hn].
  - destruct (Z.gtb_spec n (bytes_in_buffer src)) as [Hgt|Hle].
    + rewrite (to_size_t_small (bytes_in_buffer src)) by done.
      rewrite Z.min_r, Z.max_r by lia.
      by rewrite to_size_t_small by lia.
    + rewrite (to_size_t_small n) by lia.
      rewrite Z.min_l, Z.max_r by lia.
      by rewrite to_size_t_small by lia.
  - rewrite Z.max_l by lia. destruct src as [[o|o] b]; cbn;
      by rewrite Z.add_0_r, Z.sub_0_r.
Qed.

(** X19.  Whatever the library asks of the source manager, in any order,
    the bytes it is offered lie in the JPEG buffer of the caller or in the
    two bytes of the EOI marker: the offset of [next_input_byte] and
    [bytes_in_buffer] always add up to the size of the object pointed
    into.  A skip is clamped to the bytes that are left, and a skip of
    zero or less changes nothing. *)
Theorem source_stays_in_buffer buffer_len steps :
  0 <= buffer_len < 2 ^ (long_bits - 1) ->
  let src := fold_left (src_run long_bits size_t_bits) steps
               (jpgutl_buffer_src size_t_bits buffer_len) in
  0 <= ptr_offset (next_input_byte src) /\
  0 <= bytes_in_buffer src /\
  ptr_offset (next_input_byte src) + bytes_in_buffer src
  = src_room buffer_len (next_input_byte src).
Proof.
  intros Hlen. cbv zeta.
  assert (Hroom : 2 < 2 ^ (long_bits - 1)).
  { pose proof (Z.pow_le_mono_r 2 2 (long_bits - 1) ltac:(lia) ltac:(lia)). lia. }
  assert (Hinv : forall src,
    (0 <= ptr_offset (next_input_byte src) /\ 0 <= bytes_in_buffer src /\
     ptr_offset (next_input_byte src) + bytes_in_buffer src
     = src_room buffer_len (next_input_byte src)) ->
    forall s,
      let src' := src_run long_bits size_t_bits src s in
      0 <= ptr_offset (next_input_byte src') /\ 0 <= bytes_in_buffer src' /\
      ptr_offset (next_input_byte src') + bytes_in_buffer src'
      = src_room buffer_len (next_input_byte src')).
  { intros src (Ho & Hb & Hsum) s. cbv zeta.
    assert (Hbl : bytes_in_buffer src < 2 ^ (long_bits - 1))
      by (destruct src as [[o|o] b]; cbn in *; lia).
    destruct s as [n|n|]; cbn [src_run].
    - destruct (Z.leb_spec 0 n), (Z.leb_spec n (bytes_in_buffer src));
        cbn [andb]; try done.
      destruct src as [[o|o] b]; cbn in *; lia.
    - rewrite jpgutl_skip_data_spec by lia. cbv zeta.
      destruct src as [[o|o] b]; cbn in *; lia.
    - cbn. lia. }
  revert Hinv. generalize (src_run long_bits size_t_bits). intros run Hinv.
  assert (Hstart : let src := jpgutl_buffer_src size_t_bits buffer_len in
    0 <= ptr_offset (next_input_byte src) /\ 0 <= bytes_in_buffer src /\
    ptr_offset (next_input_byte src) + bytes_in_buffer src
    = src_room buffer_len (next_input_byte src)).
  { unfold jpgutl_buffer_src. cbn. rewrite to_size_t_small by lia. lia. }
  revert Hstart. generalize (jpgutl_buffer_src size_t_bits buffer_len).
  induction steps as [|s steps IH]; intros src Hsrc; cbn [fold_left]; [done|].
  apply IH, Hinv, Hsrc.
Qed.

(** X20.  [jpgutl_skip_data] never moves past the data: asked for more
    than is left it skips what is left and leaves an empty buffer, asked
    for zero or less it does nothing, and otherwise it skips what it was
    asked for. *)
Theorem skip_data_clamps src n :
  0 <= bytes_in_buffer src < 2 ^ (long_bits - 1) ->
  let src' := jpgutl_skip_data long_bits size_t_bits src n in
  (n <= 0 -> src' = src) /\
  (0 < n <= bytes_in_buffer src ->
   next_input_byte src' = ptr_add (next_input_byte src) n /\
   bytes_in_buffer src' = bytes_in_buffer src - n) /\
  (bytes_in_buffer src < n ->
   next_input_byte src' = ptr_add (next_input_byte src) (bytes_in_buffer src) /\
   bytes_in_buffer src' = 0).
Proof.
  intros Hb. cbv zeta. rewrite jpgutl_skip_data_spec by done. cbv zeta.
  split; [|split].
  - intros Hn. rewrite Z.max_l by lia.
    destruct src as [[o|o] b]; cbn; by rewrite Z.add_0_r, Z.sub_0_r.
  - intros Hn. rewrite Z.min_l, Z.max_r by lia. done.
  - intros Hn. rewrite Z.min_r, Z.max_r by lia. cbn. split; [done|lia].
Qed.

End ManagerFacts.

(** X21.  The size that [term_destination] records, and [_jpeg_mem_size]
    returns, is the number of bytes written since the buffer was last
    emptied, never more than the size of the buffer: [empty_output_buffer]
    starts again at the beginning of the buffer, so what was written
    before it is overwritten and not counted. *)
Theorem mem_dest_size size_t_bits dest0 size steps :
  0 <= size < 2 ^ size_t_bits ->
  let dest := fold_left dest_run steps
                (init_destination (_jpeg_mem_dest dest0 size)) in
  jpegsize (term_destination size_t_bits dest) = written_since_empty steps size 0 /\
  0 <= jpegsize (term_destination size_t_bits dest) <= size /\
  next_output_byte dest = jpegsize (term_destination size_t_bits dest).
Proof.
  intros Hsize. cbv zeta.
  assert (Hgen : forall acc d,
    0 <= acc <= size -> bufsize d = size -> free_in_buffer d = size - acc ->
    next_output_byte d = acc ->
    let d' := fold_left dest_run steps d in
    jpegsize (term_destination size_t_bits d') = written_since_empty steps size acc /\
    0 <= jpegsize (term_destination size_t_bits d') <= size /\
    next_output_byte d' = jpegsize (term_destination size_t_bits d')).
  { induction steps as [|s steps IH]; intros acc d Hacc Hb Hf Hn; cbv zeta;
      cbn [fold_left written_since_empty].
    - unfold term_destination, to_size_t. cbn [jpegsize].
      rewrite Hb, Hf, Z.mod_small by lia. lia.
    - destruct s as [n|]; cbn [dest_run].
      + rewrite Hf.
        destruct (Z.leb_spec 0 n), (Z.leb_spec n (size - acc)); cbn [andb];
          try (apply IH; done).
        apply IH; cbn; lia.
      + apply IH; cbn; lia. }
  apply Hgen; cbn; lia.
Qed.

Lemma source_stays_in_buffer_witness :
  3 <= 64 /\ 64 <= 64 /\ 0 <= 10 < 2 ^ (64 - 1) /\
  let src := fold_left (src_run 64 64)
               [Src_read 4; Src_skip 100; Src_fill; Src_skip 1]
               (jpgutl_buffer_src 64 10) in
  0 <= ptr_offset (next_input_byte src) /\
  0 <= bytes_in_buffer src /\
  ptr_offset (next_input_byte src) + bytes_in_buffer src
  = src_room 10 (next_input_byte src).
Proof.
  assert (H1 : 3 <= 64) by lia.
  assert (H2 : 64 <= 64) by lia.
  assert (H3 : 0 <= 10 < 2 ^ (64 - 1)) by lia.
  split; [exact H1|]. split; [exact H2|]. split; [exact H3|].
  apply (source_stays_in_buffer 64 64 H1 H2 10
           [Src_read 4; Src_skip 100; Src_fill; Src_skip 1] H3).
Defined.

Lemma skip_data_clamps_witness :
  3 <= 64 /\ 64 <= 64 /\
  0 <= bytes_in_buffer (Jpeg_source_mgr (In_buffer 2) 8) < 2 ^ (64 - 1) /\
  let src := Jpeg_source_mgr (In_buffer 2) 8 in
  let src' := jpgutl_skip_data 64 64 src 100 in
  (100 <= 0 -> src' = src) /\
  (0 < 100 <= bytes_in_buffer src ->
   next_input_byte src' = ptr_add (next_input_byte src) 100 /\
   bytes_in_buffer src' = bytes_in_buffer src - 100) /\
  (bytes_in_buffer src < 100 ->
   next_input_byte src' = ptr_add (next_input_byte src) (bytes_in_buffer src) /\
   bytes_in_buffer src' = 0).
Proof.
  assert (H1 : 3 <= 64) by lia.
  assert (H2 : 64 <= 64) by lia.
  assert (H3 : 0 <= bytes_in_buffer (Jpeg_source_mgr (In_buffer 2) 8)
               < 2 ^ (64 - 1)) by (cbn; lia).
  split; [exact H1|]. split; [exact H2|]. split; [exact H3|].
  apply (skip_data_clamps 64 64 H1 H2 (Jpeg_source_mgr (In_buffer 2) 8) 100 H3).
Defined.

Lemma mem_dest_size_witness :
  0 <= 16 < 2 ^ 64 /\
  let dest := fold_left dest_run [Dest_write 10; Dest_write 6; Dest_empty; Dest_write 3]
                (init_destination (_jpeg_mem_dest (Mem_destination_mgr 0 0 0 0) 16)) in
  jpegsize (term_destination 64 dest)
  = written_since_empty [Dest_write 10; Dest_write 6; Dest_empty; Dest_write 3] 16 0 /\
  0 <= jpegsize (term_destination 64 dest) <= 16 /\
  next_output_byte dest = jpegsize (term_destination 64 dest).
Proof.
  assert (H : 0 <= 16 < 2 ^ 64) by lia. split; [exact H|].
  apply (mem_dest_size 64 (Mem_destination_mgr 0 0 0 0) 16
           [Dest_write 10; Dest_write 6; Dest_empty; Dest_write 3] H).
Defined.


(** * Properties of the Huffman tables *)

Lemma nsymbols_nonneg bs :
  Forall (fun b => 0 <= b <= 255) bs -> 0 <= nsymbols bs <= 16 * 255.
Proof.
  intros Hb. unfold nsymbols.
  assert (Hf : Forall (fun b => 0 <= b <= 255) (take 16 (drop 1 bs)))
    by (by apply Forall_take, Forall_drop).
  assert (Hl : (length (take 16 (drop 1 bs)) <= 16)%nat)
    by (rewrite length_take; lia).
  revert Hf Hl. generalize (take 16 (drop 1 bs)). intros l Hf Hl.
  assert (Hgen : forall acc, 0 <= acc ->
            acc <= fold_left Z.add l acc <= acc + 255 * Z.of_nat (length l)).
  { clear Hl. induction Hf as [|b l Hb' Hf IH]; intros acc Hacc; cbn [fold_left length].
    - lia.
    - specialize (IH (acc + b) ltac:(lia)). lia. }
  specialize (Hgen 0 ltac:(lia)). lia.
Qed.

(** What [add_huff_table] leaves in a slot. *)
Lemma add_huff_table_ok fresh slot bits_in val :
  let tbl := match slot with Some t => t | None => fresh end in
  let n := Z.to_nat (nsymbols bits_in) in
  length bits_in = 17%nat -> Forall (fun b => 0 <= b <= 255) bits_in ->
  length (bits tbl) = 17%nat -> length (huffval tbl) = 256%nat ->
  (n <= 256)%nat -> (n <= length val)%nat ->
  add_huff_table fresh slot bits_in val
  = Some (Jhuff_tbl bits_in (take n val ++ drop n (huffval tbl)),
          nsymbols bits_in <? 1).
Proof.
  cbv zeta. intros Hb Hr Hbt Hh Hn Hv. unfold add_huff_table.
  pose proof (nsymbols_nonneg bits_in Hr) as Hns.
  rewrite uint_small by lia.
  set (tbl := match slot with Some t => t | None => fresh end) in *.
  rewrite (take_ge bits_in 17) by lia.
  assert (Hm1 : memcpy 0 bits_in (bits tbl) = Some bits_in).
  { unfold memcpy. rewrite Hb, Hbt. cbn [Nat.add]. case_decide; [|lia].
    cbn [take app]. by rewrite drop_ge, app_nil_r by lia. }
  rewrite Hm1. cbn [mbind option_bind]. case_decide; [|lia].
  assert (Hm2 : memcpy 0 (take (Z.to_nat (nsymbols bits_in)) val) (huffval tbl)
                = Some (take (Z.to_nat (nsymbols bits_in)) val ++
                        drop (Z.to_nat (nsymbols bits_in)) (huffval tbl))).
  { unfold memcpy. rewrite length_take, Hh, Nat.min_l by lia.
    cbn [Nat.add]. case_decide; [|lia]. done. }
  rewrite Hm2. cbn [mbind option_bind].
  destruct (Z.gtb_spec (nsymbols bits_in) 256); [lia|].
  by rewrite orb_false_r.
Qed.

(** X22.  [add_huff_table] copies the seventeen counts and as many values
    as the counts add up to, and leaves the rest of the table as it was.
    The test of the number of symbols only logs: the copy is made
    whatever its outcome, so counts that add up to more than 256 overrun
    [huffval], and counts that add up to zero copy nothing. *)
Theorem add_huff_table_copies fresh slot bits_in val :
  let tbl := match slot with Some t => t | None => fresh end in
  let n := Z.to_nat (nsymbols bits_in) in
  length bits_in = 17%nat -> Forall (fun b => 0 <= b <= 255) bits_in ->
  length (bits tbl) = 17%nat -> length (huffval tbl) = 256%nat ->
  (n <= length val)%nat ->
  if decide (n <= 256)%nat then
    add_huff_table fresh slot bits_in val
    = Some (Jhuff_tbl bits_in (take n val ++ drop n (huffval tbl)),
            bool_decide (n = 0%nat))
  else add_huff_table fresh slot bits_in val = None.
Proof.
  cbv zeta. intros Hb Hr Hbt Hh Hv.
  pose proof (nsymbols_nonneg bits_in Hr) as Hns.
  case_decide as Hn.
  - rewrite add_huff_table_ok by done. do 2 f_equal.
    destruct (Z.ltb_spec (nsymbols bits_in) 1); case_bool_decide; (done || lia).
  - unfold add_huff_table. rewrite uint_small by lia.
    set (tbl := match slot with Some t => t | None => fresh end) in *.
    destruct (memcpy 0 (take 17 bits_in) (bits tbl)); [|done].
    cbn [mbind option_bind]. case_decide; [|done].
    unfold memcpy. rewrite length_take, Hh. case_decide; [lia|done].
Qed.

Lemma add_huff_table_copies_witness :
  let fresh := Jhuff_tbl (replicate 17 0xAA) (replicate 256 0xAA) in
  let tbl := match @None JHUFF_TBL with Some t => t | None => fresh end in
  let n := Z.to_nat (nsymbols bits_dc_luminance) in
  length bits_dc_luminance = 17%nat /\
  Forall (fun b => 0 <= b <= 255) bits_dc_luminance /\
  length (bits tbl) = 17%nat /\ length (huffval tbl) = 256%nat /\
  (n <= length val_dc_luminance)%nat /\
  if decide (n <= 256)%nat then
    add_huff_table fresh None bits_dc_luminance val_dc_luminance
    = Some (Jhuff_tbl bits_dc_luminance
              (take n val_dc_luminance ++ drop n (huffval tbl)),
            bool_decide (n = 0%nat))
  else add_huff_table fresh None bits_dc_luminance val_dc_luminance = None.
Proof.
  cbv zeta.
  assert (H1 : length bits_dc_luminance = 17%nat) by reflexivity.
  assert (H2 : Forall (fun b => 0 <= b <= 255) bits_dc_luminance)
    by (repeat constructor; lia).
  assert (H3 : length (bits (Jhuff_tbl (replicate 17 0xAA) (replicate 256 0xAA)))
               = 17%nat) by reflexivity.
  assert (H4 : length (huffval (Jhuff_tbl (replicate 17 0xAA) (replicate 256 0xAA)))
               = 256%nat) by reflexivity.
  assert (H5 : (Z.to_nat (nsymbols bits_dc_luminance)
                <= length val_dc_luminance)%nat) by (vm_compute; lia).
  repeat (split; [assumption|]).
  apply (add_huff_table_copies (Jhuff_tbl (replicate 17 0xAA) (replicate 256 0xAA))
           None bits_dc_luminance val_dc_luminance H1 H2 H3 H4 H5).
Defined.

(** X23.  [guarantee_huff_tables] installs the standard tables only when
    all four slots are empty; then each slot receives its counts and its
    values, 12 for the DC tables and 162 for the AC tables, the number
    that the counts add up to, and no error is logged.  When a single
    slot holds a table nothing is installed, and the empty slots stay
    empty. *)
Theorem guarantee_huff_tables_installs fresh s :
  length (bits fresh) = 17%nat -> length (huffval fresh) = 256%nat ->
  (dc0 s = None /\ dc1 s = None /\ ac0 s = None /\ ac1 s = None ->
   guarantee_huff_tables fresh s
   = Some (Huff_slots
             (Some (Jhuff_tbl bits_dc_luminance
                      (val_dc_luminance ++ drop 12 (huffval fresh))))
             (Some (Jhuff_tbl bits_dc_chrominance
                      (val_dc_chrominance ++ drop 12 (huffval fresh))))
             (Some (Jhuff_tbl bits_ac_luminance
                      (val_ac_luminance ++ drop 162 (huffval fresh))))
             (Some (Jhuff_tbl bits_ac_chrominance
                      (val_ac_chrominance ++ drop 162 (huffval fresh)))),
           [false; false; false; false])) /\
  (dc0 s <> None \/ dc1 s <> None \/ ac0 s <> None \/ ac1 s <> None ->
   guarantee_huff_tables fresh s = Some (s, [])).
Proof.
  intros Hb Hh. split.
  - intros (H1 & H2 & H3 & H4). unfold guarantee_huff_tables.
    rewrite H1, H2, H3, H4. unfold std_huff_tables. rewrite H1, H2, H3, H4.
    rewrite (add_huff_table_ok fresh None bits_dc_luminance val_dc_luminance);
      [|reflexivity|repeat constructor; lia|exact Hb|exact Hh
       |vm_compute; lia|vm_compute; lia].
    cbn [mbind option_bind fst snd].
    rewrite (add_huff_table_ok fresh None bits_ac_luminance val_ac_luminance);
      [|reflexivity|repeat constructor; lia|exact Hb|exact Hh
       |vm_compute; lia|vm_compute; lia].
    cbn [mbind option_bind fst snd].
    rewrite (add_huff_table_ok fresh None bits_dc_chrominance val_dc_chrominance);
      [|reflexivity|repeat constructor; lia|exact Hb|exact Hh
       |vm_compute; lia|vm_compute; lia].
    cbn [mbind option_bind fst snd].
    rewrite (add_huff_table_ok fresh None bits_ac_chrominance val_ac_chrominance);
      [|reflexivity|repeat constructor; lia|exact Hb|exact Hh
       |vm_compute; lia|vm_compute; lia].
    cbn [mbind option_bind fst snd].
    change (Z.to_nat (nsymbols bits_dc_luminance)) with 12%nat.
    change (Z.to_nat (nsymbols bits_dc_chrominance)) with 12%nat.
    change (Z.to_nat (nsymbols bits_ac_luminance)) with 162%nat.
    change (Z.to_nat (nsymbols bits_ac_chrominance)) with 162%nat.
    rewrite (take_ge val_dc_luminance), (take_ge val_dc_chrominance),
      (take_ge val_ac_luminance), (take_ge val_ac_chrominance)
      by (vm_compute; lia).
    reflexivity.
  - intros Hs. unfold guarantee_huff_tables.
    destruct (dc0 s), (dc1 s), (ac0 s), (ac1 s); try done.
    by destruct Hs as [?|[?|[?|?]]].
Qed.

Lemma guarantee_huff_tables_installs_witness :
  let fresh := Jhuff_tbl (replicate 17 0xAA) (replicate 256 0xAA) in
  let s := Huff_slots None None (Some fresh) None in
  length (bits fresh) = 17%nat /\ length (huffval fresh) = 256%nat /\
  (dc0 s = None /\ dc1 s = None /\ ac0 s = None /\ ac1 s = None ->
   guarantee_huff_tables fresh s
   = Some (Huff_slots
             (Some (Jhuff_tbl bits_dc_luminance
                      (val_dc_luminance ++ drop 12 (huffval fresh))))
             (Some (Jhuff_tbl bits_dc_chrominance
                      (val_dc_chrominance ++ drop 12 (huffval fresh))))
             (Some (Jhuff_tbl bits_ac_luminance
                      (val_ac_luminance ++ drop 162 (huffval fresh))))
             (Some (Jhuff_tbl bits_ac_chrominance
                      (val_ac_chrominance ++ drop 162 (huffval fresh)))),
           [false; false; false; false])) /\
  (dc0 s <> None \/ dc1 s <> None \/ ac0 s <> None \/ ac1 s <> None ->
   guarantee_huff_tables fresh s = Some (s, [])).
Proof.
  cbv zeta.
  assert (H1 : length (bits (Jhuff_tbl (replicate 17 0xAA) (replicate 256 0xAA)))
               = 17%nat) by reflexivity.
  assert (H2 : length (huffval (Jhuff_tbl (replicate 17 0xAA) (replicate 256 0xAA)))
               = 256%nat) by reflexivity.
  split; [exact H1|]. split; [exact H2|].
  apply (guarantee_huff_tables_installs
           (Jhuff_tbl (replicate 17 0xAA) (replicate 256 0xAA))
           (Huff_slots None None
              (Some (Jhuff_tbl (replicate 17 0xAA) (replicate 256 0xAA))) None)
           H1 H2).
Defined.

(** * Round trip through the row groups and the demultiplexer *)






(** * Reading the image description back *)

(** Every step of the serializer appends to the two streams. *)
Lemma extends_trans (x y z : img) :
  (exists a b, y = (x.1 ++ a, x.2 ++ b)) ->
  (exists a b, z = (y.1 ++ a, y.2 ++ b)) ->
  exists a b, z = (x.1 ++ a, x.2 ++ b).
Proof.
  intros (a & b & ->) (a' & b' & ->). cbn [fst snd].
  exists (a ++ a'), (b ++ b'). by rewrite !app_assoc.
Qed.

Lemma img_bytes_extends bs i :
  exists a b, img_bytes bs i = (i.1 ++ a, i.2 ++ b).
Proof. exists bs, []. unfold img_bytes. by rewrite app_nil_r. Qed.

Lemma img_stringentry_extends E tag s with_nul i :
  exists a b, img_stringentry E tag s with_nul i = (i.1 ++ a, i.2 ++ b).
Proof.
  destruct (img_stringentry_shape E tag s with_nul i)
    as (a & b & c & d & o & _ & ->). eauto.
Qed.

Lemma img_subjectarea_extends E bx i :
  exists a b, img_subjectarea E bx i = (i.1 ++ a, i.2 ++ b).
Proof. unfold img_subjectarea. eauto. Qed.

Lemma img_when_extends {A} (o : option A) f i :
  (forall a j, exists r1 r2, f a j = (j.1 ++ r1, j.2 ++ r2)) ->
  exists a b, img_when o f i = (i.1 ++ a, i.2 ++ b).
Proof.
  intros Hf. destruct o as [a|]; cbn [img_when]; [apply Hf|].
  exists [], []. rewrite !app_nil_r. by destruct i.
Qed.

Lemma extends_refl (i : img) : exists a b, i = (i.1 ++ a, i.2 ++ b).
Proof. exists [], []. rewrite !app_nil_r. by destruct i. Qed.

Ltac extends_atom :=
  cbv beta;
  first
    [ apply img_bytes_extends
    | apply img_stringentry_extends
    | apply img_subjectarea_extends
    | apply img_when_extends; intros; extends_atom ].

(** From the outermost step inwards, down to [i]. *)
Ltac extends_from i :=
  lazymatch goal with
  | |- exists a b, i = _ => apply extends_refl
  | |- _ => eapply extends_trans; [|extends_atom]; extends_from i
  end.

Lemma img_ifd1_extends E e i :
  exists a b, img_ifd1 E e i = (i.1 ++ a, i.2 ++ b).
Proof.
  unfold img_ifd1. destruct (ifd1_tagcount e >? 0); [|apply extends_refl].
  cbv zeta. extends_from i.
Qed.

Lemma img_ifd0_description E e ds i :
  description e = Some ds ->
  exists a b,
    img_ifd0 E e i
    = ((img_stringentry E TIFF_TAG_IMAGE_DESCRIPTION ds true
          (img_bytes (be16 (uint (ifd0_tagcount e))) i)).1 ++ a,
       (img_stringentry E TIFF_TAG_IMAGE_DESCRIPTION ds true
          (img_bytes (be16 (uint (ifd0_tagcount e))) i)).2 ++ b).
Proof.
  intros Hd. unfold img_ifd0. rewrite Hd. cbn [img_when]. cbv zeta.
  set (j := img_stringentry _ _ _ _ _).
  destruct (ifd1_tagcount e >? 0); extends_from j.
Qed.

Lemma img_stringentry_inline_eq E tag s with_nul i :
  Z.of_nat (length (str_data s with_nul)) <= 4 ->
  img_stringentry E tag s with_nul i
  = (i.1 ++ be16 tag ++ be16 TIFF_TYPE_ASCII ++
     be32 (Z.of_nat (length (str_data s with_nul))) ++
     str_data s with_nul ++ replicate (4 - length (str_data s with_nul)) 0,
     i.2).
Proof.
  intros Hn. unfold img_stringentry.
  destruct (Z.leb_spec (Z.of_nat (length (str_data s with_nul))) 4); [|lia].
  by rewrite <- !app_assoc.
Qed.

(** The description is the first entry of IFD0.  Its value, the string and
    its NUL, lies in the entry itself when it takes four bytes or less,
    and else at the offset that the entry holds, a multiple of four. *)
Lemma description_entry w e ds len m :
  counters_zeroed e -> inventory_fits e -> description e = Some ds ->
  jpgutl_exif_from w e = Some (len, Some m) ->
  ifd0_pos m = 14%nat /\
  find_entry TIFF_TAG_IMAGE_DESCRIPTION (read_ifd m 14) = Some (read_entry m 16) /\
  entry_type (read_entry m 16) = TIFF_TYPE_ASCII /\
  entry_count (read_entry m 16) = strlen ds + 1 /\
  (strlen ds + 1 <= 4 ->
   take 4 (drop 24 m) = ds ++ replicate (4 - length ds) 0) /\
  (4 < strlen ds + 1 ->
   (4 | entry_value (read_entry m 16)) /\
   entry_payload m (read_entry m 16) = ds ++ [0]).
Proof.
  intros Hz Hfit Hd Hrun.
  destruct (jpgutl_exif_from_inv w e len m Hz Hfit Hrun) as (Hany & _ & Hm).
  pose proof (exif_img_dir e Hz Hfit Hany) as Hdir.
  pose proof (inventory_nonneg e) as [Hi0 Hd0].
  clear Hrun. unfold exif_img in Hm, Hdir.
  rewrite (jpgutl_exif_tags_eq e Hz Hfit) in Hm, Hdir.
  cbn [ifds_size inventoried] in Hm, Hdir.
  set (E := Z.to_nat (14 + inventory_ifds_size e)) in *.
  destruct (img_ifd1_extends E (inventoried e)
              (img_ifd0 E (inventoried e) (exif_marker_start, [])))
    as (a1 & b1 & H1).
  destruct (img_ifd0_description E (inventoried e) ds (exif_marker_start, [])
              Hd) as (a0 & b0 & H0).
  rewrite H1, H0 in Hm, Hdir. clear H1 H0.
  cbn [fst snd ifd0_tagcount inventoried] in Hm, Hdir.
  assert (Hc : 1 <= tag_count0 e <= 4).
  { unfold tag_count0, tag_count1. rewrite Hd.
    destruct (datetime e), (subtime e), (box e); simpl; lia. }
  rewrite (uint_small (tag_count0 e)) in Hm, Hdir by lia.
  assert (Hn : Z.of_nat (length (str_data ds true)) = strlen ds + 1).
  { rewrite length_str_data. unfold strlen. lia. }
  assert (Hn32 : strlen ds + 1 < 2 ^ 32).
  { unfold inventory_fits, inventory_datasize in Hfit. rewrite Hd in Hfit.
    cbn [booked] in Hfit.
    assert (0 <= booked (datetime e)) by (unfold booked, strlen; destruct (datetime e); lia).
    assert (0 <= booked (subtime e)) by (unfold booked, strlen; destruct (subtime e); lia).
    lia. }
  assert (Hs0 : 0 <= strlen ds) by (unfold strlen; lia).
  unfold img_bytes in Hm, Hdir. cbn [fst snd] in Hm, Hdir.
  (* the fields that both layouts share *)
  assert (Hhead : exists V rest,
    length V = 4%nat /\
    m = exif_marker_start ++ be16 (tag_count0 e) ++
        be16 TIFF_TAG_IMAGE_DESCRIPTION ++ be16 TIFF_TYPE_ASCII ++
        be32 (strlen ds + 1) ++ V ++ rest).
  { destruct (img_stringentry_shape E TIFF_TAG_IMAGE_DESCRIPTION ds true
                (exif_marker_start ++ be16 (tag_count0 e), []))
      as (a & b & c & d & o & _ & Hs).
    rewrite Hs in Hm. cbn [fst snd] in Hm. rewrite Hn in Hm.
    exists [a; b; c; d]. eexists. split; [done|].
    rewrite Hm. rewrite <- !app_assoc. reflexivity. }
  destruct Hhead as (V & rest & HV & Hhead).
  assert (Hpos : ifd0_pos m = 14%nat) by (rewrite Hhead; reflexivity).
  assert (Hcount : rd16 m 14 = tag_count0 e).
  { rewrite Hhead. rewrite rd16_app_ge by (rewrite length_exif_marker_start; lia).
    rewrite length_exif_marker_start. cbn [Nat.sub]. apply rd16_be16. lia. }
  assert (Htag : rd16 m 16 = TIFF_TAG_IMAGE_DESCRIPTION).
  { rewrite Hhead. peel rd16_app_ge. apply rd16_be16. done. }
  split; [exact Hpos|].
  split.
  { unfold find_entry, read_ifd. rewrite Hcount.
    destruct (Z.to_nat (tag_count0 e)) as [|k] eqn:Ek; [lia|].
    cbn [seq map find]. unfold read_entry at 1. cbn [entry_tag Nat.mul Nat.add].
    rewrite Htag. reflexivity. }
  unfold read_entry. cbn [entry_type entry_count entry_value].
  cbn [Nat.add].
  assert (Hcnt : rd32 m 20 = strlen ds + 1).
  { rewrite Hhead. peel rd32_app_ge. apply rd32_be32. lia. }
  split; [rewrite Hhead; peel rd16_app_ge; by apply rd16_be16|].
  split; [exact Hcnt|].
  rewrite Hcnt. clear Hhead Hcount Htag Hpos V rest HV. split.
  - intros Hle.
    rewrite img_stringentry_inline_eq in Hm by lia. cbn [fst snd] in Hm.
    assert (Hl : (length ds <= 3)%nat) by (unfold strlen in Hle; lia).
    replace (ds ++ replicate (4 - length ds) 0)
      with (str_data ds true ++ replicate (4 - length (str_data ds true)) 0).
    2: { unfold str_data. rewrite length_app. cbn [length].
         replace (4 - length ds)%nat with (S (4 - (length ds + 1))) by lia.
         cbn [replicate]. by rewrite <- app_assoc. }
    eapply (take_drop_at m
              (exif_marker_start ++ be16 (tag_count0 e) ++
               be16 TIFF_TAG_IMAGE_DESCRIPTION ++ be16 TIFF_TYPE_ASCII ++
               be32 (Z.of_nat (length (str_data ds true))))).
    + rewrite Hm at 1. rewrite <- !app_assoc. reflexivity.
    + autorewrite with len. lia.
    + autorewrite with len. unfold strlen in Hle. lia.
  - intros Hgt.
    assert (H4 : 4 < Z.of_nat (length (str_data ds true)))
      by (rewrite Hn; exact Hgt).
    rewrite (img_stringentry_ool_eq _ _ _ _ _ H4) in Hm, Hdir.
    cbn [fst snd length] in Hm, Hdir.
    rewrite Nat.add_0_r in Hm, Hdir.
    destruct (pad_facts (Z.of_nat E - 6)) as [Hp Hal].
    set (pad := (- (Z.of_nat E - 6)) mod 4) in *. clearbody pad.
    assert (HE : Z.of_nat E = 14 + inventory_ifds_size e) by lia.
    assert (Hroom : Z.of_nat E - 6 + pad < 2 ^ 32).
    { unfold inventory_fits, inventory_datasize in Hfit. rewrite Hd in Hfit.
      cbn [booked] in Hfit.
      assert (0 <= booked (datetime e))
        by (unfold booked, strlen; destruct (datetime e); lia).
      assert (0 <= booked (subtime e))
        by (unfold booked, strlen; destruct (subtime e); lia).
      lia. }
    assert (Hval : rd32 m 24 = Z.of_nat E - 6 + pad).
    { rewrite Hm. rewrite <- !app_assoc. peel rd32_app_ge.
      apply rd32_be32. lia. }
    rewrite Hval. split; [exact Hal|].
    unfold entry_payload. cbn [entry_count entry_value].
    change (ds ++ [0]) with (str_data ds true).
    match type of Hdir with
    | length ?A = _ =>
        eapply (take_drop_at m (A ++ replicate (Z.to_nat pad) 0))
    end.
    + rewrite Hm at 1. rewrite <- !app_assoc. reflexivity.
    + rewrite length_app, length_replicate, Hdir. unfold tiff_base. lia.
    + rewrite length_str_data. unfold strlen. lia.
Qed.

(** X25.  Round trip of the description: when [picture_exif] is not
    empty, the first entry of IFD0 is the image description (tag 0x010E,
    ASCII), counted with its NUL, and its value is the expanded
    [picture_exif].  A description of up to three characters lies in the
    entry itself, padded with zeros; a longer one lies at the offset that
    the entry holds, a multiple of four, followed by its NUL. *)
Theorem exif_description_roundtrip w fresh cm ts bx len m :
  counters_zeroed fresh ->
  strlen (mystrftime w cm (PATH_MAX - 1) (picture_exif cm)) < PATH_MAX ->
  picture_exif cm <> [] ->
  jpgutl_exif w fresh cm ts bx = Some (len, Some m) ->
  let ds := mystrftime w cm (PATH_MAX - 1) (picture_exif cm) in
  let en := read_entry m (ifd0_pos m + 2) in
  find_entry TIFF_TAG_IMAGE_DESCRIPTION (read_ifd m (ifd0_pos m)) = Some en /\
  entry_type en = TIFF_TYPE_ASCII /\ entry_count en = strlen ds + 1 /\
  (strlen ds + 1 <= 4 ->
   take 4 (drop (ifd0_pos m + 2 + 8) m) = ds ++ replicate (4 - length ds) 0) /\
  (4 < strlen ds + 1 ->
   entry_value en mod 4 = 0 /\ entry_payload m en = ds ++ [0]).
Proof.
  intros Hz Hlen Hpic Hrun. cbv zeta. unfold jpgutl_exif in Hrun.
  destruct (jpgutl_exif_date_ready w (exif_info_init fresh cm ts bx) Hz Hlen)
    as (Hz' & Hfit & _).
  assert (Hd : description (jpgutl_exif_date w (exif_info_init fresh cm ts bx))
               = Some (mystrftime w cm (PATH_MAX - 1) (picture_exif cm))).
  { unfold jpgutl_exif_date, exif_info_init. cbn [description cam].
    by destruct (decide (picture_exif cm = [])). }
  destruct (description_entry w _ _ len m Hz' Hfit Hd Hrun)
    as (Hpos & Hfind & Hty & Hcnt & Hin & Hool).
  rewrite Hpos. cbn [Nat.add].
  split; [exact Hfind|]. split; [exact Hty|]. split; [exact Hcnt|].
  split; [exact Hin|].
  intros Hgt. destruct (Hool Hgt) as [Hal Hpay].
  split; [by apply Z.mod_divide|exact Hpay].
Qed.

Lemma exif_description_roundtrip_witness :
  counters_zeroed zeroed_info /\
  strlen (mystrftime sample_world hi_camera (PATH_MAX - 1)
            (picture_exif hi_camera)) < PATH_MAX /\
  picture_exif hi_camera <> [] /\
  jpgutl_exif sample_world zeroed_info hi_camera None (Some sample_box)
  = Some (158, Some boxed_marker) /\
  let ds := mystrftime sample_world hi_camera (PATH_MAX - 1)
              (picture_exif hi_camera) in
  let en := read_entry boxed_marker (ifd0_pos boxed_marker + 2) in
  find_entry TIFF_TAG_IMAGE_DESCRIPTION
    (read_ifd boxed_marker (ifd0_pos boxed_marker)) = Some en /\
  entry_type en = TIFF_TYPE_ASCII /\ entry_count en = strlen ds + 1 /\
  (strlen ds + 1 <= 4 ->
   take 4 (drop (ifd0_pos boxed_marker + 2 + 8) boxed_marker)
   = ds ++ replicate (4 - length ds) 0) /\
  (4 < strlen ds + 1 ->
   entry_value en mod 4 = 0 /\ entry_payload boxed_marker en = ds ++ [0]).
Proof.
  assert (Hz : counters_zeroed zeroed_info) by (repeat split).
  assert (Hl : strlen (mystrftime sample_world hi_camera (PATH_MAX - 1)
                         (picture_exif hi_camera)) < PATH_MAX)
    by (vm_compute; reflexivity).
  assert (Hp : picture_exif hi_camera <> []) by discriminate.
  assert (Hrun : jpgutl_exif sample_world zeroed_info hi_camera None
                   (Some sample_box) = Some (158, Some boxed_marker))
    by (vm_compute; reflexivity).
  split; [exact Hz|]. split; [exact Hl|]. split; [exact Hp|].
  split; [exact Hrun|].
  apply (exif_description_roundtrip sample_world zeroed_info hi_camera None
           (Some sample_box) 158 boxed_marker Hz Hl Hp Hrun).
Defined.
